(** * Condition polling, element readiness and reconnection of mcp-chromium-cdp

    A shallow embedding of
      - [WaitService.waitFor] and [getActualState]
        (src/services/wait-service.ts),
      - [ElementReadinessService.checkElementState], [checkStability] and
        [isReady] (src/services/element-readiness-service.ts),
      - [ChromeController.ensureConnected] and [connect]
        (src/chrome-controller.ts),
    together with the properties the specification states about them,
    and of the code around them:
      - [ElementReadinessService.waitForReady], [getBlockingReasons] and
        [isImmediatelyReady],
      - [ValidationService.validateSelector], [validateTimeout],
        [validateDimension] and [validatePropertyName]
        (src/services/validation-service.ts),
      - [ScreenshotService.calculateOptimalDimensions]
        (src/services/screenshot-service.ts),
      - [isSensitiveField] and [findChromiumPath] (src/chrome-controller.ts),
      - [MessageDetectionService.extractMessages], [extractConsoleErrors]
        and [waitForMessage] (src/services/message-detection-service.ts).

    The asynchronous code is written in a small monad [Async]: state
    passing over a [World] (browser page, clock, log of driver calls,
    listeners registered on the client, and the cells captured by their
    closures), with JavaScript exceptions as an abrupt completion. *)

From Stdlib Require Import PrimFloat FloatOps.
From Stdlib Require Import ZArith QArith Qabs Qround Lqa String Ascii List Lia Bool.
From stdpp Require Import base list strings pretty.
Import ListNotations.

(* A decimal literal stands for the nearest double, as in JavaScript. *)
#[local] Set Warnings "-inexact-float".

Local Open Scope string_scope.
Local Open Scope list_scope.
Local Open Scope Z_scope.

(** ** JavaScript values the code handles *)

(** A thrown error object; [`${error}`] renders it as ["<name>: <message>"]. *)
Inductive JsError :=
| Error (message : string)
| SyntaxError (message : string).

Definition render (e : JsError) : string :=
  match e with
  | Error m => "Error: " +:+ m
  | SyntaxError m => "SyntaxError: " +:+ m
  end.

(** How a statement or an awaited promise completes. *)
Inductive Completion (A : Type) :=
| Normal (a : A)
| Thrown (e : JsError).
Arguments Normal {A} a.
Arguments Thrown {A} e.

(** A JavaScript string is truthy when it is not empty; an optional key is
    truthy when it is present and truthy. *)
Definition truthy (s : option string) : bool :=
  match s with
  | Some s => negb (String.eqb s "")
  | None => false
  end.

(** [String.prototype.includes]: [needle] occurs in [hay] as a contiguous
    substring, characters compared exactly. *)
Fixpoint includes (needle hay : string) : bool :=
  String.prefix needle hay ||
  match hay with
  | EmptyString => false
  | String _ rest => includes needle rest
  end.

(** ** Bounding boxes

    The fields of a [DOMRect] are JavaScript numbers, that is, IEEE 754
    doubles. *)

Record Rect := mkRect { x : float; y : float; width : float; height : float }.

(** [a < b] on exact rationals, as a boolean. *)
Definition Qltb (a b : Q) : bool := negb (Qle_bool b a).

(** The rational number a finite double stands for. *)
Definition number_value (v : float) : option Q :=
  match Prim2SF v with
  | SpecFloat.S754_zero _ => Some 0%Q
  | SpecFloat.S754_finite negative mantissa exponent =>
      let magnitude := (inject_Z (Zpos mantissa) * Qpower 2 exponent)%Q in
      Some (if negative then Qopp magnitude else magnitude)
  | _ => None
  end.

(** What the in-page readiness script returns for an element it found. *)
Record Probe := mkProbe {
  probe_visible : bool;
  probe_enabled : bool;
  probe_boundingBox : Rect
}.

(** ** The driver (chrome-remote-interface client and the page behind it) *)

(** The scripts the services hand to [Runtime.evaluate], indexed by the
    type of the value the script computes. *)
Inductive Expression : Type -> Type :=
| TextScan (textToFind : string) : Expression bool
    (* (function(t){ return document.body.innerText.includes(t); })(<JSON text>) *)
| LocationHref : Expression string
    (* window.location.href *)
| ReadinessProbe (selector : string) : Expression Probe
    (* checkScript of checkElementState *)
| BoxProbe (selector : string) : Expression Rect.
    (* checkScript of checkStability *)

(** The reply of [Runtime.evaluate]: [result.result.value] ([None] stands for
    [null] or [undefined]) and [result.exceptionDetails.text]. *)
Record Evaluation (A : Type) := mkEvaluation {
  value : option A;
  exceptionDetails : option string
}.
Arguments mkEvaluation {A} value exceptionDetails.
Arguments value {A} e.
Arguments exceptionDetails {A} e.

Inductive NetEvent := requestWillBeSent | loadingFinished.

Definition NetEvent_eqb (a b : NetEvent) : bool :=
  match a, b with
  | requestWillBeSent, requestWillBeSent => true
  | loadingFinished, loadingFinished => true
  | _, _ => false
  end.

(** What happens while the caller is suspended on one [await]: the promise
    settles, the page moves on, and network events are delivered meanwhile.
    Each event carries the time that passed since the previous one (or since
    the suspension began); [rest] is the time between the last event and the
    resumption. All durations are in milliseconds. *)
Record Reply (P A : Type) := mkReply {
  settled : Completion A;
  page_after : P;
  heard : list (N * NetEvent);
  rest : N
}.
Arguments mkReply {P A} settled page_after heard rest.
Arguments settled {P A} r.
Arguments page_after {P A} r.
Arguments heard {P A} r.
Arguments rest {P A} r.

Record Driver (P : Type) := mkDriver {
  Network_enable : P -> Reply P unit;
  Network_disable : P -> Reply P unit;
  DOM_getDocument : P -> Reply P Z;                         (* root.nodeId *)
  DOM_querySelector : Z -> string -> P -> Reply P (option Z); (* nodeId *)
  Runtime_evaluate : forall A, Expression A -> P -> Reply P (Evaluation A);
  idle : Z -> P -> Reply P unit   (* the page during a setTimeout of that length *)
}.
Arguments Network_enable {P} d.
Arguments Network_disable {P} d.
Arguments DOM_getDocument {P} d.
Arguments DOM_querySelector {P} d.
Arguments Runtime_evaluate {P} d {A}.
Arguments idle {P} d.

(** ** The world an asynchronous call runs in *)

(** The observable effects, in the order they happen. *)
Inductive Effect :=
| CallNetworkEnable
| CallNetworkDisable
| CallGetDocument
| CallQuerySelector (nodeId : Z) (selector : string)
| CallEvaluate {A} (e : Expression A)
| Subscribe (ev : NetEvent) (cell : nat)
| Sleep (ms : Z)
| ConsoleError (text : string).

(** A registered callback [() => { lastNetworkActivity = Date.now(); }]: the
    event it listens to and the variable its closure captured. *)
Definition Listener : Type := NetEvent * nat.

(** The clock never runs backwards, and it moves only while the task is
    suspended: the code between two [await]s takes no time. *)
Record World (P : Type) := mkWorld {
  page : P;
  now : Z;                     (* Date.now() *)
  trace : list Effect;
  listeners : list Listener;   (* callbacks registered on the shared client *)
  cells : list Z               (* the captured lastNetworkActivity variables *)
}.
Arguments mkWorld {P} page now trace listeners cells.
Arguments page {P} w.
Arguments now {P} w.
Arguments trace {P} w.
Arguments listeners {P} w.
Arguments cells {P} w.

(** One event reaches every callback registered for it; each writes the
    current time into its own captured variable. *)
Definition fire (ls : list Listener) (ev : NetEvent) (t : Z) (cs : list Z) : list Z :=
  fold_left (fun cs (l : Listener) =>
               if NetEvent_eqb (fst l) ev then <[snd l := t]> cs else cs) ls cs.

Fixpoint deliver (ls : list Listener) (t : Z) (evs : list (N * NetEvent))
    (cs : list Z) : Z * list Z :=
  match evs with
  | [] => (t, cs)
  | (gap, ev) :: evs' =>
      let t' := t + Z.of_N gap in
      deliver ls t' evs' (fire ls ev t' cs)
  end.

(** [Async S A]: a computation over a state [S] that completes normally or
    throws. [None] is reserved for a loop that was given too little fuel. *)
Definition Async (S A : Type) : Type := S -> option (Completion A * S).

Section AsyncMonad.
Context {S : Type}.

Definition ret {A} (a : A) : Async S A := fun w => Some (Normal a, w).

Definition throw {A} (e : JsError) : Async S A := fun w => Some (Thrown e, w).

Definition bind {A B} (m : Async S A) (k : A -> Async S B) : Async S B :=
  fun w =>
    match m w with
    | Some (Normal a, w') => k a w'
    | Some (Thrown e, w') => Some (Thrown e, w')
    | None => None
    end.

Definition out_of_fuel {A} : Async S A := fun _ => None.

(** [try { m } catch (error) { handler error }] *)
Definition try_catch {A} (m : Async S A) (handler : JsError -> Async S A)
    : Async S A :=
  fun w =>
    match m w with
    | Some (Thrown e, w') => handler e w'
    | other => other
    end.

(** [try { m } finally { cleanup }]: the cleanup runs on every completion
    of [m]; when it completes normally the completion of [m] stands. *)
Definition try_finally {A} (m : Async S A) (cleanup : Async S unit)
    : Async S A :=
  fun w =>
    match m w with
    | Some (c, w') =>
        match cleanup w' with
        | Some (Normal _, w'') => Some (c, w'')
        | Some (Thrown e, w'') => Some (Thrown e, w'')
        | None => None
        end
    | None => None
    end.

End AsyncMonad.

(** A computation of the services, over the [World] of a page [P]. *)
Definition Task (P A : Type) : Type := Async (World P) A.

Section WorldOperations.
Context {P : Type}.

Definition Date_now : Task P Z := fun w => Some (Normal (now w), w).

Definition log (e : Effect) : Task P unit :=
  fun w => Some (Normal tt,
                 mkWorld (page w) (now w) (trace w ++ [e]) (listeners w) (cells w)).

(** [await] of a driver call: the call is logged, events heard meanwhile
    run the registered callbacks, the clock moves on. *)
Definition await {A} (what : Effect) (call : P -> Reply P A) : Task P A :=
  fun w =>
    let r := call (page w) in
    let '(t, cs) := deliver (listeners w) (now w) (heard r) (cells w) in
    Some (settled r,
          mkWorld (page_after r) (t + Z.of_N (rest r)) (trace w ++ [what])
                  (listeners w) cs).

(** [let v = t]: a fresh variable that closures may capture. *)
Definition new_cell (t : Z) : Task P nat :=
  fun w => Some (Normal (length (cells w)),
                 mkWorld (page w) (now w) (trace w) (listeners w) (cells w ++ [t])).

Definition read_cell (c : nat) : Task P Z :=
  fun w => Some (Normal (default 0 (cells w !! c)), w).

(** [client.Network.<ev>(callback)]: one more listener on the client. *)
Definition subscribe (ev : NetEvent) (c : nat) : Task P unit :=
  fun w => Some (Normal tt,
                 mkWorld (page w) (now w) (trace w ++ [Subscribe ev c])
                         (listeners w ++ [(ev, c)]) (cells w)).
End WorldOperations.

Declare Scope async_scope.
Delimit Scope async_scope with async.
Notation "x <- m ;; k" := (bind m (fun x => k))
  (at level 200, m at level 99, k at level 200, right associativity) : async_scope.
Notation "m ;;; k" := (bind m (fun _ => k))
  (at level 200, k at level 200, right associativity) : async_scope.
Local Open Scope async_scope.

(** ** Timers *)

(** How much sooner than asked a timer can fire, read on [Date.now()]. *)
Definition TIMER_EARLY_MS : Z := 1.

Section Timers.
Context {P : Type} (client : Driver P).

(** [await new Promise(resolve => setTimeout(resolve, ms))]: the page lives
    on meanwhile. The timer runs on the millisecond clock of the event loop,
    which ticks out of phase with [Date.now()]: read on [Date.now()], the
    timer may fire when only [ms - 1] milliseconds have passed, and never
    sooner. *)
Definition sleep (ms : Z) : Task P unit :=
  fun w =>
    match await (Sleep ms) (idle client ms) w with
    | Some (_, w') =>
        Some (Normal tt,
              mkWorld (page w') (Z.max (now w') (now w + ms - TIMER_EARLY_MS))
                      (trace w') (listeners w') (cells w'))
    | None => None
    end.

End Timers.

(** ** ElementReadinessService (src/services/element-readiness-service.ts) *)

Record ElementState := mkElementState {
  visible : bool;
  enabled : bool;
  stable : bool;
  boundingBox : option Rect
}.

Definition STABILITY_CHECK_MS : Z := 100.

(** The state returned when there is nothing to look at. *)
Definition notFound : ElementState :=
  {| visible := false; enabled := false; stable := false; boundingBox := None |}.

(** [Math.abs(a - b) < 1]: the subtraction, the absolute value and the
    comparison of doubles. *)
Definition moved_less_than_1 (a b : float) : bool :=
  PrimFloat.ltb (PrimFloat.abs (PrimFloat.sub a b)) 1.

(** Lines 229-233: every field moved by less than one pixel. *)
Definition within_1px (newBox initialBox : Rect) : bool :=
  moved_less_than_1 (x newBox) (x initialBox) &&
  moved_less_than_1 (y newBox) (y initialBox) &&
  moved_less_than_1 (width newBox) (width initialBox) &&
  moved_less_than_1 (height newBox) (height initialBox).

(** [!nodeId]: the node id is [undefined] or 0. *)
Definition no_node (nodeId : option Z) : bool :=
  match nodeId with Some n => n =? 0 | None => true end.

(** [isReady], lines 248-250. *)
Definition isReady (state : ElementState) : bool :=
  visible state && enabled state && stable state.

Section ElementReadinessService.
Context {P : Type} (client : Driver P).

(** [checkStability], lines 195-239. *)
Definition checkStability (selector : string) (initialBox : Rect) : Task P bool :=
  sleep client STABILITY_CHECK_MS ;;;
  try_catch
    (result <- await (CallEvaluate (BoxProbe selector))
                     (Runtime_evaluate client (BoxProbe selector)) ;;
     match value result with
     | None => ret false
     | Some newBox => ret (within_1px newBox initialBox)
     end)
    (fun _ => ret false).

(** [checkElementState], lines 101-185. *)
Definition checkElementState (selector : string) : Task P ElementState :=
  try_catch
    (root <- await CallGetDocument (DOM_getDocument client) ;;
     nodeId <- await (CallQuerySelector root selector)
                     (DOM_querySelector client root selector) ;;
     if no_node nodeId then ret notFound
     else
       result <- await (CallEvaluate (ReadinessProbe selector))
                       (Runtime_evaluate client (ReadinessProbe selector)) ;;
       match exceptionDetails result, value result with
       | None, Some probe =>
           stable <- checkStability selector (probe_boundingBox probe) ;;
           ret {| visible := probe_visible probe;
                  enabled := probe_enabled probe;
                  stable := stable;
                  boundingBox := Some (probe_boundingBox probe) |}
       | _, _ => ret notFound
       end)
    (fun _ => ret notFound).

End ElementReadinessService.

(** ** WaitService (src/services/wait-service.ts) *)

Record WaitOptions := mkWaitOptions {
  element : option string;
  text : option string;
  url : option string;
  networkIdle : option Z;
  timeout : option Z
}.

(** The [conditions] object: a flag per kind, [None] for [undefined]. *)
Record Conditions := mkConditions {
  c_element : option bool;
  c_text : option bool;
  c_url : option bool;
  c_networkIdle : option bool
}.

Record ActualState := mkActualState {
  currentUrl : option string;
  elementFound : bool;
  textFound : option bool
}.

Record WaitOutcome := mkWaitOutcome {
  success : bool;
  conditions : Conditions;
  actualState : ActualState;
  timeElapsed : Z
}.

Definition DEFAULT_WAIT_TIMEOUT_MS : Z := 5000.
Definition MAX_WAIT_TIMEOUT_MS : Z := 30000.
Definition WAIT_CHECK_INTERVAL_MS : Z := 100.

(** [options.timeout || DEFAULT_WAIT_TIMEOUT_MS]: an absent timeout and the
    falsy timeout 0 both give the default. *)
Definition timeout_or_default (o : WaitOptions) : Z :=
  match timeout o with
  | Some t => if t =? 0 then DEFAULT_WAIT_TIMEOUT_MS else t
  | None => DEFAULT_WAIT_TIMEOUT_MS
  end.

Definition effective_timeout (o : WaitOptions) : Z :=
  Z.min (timeout_or_default o) MAX_WAIT_TIMEOUT_MS.

(** [!conditions.k]: the flag is [undefined] or [false]. *)
Definition unmet (flag : option bool) : bool :=
  match flag with Some true => false | _ => true end.

(** [value === undefined || value === true] *)
Definition met_or_absent (flag : option bool) : bool :=
  match flag with None | Some true => true | Some false => false end.

(** [Object.values(conditions).every(...)] *)
Definition allConditionsMet (c : Conditions) : bool :=
  forallb met_or_absent [c_element c; c_text c; c_url c; c_networkIdle c].

Definition initial_conditions (o : WaitOptions) : Conditions :=
  {| c_element := if truthy (element o) then Some false else None;
     c_text := if truthy (text o) then Some false else None;
     c_url := if truthy (url o) then Some false else None;
     c_networkIdle := match networkIdle o with Some _ => Some false | None => None end |}.

(** [nodeId !== undefined && nodeId !== 0] *)
Definition node_found (nodeId : option Z) : bool :=
  match nodeId with Some n => negb (n =? 0) | None => false end.

(** A string handed to [RegExp.prototype.test]; [undefined] is coerced. *)
Definition js_string (v : option string) : string :=
  match v with Some s => s | None => "undefined" end.

Section WaitService.
Context {P : Type} (client : Driver P).

(** [new RegExp(pattern).test(subject)] of the JavaScript runtime; it throws
    when the pattern is not a regular expression. *)
Variable RegExp_test : string -> string -> Completion bool.

(** The DOM query both [waitFor] and [getActualState] run inside a [try]:
    [getDocument], [querySelector], then the [nodeId] test. *)
Definition queryElement (selector : string) : Task P bool :=
  root <- await CallGetDocument (DOM_getDocument client) ;;
  nodeId <- await (CallQuerySelector root selector)
                  (DOM_querySelector client root selector) ;;
  ret (node_found nodeId).

(** Lines 77-88: the element condition. *)
Definition checkElement (o : WaitOptions) (c : Conditions) : Task P Conditions :=
  if truthy (element o) && unmet (c_element c) then
    found <- try_catch (queryElement (js_string (element o)))
                       (fun _ => ret false) ;;
    ret {| c_element := Some found; c_text := c_text c; c_url := c_url c;
           c_networkIdle := c_networkIdle c |}
  else ret c.

(** Lines 91-111: the text condition. *)
Definition checkText (o : WaitOptions) (c : Conditions) : Task P Conditions :=
  if truthy (text o) && unmet (c_text c) then
    result <- await (CallEvaluate (TextScan (js_string (text o))))
                    (Runtime_evaluate client (TextScan (js_string (text o)))) ;;
    match exceptionDetails result with
    | Some details => throw (Error ("Script execution failed: " +:+ details))
    | None =>
        match value result with
        | Some true =>
            ret {| c_element := c_element c; c_text := Some true; c_url := c_url c;
                   c_networkIdle := c_networkIdle c |}
        | _ => ret c
        end
    end
  else ret c.

(** Lines 114-124: the URL condition. *)
Definition checkUrl (o : WaitOptions) (c : Conditions) : Task P Conditions :=
  if truthy (url o) && unmet (c_url c) then
    result <- await (CallEvaluate LocationHref)
                    (Runtime_evaluate client LocationHref) ;;
    match RegExp_test (js_string (url o)) (js_string (value result)) with
    | Thrown error => throw error
    | Normal true =>
        ret {| c_element := c_element c; c_text := c_text c; c_url := Some true;
               c_networkIdle := c_networkIdle c |}
    | Normal false => ret c
    end
  else ret c.

(** Lines 127-132: the network idle condition. *)
Definition checkNetworkIdle (o : WaitOptions) (lastNetworkActivity : nat)
    (c : Conditions) : Task P Conditions :=
  match networkIdle o with
  | Some idleFor =>
      if unmet (c_networkIdle c) then
        t <- Date_now ;;
        last <- read_cell lastNetworkActivity ;;
        if idleFor <=? t - last then
          ret {| c_element := c_element c; c_text := c_text c; c_url := c_url c;
                 c_networkIdle := Some true |}
        else ret c
      else ret c
  | None => ret c
  end.

(** [getActualState], lines 180-231. *)
Definition getActualState (o : WaitOptions) : Task P ActualState :=
  urlResult <- await (CallEvaluate LocationHref)
                     (Runtime_evaluate client LocationHref) ;;
  elementFound <-
    (if truthy (element o) then
       try_catch (queryElement (js_string (element o))) (fun _ => ret false)
     else ret false) ;;
  textFound <-
    (if truthy (text o) then
       result <- await (CallEvaluate (TextScan (js_string (text o))))
                       (Runtime_evaluate client (TextScan (js_string (text o)))) ;;
       match exceptionDetails result with
       | None => ret (value result)
       | Some _ => ret (Some false)
       end
     else ret (Some false)) ;;
  ret {| currentUrl := value urlResult; elementFound := elementFound;
         textFound := textFound |}.

(** One pass over the four conditions (the body of the loop up to line 132). *)
Definition checkConditions (o : WaitOptions) (lastNetworkActivity : nat)
    (c : Conditions) : Task P Conditions :=
  c <- checkElement o c ;;
  c <- checkText o c ;;
  c <- checkUrl o c ;;
  checkNetworkIdle o lastNetworkActivity c.

(** [{ success, conditions, actualState, timeElapsed: Date.now() - startTime }] *)
Definition report (o : WaitOptions) (startTime : Z) (ok : bool) (c : Conditions)
    : Task P WaitOutcome :=
  actualState <- getActualState o ;;
  t <- Date_now ;;
  ret {| success := ok; conditions := c; actualState := actualState;
         timeElapsed := t - startTime |}.

(** The polling loop, lines 75-161. *)
Fixpoint poll (fuel : nat) (o : WaitOptions) (startTime timeout : Z)
    (lastNetworkActivity : nat) (c : Conditions) : Task P WaitOutcome :=
  match fuel with
  | O => out_of_fuel
  | S fuel' =>
      t <- Date_now ;;
      if t - startTime <? timeout then
        c <- checkConditions o lastNetworkActivity c ;;
        if allConditionsMet c then report o startTime true c
        else
          sleep client WAIT_CHECK_INTERVAL_MS ;;;
          poll fuel' o startTime timeout lastNetworkActivity c
      else report o startTime false c
  end.

(** Lines 62-72: the variable the callbacks capture, and the subscription. *)
Definition monitorNetwork (o : WaitOptions) : Task P nat :=
  t <- Date_now ;;
  lastNetworkActivity <- new_cell t ;;
  match networkIdle o with
  | Some _ =>
      await CallNetworkEnable (Network_enable client) ;;;
      subscribe requestWillBeSent lastNetworkActivity ;;;
      subscribe loadingFinished lastNetworkActivity ;;;
      ret lastNetworkActivity
  | None => ret lastNetworkActivity
  end.

(** The [finally] block, lines 164-174. *)
Definition cleanup (o : WaitOptions) : Task P unit :=
  match networkIdle o with
  | Some _ =>
      try_catch (await CallNetworkDisable (Network_disable client))
                (fun error =>
                   log (ConsoleError ("[waitFor] Network cleanup failed: "
                                      +:+ render error)))
  | None => ret tt
  end.

Definition waitFor_fuel (fuel : nat) (o : WaitOptions) : Task P WaitOutcome :=
  startTime <- Date_now ;;
  let timeout := effective_timeout o in
  try_finally
    (try_catch
       (lastNetworkActivity <- monitorNetwork o ;;
        poll fuel o startTime timeout lastNetworkActivity (initial_conditions o))
       (fun error =>
          throw (Error ("Failed to wait for conditions: " +:+ render error))))
    (cleanup o).

(** Every pass that does not return sleeps for the check interval, which
    takes 99 ms at least, so the loop runs at most [timeout / 99 + 1] passes
    before the deadline test fails. *)
Definition poll_bound (timeout : Z) : nat :=
  Z.to_nat (timeout / (WAIT_CHECK_INTERVAL_MS - TIMER_EARLY_MS)) + 2.

Definition waitFor (o : WaitOptions) : Task P WaitOutcome :=
  waitFor_fuel (poll_bound (effective_timeout o)) o.

End WaitService.

(** ** ChromeController: the connection (src/chrome-controller.ts, lines 106-196) *)

Definition MAX_RECONNECTION_RETRIES : nat := 5.
Definition RECONNECTION_RETRY_DELAY_MS : Z := 2000.

(** One suspension of the controller: the awaited promise settles, the
    browser moves on, time passes, and the client's 'disconnect' event may
    have fired meanwhile. *)
Record Turn (B A : Type) := mkTurn {
  outcome : Completion A;
  browser_after : B;
  elapsed : N;
  dropped : bool
}.
Arguments mkTurn {B A} outcome browser_after elapsed dropped.
Arguments outcome {B A} t.
Arguments browser_after {B A} t.
Arguments elapsed {B A} t.
Arguments dropped {B A} t.

(** What [connect] awaits: first [CDP.List], [chromeLauncher.launch] and
    [CDP(...)] up to the assignment of [this.client], then the four
    [enable] calls. *)
Record Launcher (B : Type) := mkLauncher {
  attach : B -> Turn B unit;
  enable_domains : B -> Turn B unit;
  pause : Z -> B -> Turn B unit
}.
Arguments attach {B} l.
Arguments enable_domains {B} l.
Arguments pause {B} l.

Inductive ConnEffect :=
| Connect                                (* connect() is invoked *)
| Attach
| EnableDomains
| Backoff (ms : Z)                       (* setTimeout(resolve, retryDelay) *)
| SayReconnecting
| SayReconnected
| SayAttemptFailed (attempt : nat) (error : JsError).

Record Session (B : Type) := mkSession {
  browser : B;
  clock : Z;
  this_client : bool;          (* this.client is not null *)
  this_reconnecting : bool;    (* this.reconnecting *)
  journal : list ConnEffect
}.
Arguments mkSession {B} browser clock this_client this_reconnecting journal.
Arguments browser {B} s.
Arguments clock {B} s.
Arguments this_client {B} s.
Arguments this_reconnecting {B} s.
Arguments journal {B} s.

Section ChromeController.
Context {B : Type} (chrome : Launcher B).

Definition note (e : ConnEffect) : Async (Session B) unit :=
  fun s => Some (Normal tt,
                 mkSession (browser s) (clock s) (this_client s)
                           (this_reconnecting s) (journal s ++ [e])).

Definition get_client : Async (Session B) bool :=
  fun s => Some (Normal (this_client s), s).

Definition set_client (live : bool) : Async (Session B) unit :=
  fun s => Some (Normal tt,
                 mkSession (browser s) (clock s) live (this_reconnecting s) (journal s)).

Definition get_reconnecting : Async (Session B) bool :=
  fun s => Some (Normal (this_reconnecting s), s).

Definition set_reconnecting (flag : bool) : Async (Session B) unit :=
  fun s => Some (Normal tt,
                 mkSession (browser s) (clock s) (this_client s) flag (journal s)).

(** An [await] of the controller. The 'disconnect' callback registered at
    line 183 nulls [this.client] when the event fires. *)
Definition turn {A} (what : ConnEffect) (call : B -> Turn B A)
    : Async (Session B) A :=
  fun s =>
    let r := call (browser s) in
    Some (outcome r,
          mkSession (browser_after r) (clock s + Z.of_N (elapsed r))
                    (if dropped r then false else this_client s)
                    (this_reconnecting s) (journal s ++ [what])).

(** The backoff timer: read on [Date.now()] it may fire a millisecond
    early, as in [sleep]. *)
Definition backoff (ms : Z) : Async (Session B) unit :=
  fun s =>
    match turn (Backoff ms) (pause chrome ms) s with
    | Some (_, s') =>
        Some (Normal tt,
              mkSession (browser s') (Z.max (clock s') (clock s + ms - TIMER_EARLY_MS))
                        (this_client s') (this_reconnecting s') (journal s'))
    | None => None
    end.

(** [connect], lines 148-196. *)
Definition connect : Async (Session B) unit :=
  note Connect ;;;
  try_catch
    (turn Attach (attach chrome) ;;;
     set_client true ;;;
     turn EnableDomains (enable_domains chrome))
    (fun error => throw (Error ("Failed to connect to Chrome: " +:+ render error))).

(** The [for] loop of lines 127-139, entered with [attempt] and [left] more
    iterations to go. It yields [true] when the body returned from
    [ensureConnected] and [false] when the loop ran out. *)
Fixpoint reconnectLoop (left attempt : nat) : Async (Session B) bool :=
  match left with
  | O => ret false
  | S left' =>
      returned <-
        try_catch
          (connect ;;;
           note SayReconnected ;;;
           set_reconnecting false ;;;
           ret true)
          (fun error =>
             note (SayAttemptFailed attempt error) ;;;
             (if (attempt <? MAX_RECONNECTION_RETRIES)%nat
              then backoff RECONNECTION_RETRY_DELAY_MS else ret tt) ;;;
             ret false) ;;
      if returned then ret true else reconnectLoop left' (S attempt)
  end.

(** [ensureConnected], lines 115-143. The fuel bounds the number of times
    the call finds a reconnection in flight, waits and calls itself. *)
Fixpoint ensureConnected (fuel : nat) : Async (Session B) unit :=
  live <- get_client ;;
  if live then ret tt
  else
    busy <- get_reconnecting ;;
    if busy then
      match fuel with
      | O => out_of_fuel
      | S fuel' => backoff RECONNECTION_RETRY_DELAY_MS ;;; ensureConnected fuel'
      end
    else
      set_reconnecting true ;;;
      note SayReconnecting ;;;
      returned <- reconnectLoop MAX_RECONNECTION_RETRIES 1 ;;
      if returned then ret tt
      else
        set_reconnecting false ;;;
        throw (Error "Failed to reconnect to Chromium after maximum retries").

End ChromeController.

(** *** Several callers of [ensureConnected] at once

    JavaScript runs one caller at a time and switches callers only at an
    [await]. A caller of [ensureConnected] is therefore always at one of the
    program points below, and each move of the system runs one caller from
    one [await] to the next. *)
Inductive Pc :=
| Entering                              (* called; line 116 runs next *)
| Waiting (wake : Z)                    (* line 120: another caller reconnects *)
| Attaching (attempt : nat)             (* line 129: in connect(), before line 153/179 assigns this.client *)
| Enabling (attempt : nat)              (* line 129: in connect(), at lines 189-192 *)
| BackingOff (attempt : nat) (wake : Z) (* line 136 *)
| Resolved
| Rejected.

Record System := mkSystem {
  sys_client : bool;          (* this.client is not null *)
  sys_reconnecting : bool;    (* this.reconnecting *)
  sys_clock : Z;
  sys_connects : nat;         (* connect() invocations so far *)
  callers : list Pc
}.

Inductive Move :=
| Tick (ms : N)                   (* time passes *)
| Resume (i : nat)                (* caller i runs from its entry or from its expired timer *)
| Attached (i : nat) (ok : bool)  (* caller i's attachment to the browser settles *)
| Enabled (i : nat) (ok : bool)   (* caller i's domain enables settle *)
| Disconnected.                   (* the client's 'disconnect' event *)

(** Lines 116-129, run without interruption up to the first [await]. *)
Definition enter (s : System) (i : nat) : System :=
  if sys_client s then
    mkSystem (sys_client s) (sys_reconnecting s) (sys_clock s) (sys_connects s)
             (<[i := Resolved]> (callers s))
  else if sys_reconnecting s then
    mkSystem (sys_client s) (sys_reconnecting s) (sys_clock s) (sys_connects s)
             (<[i := Waiting (sys_clock s + RECONNECTION_RETRY_DELAY_MS - TIMER_EARLY_MS)]>
                (callers s))
  else
    mkSystem (sys_client s) true (sys_clock s) (S (sys_connects s))
             (<[i := Attaching 1]> (callers s)).

(** Lines 133-142 after [connect] threw on [attempt]. *)
Definition attempt_failed (s : System) (i attempt : nat) : System :=
  if (attempt <? MAX_RECONNECTION_RETRIES)%nat then
    mkSystem (sys_client s) (sys_reconnecting s) (sys_clock s) (sys_connects s)
             (<[i := BackingOff attempt
                     (sys_clock s + RECONNECTION_RETRY_DELAY_MS - TIMER_EARLY_MS)]>
                (callers s))
  else
    mkSystem (sys_client s) false (sys_clock s) (sys_connects s)
             (<[i := Rejected]> (callers s)).

Definition step (m : Move) (s : System) : option System :=
  match m with
  | Tick ms =>
      Some (mkSystem (sys_client s) (sys_reconnecting s)
                     (sys_clock s + Z.of_N ms) (sys_connects s) (callers s))
  | Resume i =>
      match callers s !! i with
      | Some Entering => Some (enter s i)
      | Some (Waiting wake) =>
          if wake <=? sys_clock s then Some (enter s i) else None
      | Some (BackingOff attempt wake) =>
          if wake <=? sys_clock s then
            Some (mkSystem (sys_client s) (sys_reconnecting s) (sys_clock s)
                           (S (sys_connects s))
                           (<[i := Attaching (S attempt)]> (callers s)))
          else None
      | _ => None
      end
  | Attached i ok =>
      match callers s !! i with
      | Some (Attaching attempt) =>
          if ok then
            Some (mkSystem true (sys_reconnecting s) (sys_clock s) (sys_connects s)
                           (<[i := Enabling attempt]> (callers s)))
          else Some (attempt_failed s i attempt)
      | _ => None
      end
  | Enabled i ok =>
      match callers s !! i with
      | Some (Enabling attempt) =>
          if ok then
            Some (mkSystem (sys_client s) false (sys_clock s) (sys_connects s)
                           (<[i := Resolved]> (callers s)))
          else Some (attempt_failed s i attempt)
      | _ => None
      end
  | Disconnected =>
      if sys_client s then
        Some (mkSystem false (sys_reconnecting s) (sys_clock s) (sys_connects s)
                       (callers s))
      else None
  end.

(** A schedule is played move by move; it is refused when a move is not
    possible in the state it meets. *)
Fixpoint play (schedule : list Move) (s : System) : option System :=
  match schedule with
  | [] => Some s
  | m :: rest =>
      match step m s with
      | Some s' => play rest s'
      | None => None
      end
  end.

(** [n] callers invoke [ensureConnected] right after a disconnect: no live
    handle, no reconnection in flight. *)
Definition after_disconnect (n : nat) : System :=
  mkSystem false false 0 0 (replicate n Entering).

Definition is_disconnect (m : Move) : bool :=
  match m with Disconnected => true | _ => false end.

(** The callers inside an attempt sequence (lines 127-139). *)
Definition in_sequence (pc : Pc) : bool :=
  match pc with
  | Attaching _ | Enabling _ | BackingOff _ _ => true
  | _ => false
  end.

Definition is_rejected (pc : Pc) : bool :=
  match pc with Rejected => true | _ => false end.

Definition count_where {A} (f : A -> bool) (l : list A) : nat :=
  sum_list_with (fun a => if f a then 1%nat else 0%nat) l.

(** ** Reading the trace *)

Definition is_disable (e : Effect) : bool :=
  match e with CallNetworkDisable => true | _ => false end.

Definition is_sleep (e : Effect) : bool :=
  match e with Sleep _ => true | _ => false end.

(** The effects of a probe of the page. *)
Definition is_probe (e : Effect) : bool :=
  match e with
  | CallGetDocument | CallQuerySelector _ _ | CallEvaluate _ | Sleep _ => true
  | _ => false
  end.

Definition is_dom_query (e : Effect) : bool :=
  match e with
  | CallGetDocument | CallQuerySelector _ _ => true
  | _ => false
  end.

Definition is_text_scan (e : Effect) : bool :=
  match e with
  | CallEvaluate (TextScan _) => true
  | _ => false
  end.

Definition is_href_read (e : Effect) : bool :=
  match e with
  | CallEvaluate LocationHref => true
  | _ => false
  end.

(** The listeners the effects of a trace leave on the client. *)
Fixpoint subscriptions (tr : list Effect) : list Listener :=
  match tr with
  | [] => []
  | Subscribe ev c :: tr' => (ev, c) :: subscriptions tr'
  | _ :: tr' => subscriptions tr'
  end.

Definition is_connect (e : ConnEffect) : bool :=
  match e with Connect => true | _ => false end.

Definition is_backoff (e : ConnEffect) : bool :=
  match e with Backoff _ => true | _ => false end.

Definition is_failure (e : ConnEffect) : bool :=
  match e with SayAttemptFailed _ _ => true | _ => false end.

(** The attempts a journal reports as failed (line 134). *)
Definition failed_attempts (j : list ConnEffect) : nat :=
  length (List.filter is_failure j).

(** The connect() invocations and backoff sleeps of a journal, in order. *)
Definition attempts_and_sleeps (j : list ConnEffect) : list ConnEffect :=
  List.filter (fun e => is_connect e || is_backoff e) j.

(** ** A scripted page, to run the services on

    The page is a list of scenes: each driver call is answered by the first
    scene and moves on to the next; the last scene stays. *)
Record Scene := mkScene {
  body : string;                       (* document.body.innerText *)
  href : string;                       (* window.location.href *)
  shown : list (string * Probe);       (* the selectors that match, and what they show *)
  broken : option string;              (* every driver call rejects with this message *)
  script_error : option string;        (* every script raises this exception *)
  latency : N;                         (* a driver call takes this long *)
  traffic : list (N * NetEvent)        (* network events during a call *)
}.

Definition blank : Scene :=
  mkScene "" "about:blank" [] None None 0 [].

Definition lookup_selector (selector : string) (sc : Scene) : option Probe :=
  match List.find (fun e => String.eqb (fst e) selector) (shown sc) with
  | Some e => Some (snd e)
  | None => None
  end.

Definition current (p : list Scene) : Scene := List.hd blank p.

Definition advance (p : list Scene) : list Scene :=
  match p with
  | _ :: (_ :: _) as later => later
  | _ => p
  end.

Definition answer {A} (a : A) (p : list Scene) : Reply (list Scene) A :=
  mkReply (match broken (current p) with
           | Some message => Thrown (Error message)
           | None => Normal a
           end)
          (advance p) (traffic (current p)) (latency (current p)).

Definition run_script {A} (e : Expression A) (sc : Scene) : Evaluation A :=
  match script_error sc with
  | Some message => mkEvaluation None (Some message)
  | None =>
      match e in Expression T return Evaluation T with
      | TextScan textToFind => mkEvaluation (Some (includes textToFind (body sc))) None
      | LocationHref => mkEvaluation (Some (href sc)) None
      | ReadinessProbe selector => mkEvaluation (lookup_selector selector sc) None
      | BoxProbe selector =>
          mkEvaluation (option_map probe_boundingBox (lookup_selector selector sc)) None
      end
  end.

(** The time the traffic of a scene takes. *)
Definition traffic_time (sc : Scene) : N :=
  fold_right (fun e t => (fst e + t)%N) 0%N (traffic sc).

(** The scripted page during a timer of [ms] milliseconds: the timer fires
    on time, or once the traffic and the latency of the scene have passed
    when they take longer. *)
Definition scripted_idle (ms : Z) (p : list Scene) : Reply (list Scene) unit :=
  mkReply (settled (answer tt p)) (advance p) (traffic (current p))
          (N.max (latency (current p)) (Z.to_N ms - traffic_time (current p))).

Definition scripted : Driver (list Scene) :=
  {| Network_enable := answer tt;
     Network_disable := answer tt;
     DOM_getDocument := answer 1;
     DOM_querySelector := fun _ selector p =>
       answer (match lookup_selector selector (current p) with
               | Some _ => Some 2
               | None => Some 0
               end) p;
     Runtime_evaluate := fun A e p => answer (run_script e (current p)) p;
     idle := scripted_idle |}.

(** A regular-expression engine for patterns without metacharacters: the
    pattern matches where it occurs. *)
Definition literal_pattern (pattern subject : string) : Completion bool :=
  Normal (includes pattern subject).

Definition world_at (p : list Scene) (t : Z) : World (list Scene) :=
  mkWorld p t [] [] [].

(** A scripted browser for the controller: the outcomes of the successive
    awaits of [connect]; once the script is used up every await fails. *)
Definition scripted_turn (b : list bool) : Turn (list bool) unit :=
  match b with
  | true :: later => mkTurn (Normal tt) later 1 false
  | false :: later => mkTurn (Thrown (Error "connect ECONNREFUSED")) later 1 false
  | [] => mkTurn (Thrown (Error "connect ECONNREFUSED")) [] 1 false
  end.

Definition scripted_chrome : Launcher (list bool) :=
  {| attach := scripted_turn;
     enable_domains := scripted_turn;
     pause := fun ms b => mkTurn (Normal tt) b (Z.to_N ms) false |}.

Definition session_at (b : list bool) : Session (list bool) :=
  mkSession b 0 false false [].

(** ** Letter case, for comparison with the specification's wording *)




(** ** Vocabulary of the statements *)

Definition only (f : Effect -> bool) (tr : list Effect) : Prop :=
  forallb f tr = true.

Definition never (f : Effect -> bool) (tr : list Effect) : Prop :=
  forallb (fun e => negb (f e)) tr = true.

Definition count_effects (f : Effect -> bool) (tr : list Effect) : nat :=
  length (List.filter f tr).

(** From [w] to [w']: the trace grew by [tr], the client gained the
    listeners [tr] subscribed, no variable was lost, and time did not run
    backwards. *)
Definition evolves {P} (w w' : World P) (tr : list Effect) : Prop :=
  trace w' = trace w ++ tr /\
  listeners w' = listeners w ++ subscriptions tr /\
  now w <= now w' /\
  (length (cells w) <= length (cells w'))%nat.

(** [runs m w post]: from [w] the task completes, and its completion, the
    effects it had and the world it leaves satisfy [post]. *)
Definition runs {P A} (m : Task P A) (w : World P)
    (post : Completion A -> list Effect -> World P -> Prop) : Prop :=
  exists c w' tr, m w = Some (c, w') /\ evolves w w' tr /\ post c tr w'.

(** A flag that is [true] in [c] is [true] in [c']. *)
Definition latched (c c' : Conditions) : Prop :=
  (c_element c = Some true -> c_element c' = Some true) /\
  (c_text c = Some true -> c_text c' = Some true) /\
  (c_url c = Some true -> c_url c' = Some true) /\
  (c_networkIdle c = Some true -> c_networkIdle c' = Some true).

(** The flags of [c] are [undefined] exactly for the kinds [o] does not
    request. *)
Definition shaped (o : WaitOptions) (c : Conditions) : Prop :=
  (c_element c = None <-> truthy (element o) = false) /\
  (c_text c = None <-> truthy (text o) = false) /\
  (c_url c = None <-> truthy (url o) = false) /\
  (c_networkIdle c = None <-> networkIdle o = None).

(** The callbacks one call of [waitFor] leaves on the client: none unless
    network idle is requested and [Network.enable] resolves; then one for
    each event, both closed over the variable the call has just created. *)
Definition gained_listeners {P} (client : Driver P) (o : WaitOptions)
    (w : World P) : list Listener :=
  match networkIdle o with
  | Some _ =>
      match settled (Network_enable client (page w)) with
      | Normal _ => [(requestWillBeSent, length (cells w));
                     (loadingFinished, length (cells w))]
      | Thrown _ => []
      end
  | None => []
  end.

(** [validateTimeout] of src/services/validation-service.ts, lines 57-75,
    which the controller runs before it calls [waitFor]: does it let the
    timeout through? *)
Definition timeout_accepted (timeout : option Z) : bool :=
  match timeout with
  | None => true
  | Some t => negb ((t <? 0) || (30000 <? t))
  end.

(** How the text probe of line 97 fails, if it does: the promise rejects,
    or the reply carries [exceptionDetails] and line 104 throws. *)
Definition text_probe_failure {P} (reply : Reply P (Evaluation bool))
    : option JsError :=
  match settled reply with
  | Thrown error => Some error
  | Normal result =>
      match exceptionDetails result with
      | Some details => Some (Error ("Script execution failed: " +:+ details))
      | None => None
      end
  end.

(** How the DOM query of lines 79-83 fails, if it does: [getDocument]
    rejects, or [querySelector] does on the page [getDocument] left. *)
Definition dom_query_failure {P} (client : Driver P) (selector : string) (p : P)
    : option JsError :=
  match settled (DOM_getDocument client p) with
  | Thrown error => Some error
  | Normal root =>
      match settled (DOM_querySelector client root selector
                       (page_after (DOM_getDocument client p))) with
      | Thrown error => Some error
      | Normal _ => None
      end
  end.

(** The loop of [waitFor] gets from the start of one pass, with the flags
    [c] in the world [w], to the start of a later pass, with the flags [c']
    in the world [w']: every pass in between began before the deadline,
    left some condition unmet and was followed by the timer. *)
Inductive passes {P} (client : Driver P)
    (RegExp_test : string -> string -> Completion bool) (o : WaitOptions)
    (startTime timeout : Z) (cell : nat)
    : Conditions -> World P -> Conditions -> World P -> Prop :=
| passes_none c w :
    passes client RegExp_test o startTime timeout cell c w c w
| passes_more c w c1 w1 w2 c' w' :
    now w - startTime < timeout ->
    checkConditions client RegExp_test o cell c w = Some (Normal c1, w1) ->
    allConditionsMet c1 = false ->
    sleep client WAIT_CHECK_INTERVAL_MS w1 = Some (Normal tt, w2) ->
    passes client RegExp_test o startTime timeout cell c1 w2 c' w' ->
    passes client RegExp_test o startTime timeout cell c w c' w'.

(** What the driver shows of [selector] to the first probe of
    [checkElementState] on page [p]: the probe and the page it leaves, or
    nothing when the document or the selector does not resolve, a call
    rejects, or the script raises or returns no value. *)
Definition first_sample {P} (client : Driver P) (selector : string) (p : P)
    : option (Probe * P) :=
  let document := DOM_getDocument client p in
  match settled document with
  | Thrown _ => None
  | Normal root =>
      let query := DOM_querySelector client root selector (page_after document) in
      match settled query with
      | Thrown _ => None
      | Normal nodeId =>
          if no_node nodeId then None
          else
            let evaluation :=
              Runtime_evaluate client (ReadinessProbe selector) (page_after query) in
            match settled evaluation with
            | Thrown _ => None
            | Normal result =>
                match exceptionDetails result, value result with
                | None, Some probe => Some (probe, page_after evaluation)
                | _, _ => None
                end
            end
      end
  end.

(** The bounding box the driver shows of [selector] once the stability
    window has passed on page [p], if any. *)
Definition second_sample {P} (client : Driver P) (selector : string) (p : P)
    : option Rect :=
  match settled (Runtime_evaluate client (BoxProbe selector)
                   (page_after (idle client STABILITY_CHECK_MS p))) with
  | Normal result => value result
  | Thrown _ => None
  end.

(** The error is the one a read of the URL was rejected with. *)
Definition href_read_rejected {P} (client : Driver P) (error : JsError) : Prop :=
  exists p, settled (Runtime_evaluate client LocationHref p) = Thrown error.

(** No condition is requested. *)
Definition no_conditions (o : WaitOptions) : Prop :=
  truthy (element o) = false /\ truthy (text o) = false /\
  truthy (url o) = false /\ networkIdle o = None.

(** ** Scenarios

    Pages, options and schedules on which the statements below are run. *)

Definition app_page : Scene :=
  mkScene "Successfully Saved" "http://app.test/done" [] None None 3 [].

Definition idle_then_text : WaitOptions :=
  mkWaitOptions None (Some "Saved") None (Some 0) (Some 1000).

Definition text_Saved : WaitOptions :=
  mkWaitOptions None (Some "Saved") None None (Some 1000).




Definition network_idle_only : WaitOptions :=
  mkWaitOptions None None None (Some 500) (Some 1000).

Definition element_toast : WaitOptions :=
  mkWaitOptions (Some "#toast") None None None (Some 1000).



(** A page whose scripts raise, and the same page once they run. *)
Definition raising_page : Scene :=
  mkScene "Saved" "http://app.test/" [] None (Some "boom") 0 [].

Definition settled_page : Scene :=
  mkScene "Saved" "http://app.test/" [] None None 0 [].



Definition button_box : Rect := mkRect 100 200 50 30.

(** The button once its left edge has moved from 1 to 1e-17, the double
    [0x1.70ef54646d497p-57]. *)
Definition box_at_1 : Rect := mkRect 1 200 50 30.

Definition box_moved_left : Rect := mkRect 0x1.70ef54646d497p-57 200 50 30.

Definition moved_page : Scene :=
  mkScene "Submit" "http://app.test/form"
          [("#btn", mkProbe true true box_moved_left)] None None 1 [].

Definition button_page : Scene :=
  mkScene "Submit" "http://app.test/form"
          [("#btn", mkProbe true true button_box)] None None 1 [].

Definition lost_page : Scene :=
  mkScene "" "" [] (Some "WebSocket is not open") None 1 [].

(** ** Vocabulary of the statements about the connection *)

(** [k] attempts, with a backoff between consecutive ones. *)
Definition attempt_pattern (k : nat) : list ConnEffect :=
  concat (repeat [Connect; Backoff RECONNECTION_RETRY_DELAY_MS] (k - 1)) ++ [Connect].

(** What a connection attempt meets in the browser [b]: the error that
    [CDP(...)] or one of the [enable] calls is rejected with, if any. *)
Definition attempt_error {B} (chrome : Launcher B) (b : B) : option JsError :=
  match outcome (attach chrome b) with
  | Thrown error => Some error
  | Normal _ =>
      match outcome (enable_domains chrome (browser_after (attach chrome b))) with
      | Thrown error => Some error
      | Normal _ => None
      end
  end.

(** The browser a connection attempt leaves. *)
Definition browser_after_attempt {B} (chrome : Launcher B) (b : B) : B :=
  match outcome (attach chrome b) with
  | Thrown _ => browser_after (attach chrome b)
  | Normal _ => browser_after (enable_domains chrome (browser_after (attach chrome b)))
  end.

(** The browser that attempt [n + 1] of a sequence meets when the sequence
    begins with the browser [b] and the [n] attempts before it fail, each
    followed by the timer of 2000 ms. *)
Fixpoint browser_at {B} (chrome : Launcher B) (n : nat) (b : B) : B :=
  match n with
  | O => b
  | S n' =>
      browser_at chrome n'
        (browser_after (pause chrome RECONNECTION_RETRY_DELAY_MS
                          (browser_after_attempt chrome b)))
  end.

(** One whole sequence of attempts against the browser [b], as the
    completion [r] and the journal entries [added] show it: when attempt
    [n + 1] is the first the browser lets through, the sequence ends well
    after [n + 1] invocations of [connect] with [n] timers between them;
    when the browser refuses all five, it ends with the terminal error
    after five invocations and four timers. *)
Definition reconnect_sequence {B} (chrome : Launcher B) (b : B)
    (r : Completion unit) (added : list ConnEffect) : Prop :=
  (forall n, (n < 5)%nat ->
     (forall i, (i < n)%nat -> attempt_error chrome (browser_at chrome i b) <> None) ->
     attempt_error chrome (browser_at chrome n b) = None ->
     r = Normal tt /\
     attempts_and_sleeps added = attempt_pattern (S n) /\
     failed_attempts added = n) /\
  ((forall i, (i < 5)%nat -> attempt_error chrome (browser_at chrome i b) <> None) ->
   r = Thrown (Error "Failed to reconnect to Chromium after maximum retries") /\
   attempts_and_sleeps added = attempt_pattern 5 /\
   failed_attempts added = 5%nat).

(** The attempts a caller may still make: five before it has started, the
    rest of its sequence while it is in one, none once it has finished. *)
Definition credit (pc : Pc) : nat :=
  match pc with
  | Entering | Waiting _ => MAX_RECONNECTION_RETRIES
  | Attaching attempt | Enabling attempt | BackingOff attempt _ =>
      MAX_RECONNECTION_RETRIES - attempt
  | Resolved | Rejected => 0
  end.

(** The attempts left in the sequence a caller is in. *)
Definition remaining (pc : Pc) : nat :=
  match pc with
  | Attaching attempt | Enabling attempt | BackingOff attempt _ =>
      MAX_RECONNECTION_RETRIES - attempt
  | _ => 0
  end.

Definition is_enabling (pc : Pc) : bool :=
  match pc with Enabling _ => true | _ => false end.

(** The attempt number of a caller in a sequence is between 1 and 5, and
    below 5 while it backs off. *)
Definition attempt_in_range (pc : Pc) : Prop :=
  match pc with
  | Attaching attempt | Enabling attempt =>
      (1 <= attempt <= MAX_RECONNECTION_RETRIES)%nat
  | BackingOff attempt _ => (1 <= attempt < MAX_RECONNECTION_RETRIES)%nat
  | _ => True
  end.

(** What holds of every state the callers can reach. *)
Record Coordinated (s : System) : Prop := {
  one_sequence :
    count_where in_sequence (callers s) = if sys_reconnecting s then 1%nat else 0%nat;
  attempts_in_range : Forall attempt_in_range (callers s);
  connects_within_credit :
    (sys_connects s + sum_list_with credit (callers s)
     <= MAX_RECONNECTION_RETRIES * length (callers s))%nat
}.

(** What holds in addition as long as the handle, once assigned, is not
    dropped again. *)
Record Settling (s : System) : Prop := {
  enabling_has_client :
    sys_client s = false -> count_where is_enabling (callers s) = 0%nat;
  connects_within_budget :
    (sys_connects s + sum_list_with remaining (callers s)
     <= MAX_RECONNECTION_RETRIES * count_where is_rejected (callers s)
        + if sys_reconnecting s || sys_client s
          then MAX_RECONNECTION_RETRIES else 0)%nat
}.

(** The moves of a lone caller 0 from its attempt number [attempt] on, with
    [left] attempts to go, against the scripted browser [b]: each await of
    [connect] settles as the script says, and a failed attempt that is not
    the last is followed by the backoff and the next invocation. *)
Fixpoint solo_attempts (left attempt : nat) (b : list bool) : list Move :=
  match left with
  | O => []
  | S left' =>
      let again (b' : list bool) :=
        if (attempt <? MAX_RECONNECTION_RETRIES)%nat
        then [Tick 2000; Resume 0] ++ solo_attempts left' (S attempt) b'
        else [] in
      match b with
      | true :: true :: _ => [Attached 0 true; Enabled 0 true]
      | true :: false :: b' => [Attached 0 true; Enabled 0 false] ++ again b'
      | true :: [] => [Attached 0 true; Enabled 0 false] ++ again []
      | false :: b' => [Attached 0 false] ++ again b'
      | [] => [Attached 0 false] ++ again []
      end
  end.

(** A lone call of [ensureConnected] against the scripted browser. *)
Definition solo_call (b : list bool) : list Move :=
  Resume 0 :: solo_attempts MAX_RECONNECTION_RETRIES 1 b.

Definition connects_of (j : list ConnEffect) : nat :=
  length (List.filter is_connect j).

(** One caller's whole sequence when every attachment fails: five attempts,
    2000 ms apart, while the callers [others] look at the flag after each
    of their own sleeps. *)
Definition failing_sequence (i : nat) (others : list nat) : list Move :=
  let round := [Attached i false; Tick 2000; Resume i] ++ map Resume others in
  round ++ round ++ round ++ round ++ [Attached i false; Tick 2000].

(** Two callers right after a disconnect, the browser staying unreachable:
    caller 0 runs its five attempts while caller 1 waits on the flag; the
    flag is cleared, caller 1 wakes up, finds no handle and no reconnection
    in flight, and runs five attempts of its own. *)
Definition both_exhaust : list Move :=
  [Resume 0; Resume 1] ++ failing_sequence 0 [1%nat] ++
  [Resume 1] ++ failing_sequence 1 [].

(** Three callers right after a disconnect, the browser back at the second
    attempt: callers 1 and 2 wait on the flag and return once the handle is
    there. *)
Definition shared_success : list Move :=
  [Resume 0; Resume 1; Resume 2; Attached 0 false; Tick 2000; Resume 0;
   Resume 1; Resume 2; Attached 0 true; Enabled 0 true; Tick 2000;
   Resume 1; Resume 2].

(** ** ElementReadinessService: waiting for readiness
       (src/services/element-readiness-service.ts, lines 52-93 and 259-285) *)

Record ReadinessResult := mkReadinessResult {
  ready : bool;
  state : ElementState;
  readiness_timeElapsed : Z
}.

Definition DEFAULT_TIMEOUT_MS : Z := 5000.
Definition POLL_INTERVAL_MS : Z := 50.

(** [getBlockingReasons], lines 259-273. *)
Definition getBlockingReasons (state : ElementState) : list string :=
  (if visible state then [] else ["element not visible (hidden or zero size)"]) ++
  (if enabled state then [] else ["element disabled or readonly"]) ++
  (if stable state then [] else ["element position unstable (still animating)"]).

Section ReadinessWaiting.
Context {P : Type} (client : Driver P).

(** The slow path of [waitForReady], lines 69-92. *)
Fixpoint pollReady (fuel : nat) (selector : string) (startTime timeout : Z)
    : Task P ReadinessResult :=
  match fuel with
  | O => out_of_fuel
  | S fuel' =>
      t <- Date_now ;;
      if t - startTime <? timeout then
        state <- checkElementState client selector ;;
        if isReady state then
          t <- Date_now ;;
          ret {| ready := true; state := state;
                 readiness_timeElapsed := t - startTime |}
        else
          sleep client POLL_INTERVAL_MS ;;;
          pollReady fuel' selector startTime timeout
      else
        finalState <- checkElementState client selector ;;
        t <- Date_now ;;
        ret {| ready := false; state := finalState;
               readiness_timeElapsed := t - startTime |}
  end.

Definition waitForReady_fuel (fuel : nat) (selector : string) (timeout : option Z)
    : Task P ReadinessResult :=
  let timeout := default DEFAULT_TIMEOUT_MS timeout in
  startTime <- Date_now ;;
  initialState <- checkElementState client selector ;;
  if isReady initialState then
    t <- Date_now ;;
    ret {| ready := true; state := initialState;
           readiness_timeElapsed := t - startTime |}
  else pollReady fuel selector startTime timeout.

(** A pass that does not return sleeps for the poll interval, which takes
    49 ms at least. *)
Definition pollReady_bound (timeout : Z) : nat :=
  Z.to_nat (timeout / (POLL_INTERVAL_MS - TIMER_EARLY_MS)) + 2.

(** [waitForReady], lines 52-93; [timeout] is [None] when the argument is
    left out, and the default applies. *)
Definition waitForReady (selector : string) (timeout : option Z)
    : Task P ReadinessResult :=
  waitForReady_fuel (pollReady_bound (default DEFAULT_TIMEOUT_MS timeout))
                    selector timeout.

(** [isImmediatelyReady], lines 282-285. *)
Definition isImmediatelyReady (selector : string) : Task P bool :=
  state <- checkElementState client selector ;;
  ret (isReady state).

(** What a result of [waitForReady] says, for a call that started at
    [startTime] with the deadline [timeout] and ended in the world [w']. *)
Definition verdict (startTime timeout : Z) (w' : World P)
    (result : ReadinessResult) : Prop :=
  readiness_timeElapsed result = now w' - startTime /\
  (ready result = true ->
     isReady (state result) = true /\
     STABILITY_CHECK_MS - TIMER_EARLY_MS <= readiness_timeElapsed result) /\
  (ready result = false -> timeout <= readiness_timeElapsed result).

End ReadinessWaiting.

(** A page that answers at once, and a driver whose timers all fire the
    millisecond early that [Date.now()] allows. *)
Definition quick_button_page : Scene :=
  mkScene "Submit" "http://app.test/form"
          [("#btn", mkProbe true true button_box)] None None 0 [].

Definition early_timers : Driver (list Scene) :=
  {| Network_enable := Network_enable scripted;
     Network_disable := Network_disable scripted;
     DOM_getDocument := DOM_getDocument scripted;
     DOM_querySelector := DOM_querySelector scripted;
     Runtime_evaluate := fun A => @Runtime_evaluate _ scripted A;
     idle := fun _ p => answer tt p |}.

(** A button that is not in the page at the first look and is there, ready,
    at the second; and the world the first look leaves. *)
Definition button_appears : list Scene := [blank; blank; button_page].

Definition button_appeared : World (list Scene) :=
  mkWorld [button_page] 0 [CallGetDocument; CallQuerySelector 1 "#btn"] [] [].

(** [Network.enable] is called. *)
Definition is_enable (e : Effect) : bool :=
  match e with CallNetworkEnable => true | _ => false end.

(** The first call of a readiness check. *)
Definition is_document_read (e : Effect) : bool :=
  match e with CallGetDocument => true | _ => false end.

(** ** WaitService: what [getActualState] reports *)

(** The error is the one a text probe was rejected with. *)
Definition text_scan_rejected {P} (client : Driver P) (o : WaitOptions)
    (error : JsError) : Prop :=
  truthy (text o) = true /\
  exists p, settled (Runtime_evaluate client (TextScan (js_string (text o))) p)
            = Thrown error.

(** The value is the one a text probe computed without raising. *)
Definition text_scan_value {P} (client : Driver P) (o : WaitOptions)
    (found : option bool) : Prop :=
  exists p result,
    settled (Runtime_evaluate client (TextScan (js_string (text o))) p) = Normal result /\
    exceptionDetails result = None /\ found = value result.

(** ** Vocabulary of the statements about network idleness *)

(** The clock has passed [startTime], and the variable [cell] holds a time
    not before it. *)
Definition activity_since {P} (startTime : Z) (cell : nat) (w : World P) : Prop :=
  startTime <= now w /\
  exists last, cells w !! cell = Some last /\ startTime <= last.

(** From [w] to [w'] time does not run backwards, and a variable that held
    a time after some instant still does. *)
Definition later {P} (w w' : World P) : Prop :=
  now w <= now w' /\
  forall startTime cell, activity_since startTime cell w ->
                         activity_since startTime cell w'.

(** [ensures m w post]: when the task completes from [w], its completion
    and the world it leaves satisfy [post]. *)
Definition ensures {P A} (m : Task P A) (w : World P)
    (post : Completion A -> World P -> Prop) : Prop :=
  forall r w', m w = Some (r, w') -> post r w'.

(** The flag for network idleness is up only if [idleFor] ms have passed
    since [startTime]. *)
Definition idle_is_earned (idleFor startTime : Z) (c : Conditions) {P} (w : World P)
    : Prop :=
  c_networkIdle c = Some true -> idleFor <= now w - startTime.

(** ** The page along a call *)

(** The page after the driver call an effect stands for; a subscription or
    a line on the console leaves the page alone. *)
Definition page_effect {P} (client : Driver P) (p : P) (e : Effect) : P :=
  match e with
  | CallNetworkEnable => page_after (Network_enable client p)
  | CallNetworkDisable => page_after (Network_disable client p)
  | CallGetDocument => page_after (DOM_getDocument client p)
  | CallQuerySelector nodeId selector =>
      page_after (DOM_querySelector client nodeId selector p)
  | CallEvaluate e => page_after (Runtime_evaluate client e p)
  | Sleep ms => page_after (idle client ms p)
  | Subscribe _ _ | ConsoleError _ => p
  end.

(** The page after the effects [tr], from the page [p]. *)
Definition replay {P} (client : Driver P) (tr : list Effect) (p : P) : P :=
  fold_left (page_effect client) tr p.

(** While the effects [tr] happened from the page [p0], the page was [p]
    at some point. *)
Definition visited {P} (client : Driver P) (p0 : P) (tr : list Effect) (p : P) : Prop :=
  exists before after, tr = before ++ after /\ p = replay client before p0.

(** A DOM query for the requested element found a node in a page visited. *)
Definition element_seen {P} (client : Driver P) (o : WaitOptions)
    (p0 : P) (tr : list Effect) : Prop :=
  exists root p nodeId,
    visited client p0 tr p /\
    settled (DOM_querySelector client root (js_string (element o)) p) = Normal nodeId /\
    node_found nodeId = true.

(** The text probe ran without raising in a page visited, and returned true. *)
Definition text_seen {P} (client : Driver P) (o : WaitOptions)
    (p0 : P) (tr : list Effect) : Prop :=
  exists p result,
    visited client p0 tr p /\
    settled (Runtime_evaluate client (TextScan (js_string (text o))) p) = Normal result /\
    exceptionDetails result = None /\ value result = Some true.

(** The requested pattern matched the URL of a page visited. *)
Definition url_matched {P} (client : Driver P)
    (RegExp_test : string -> string -> Completion bool) (o : WaitOptions)
    (p0 : P) (tr : list Effect) : Prop :=
  exists p result,
    visited client p0 tr p /\
    settled (Runtime_evaluate client LocationHref p) = Normal result /\
    RegExp_test (js_string (url o)) (js_string (value result)) = Normal true.

(** Every flag that is up stands for something a page visited during [tr] showed. *)
Definition observed {P} (client : Driver P)
    (RegExp_test : string -> string -> Completion bool) (o : WaitOptions)
    (p0 : P) (tr : list Effect) (c : Conditions) : Prop :=
  (c_element c = Some true -> element_seen client o p0 tr) /\
  (c_text c = Some true -> text_seen client o p0 tr) /\
  (c_url c = Some true -> url_matched client RegExp_test o p0 tr).

(** The page a task leaves is the one its effects produce from [p0], after
    the effects [hist] that came before it; and [post] holds of them all. *)
Definition tracked {P A} (client : Driver P) (p0 : P) (hist : list Effect)
    (post : Completion A -> list Effect -> Prop)
    : Completion A -> list Effect -> World P -> Prop :=
  fun r tr w' => page w' = replay client (hist ++ tr) p0 /\ post r (hist ++ tr).

(** The effects of [tr] stay within what the request [o] asks for: no DOM
    query without an element, no text scan without a text. *)
Definition within_request (o : WaitOptions) (tr : list Effect) : Prop :=
  (truthy (element o) = false -> never is_dom_query tr) /\
  (truthy (text o) = false -> never is_text_scan tr).

(** ** Strings and JSON, as the validators use them

    A JavaScript string is modelled by the string of its code units, all
    taken below 256 (the Latin-1 range). *)

(** The white space and line terminators [String.prototype.trim] strips,
    in that range: TAB, LF, VT, FF, CR, SPACE and NBSP. *)
Definition is_white_space (c : ascii) : bool :=
  let n := nat_of_ascii c in
  ((9 <=? n) && (n <=? 13) || (n =? 32) || (n =? 160))%nat.

Fixpoint trimStart (s : string) : string :=
  match s with
  | String c rest => if is_white_space c then trimStart rest else s
  | EmptyString => EmptyString
  end.

Fixpoint trimEnd (s : string) : string :=
  match s with
  | String c rest =>
      match trimEnd rest with
      | EmptyString => if is_white_space c then EmptyString else String c EmptyString
      | kept => String c kept
      end
  | EmptyString => EmptyString
  end.

Definition trim (s : string) : string := trimEnd (trimStart s).

(** [!s || s.trim() === ''] *)
Definition is_blank (s : string) : bool :=
  String.eqb s "" || String.eqb (trim s) "".

Fixpoint every (f : ascii -> bool) (s : string) : bool :=
  match s with
  | EmptyString => true
  | String c rest => f c && every f rest
  end.

(** [String.prototype.toLowerCase] on code units below 256: the letters A-Z
    and the accented capitals of Latin-1. *)
Definition lower_unit (c : ascii) : ascii :=
  let n := nat_of_ascii c in
  if ((65 <=? n) && (n <=? 90) || (192 <=? n) && (n <=? 214) ||
      (216 <=? n) && (n <=? 222))%nat
  then ascii_of_nat (n + 32) else c.

Fixpoint lowerCase (s : string) : string :=
  match s with
  | EmptyString => EmptyString
  | String c rest => String (lower_unit c) (lowerCase rest)
  end.

(** [/a|b|c/.test(subject)] for a pattern of literal alternatives. *)
Definition test_alternatives (alternatives : list string) (subject : string) : bool :=
  existsb (fun word => includes word subject) alternatives.

(** [v || ''] for an optional string. *)
Definition or_empty (v : option string) : string :=
  match v with Some s => s | None => "" end.

(** The values of the objects handed to [JSON.stringify]. *)
Inductive JsonValue :=
| JString (s : string)
| JNumber (n : Z)
| JStrings (items : list string).

Definition hex_digit (n : nat) : ascii :=
  nth n (list_ascii_of_string "0123456789abcdef") "0"%char.

(** One code unit inside a JSON string literal (QuoteJSONString). *)
Definition escape_unit (c : ascii) : string :=
  let n := nat_of_ascii c in
  if (n =? 34)%nat then String "\"%char (String c EmptyString)
  else if (n =? 92)%nat then "\\"
  else if (n =? 8)%nat then "\b"
  else if (n =? 9)%nat then "\t"
  else if (n =? 10)%nat then "\n"
  else if (n =? 12)%nat then "\f"
  else if (n =? 13)%nat then "\r"
  else if (n <? 32)%nat then
    "\u00" +:+ String (hex_digit (n / 16)) (String (hex_digit (n mod 16)) EmptyString)
  else String c EmptyString.

Fixpoint escape (s : string) : string :=
  match s with
  | EmptyString => EmptyString
  | String c rest => escape_unit c +:+ escape rest
  end.

Definition double_quote : string := String "034"%char EmptyString.

(** [JSON.stringify] of a string. *)
Definition quoted (s : string) : string :=
  double_quote +:+ escape s +:+ double_quote.

Definition stringify_value (v : JsonValue) : string :=
  match v with
  | JString s => quoted s
  | JNumber n => pretty n
  | JStrings items => "[" +:+ String.concat "," (map quoted items) +:+ "]"
  end.

(** [JSON.stringify] of an object literal: the fields in the order written. *)
Definition JSON_stringify (fields : list (string * JsonValue)) : string :=
  "{" +:+ String.concat ","
            (map (fun field => quoted (fst field) +:+ ":" +:+ stringify_value (snd field))
                 fields)
      +:+ "}".

(** ** ValidationService (src/services/validation-service.ts) *)

(** A JavaScript number: [NaN], an infinity, or a finite number, whole or
    not, given by the rational number it stands for; the comparisons of
    doubles are exact. *)
Inductive JsNumber := NaN | Infinity (negative : bool) | Finite (q : Q).

(** The bracket loop of [validateSelector], lines 30-42: the count after
    the last character, or [None] when line 34 stops the loop. *)
Fixpoint bracketLoop (bracketCount : Z) (selector : string) : option Z :=
  match selector with
  | EmptyString => Some bracketCount
  | String char rest =>
      let bracketCount := if Ascii.eqb char "[" then bracketCount + 1 else bracketCount in
      let bracketCount := if Ascii.eqb char "]" then bracketCount - 1 else bracketCount in
      if bracketCount <? 0 then None else bracketLoop bracketCount rest
  end.

Definition unbalanced_brackets : JsError :=
  Error (JSON_stringify
           [("error", JString "INVALID_SELECTOR"); ("field", JString "selector");
            ("message", JString "Invalid selector syntax: unbalanced brackets");
            ("example", JString "input[type='text']")]).

(** [validateSelector], lines 12-51. *)
Definition validateSelector (selector : string) : Completion unit :=
  if is_blank selector then
    Thrown (Error (JSON_stringify
      [("error", JString "INVALID_SELECTOR"); ("field", JString "selector");
       ("message", JString "Selector cannot be empty");
       ("example", JString "button.primary")]))
  else if (1000 <? String.length selector)%nat then
    Thrown (Error (JSON_stringify
      [("error", JString "INVALID_SELECTOR"); ("field", JString "selector");
       ("message", JString "Selector too long (max 1000 characters)");
       ("length", JNumber (Z.of_nat (String.length selector)))]))
  else
    match bracketLoop 0 selector with
    | None => Thrown unbalanced_brackets
    | Some bracketCount =>
        if bracketCount =? 0 then Normal tt else Thrown unbalanced_brackets
    end.

(** [v < low || v > high]; every comparison with [NaN] is false. *)
Definition outside (low high : Z) (v : JsNumber) : bool :=
  match v with
  | NaN => false
  | Infinity _ => true
  | Finite q => Qltb q (inject_Z low) || Qltb (inject_Z high) q
  end.

Section NumberValidators.

(** [`${v}`]: the text of a number, as the runtime prints it. *)
Variable number_text : JsNumber -> string.

(** [validateTimeout], lines 57-75. *)
Definition validateTimeout (timeout : option JsNumber) (fieldName : string)
    : Completion unit :=
  match timeout with
  | None => Normal tt
  | Some NaN =>
      Thrown (Error (JSON_stringify
        [("error", JString "INVALID_TIMEOUT"); ("field", JString fieldName);
         ("message", JString "Timeout must be a number");
         ("validRange", JString "0-30000")]))
  | Some v =>
      if outside 0 30000 v then
        Thrown (Error (JSON_stringify
          [("error", JString "INVALID_TIMEOUT"); ("field", JString fieldName);
           ("message", JString ("Timeout must be between 0-30000ms, got "
                                +:+ number_text v));
           ("validRange", JString "0-30000")]))
      else Normal tt
  end.

(** [validateDimension], lines 131-149. *)
Definition validateDimension (dimension : option JsNumber) : Completion unit :=
  match dimension with
  | None => Normal tt
  | Some NaN =>
      Thrown (Error (JSON_stringify
        [("error", JString "INVALID_DIMENSION"); ("field", JString "maxDimension");
         ("message", JString "Dimension must be a number");
         ("validRange", JString "100-10000")]))
  | Some v =>
      if outside 100 10000 v then
        Thrown (Error (JSON_stringify
          [("error", JString "INVALID_DIMENSION"); ("field", JString "maxDimension");
           ("message", JString ("Dimension must be between 100-10000px, got "
                                +:+ number_text v));
           ("validRange", JString "100-10000")]))
      else Normal tt
  end.

End NumberValidators.

(** The text of the numbers the scenarios use: whole numbers below 10^21. *)
Definition whole_number_text (v : JsNumber) : string :=
  match v with
  | NaN => "NaN"
  | Infinity negative => if negative then "-Infinity" else "Infinity"
  | Finite q => pretty (Qfloor q)
  end.

(** The class [[a-zA-Z0-9_-]]. *)
Definition is_name_unit (c : ascii) : bool :=
  let n := nat_of_ascii c in
  ((97 <=? n) && (n <=? 122) || (65 <=? n) && (n <=? 90) ||
   (48 <=? n) && (n <=? 57) || (n =? 95) || (n =? 45))%nat.

(** [/^[a-zA-Z0-9_-]+$/.test(property)]: one character of the class or
    more, and nothing else. *)
Definition validPattern_test (property : string) : bool :=
  negb (String.eqb property "") && every is_name_unit property.

(** [validatePropertyName], lines 201-222. *)
Definition validatePropertyName (property : string) : Completion unit :=
  if is_blank property then
    Thrown (Error (JSON_stringify
      [("error", JString "INVALID_PROPERTY"); ("field", JString "property");
       ("message", JString "Property name cannot be empty");
       ("example", JString "value")]))
  else if negb (validPattern_test property) then
    Thrown (Error (JSON_stringify
      [("error", JString "INVALID_PROPERTY"); ("field", JString "property");
       ("message", JString ("Property name contains invalid characters: "
                            +:+ property));
       ("allowedPattern", JString "alphanumeric, underscore, hyphen only");
       ("example", JString "innerText")]))
  else Normal tt.

(** [validateText], lines 155-172. *)
Definition validateText (text : string) : Completion unit :=
  if is_blank text then
    Thrown (Error (JSON_stringify
      [("error", JString "INVALID_TEXT"); ("field", JString "text");
       ("message", JString "Text cannot be empty");
       ("example", JString "Sign In")]))
  else if (1000 <? String.length text)%nat then
    Thrown (Error (JSON_stringify
      [("error", JString "INVALID_TEXT"); ("field", JString "text");
       ("message", JString ("Text too long (max 1000 characters), got "
                            +:+ pretty (String.length text)));
       ("maxLength", JNumber 1000)]))
  else Normal tt.

Definition validRoles : list string :=
  ["button"; "link"; "checkbox"; "radio"; "textbox"; "searchbox";
   "combobox"; "listbox"; "menuitem"; "tab"; "switch"; "slider"].

(** [validateRole], lines 178-195. *)
Definition validateRole (role : option string) : Completion unit :=
  match role with
  | None => Normal tt
  | Some role =>
      if existsb (String.eqb role) validRoles then Normal tt
      else
        Thrown (Error (JSON_stringify
          [("error", JString "INVALID_ROLE"); ("field", JString "role");
           ("message", JString ("Invalid ARIA role: " +:+ role));
           ("validRoles", JStrings validRoles);
           ("example", JString "button")]))
  end.

(** [s.replace(c, '')] for a one-character pattern: the first occurrence
    goes. *)
Fixpoint remove_first (c : ascii) (s : string) : string :=
  match s with
  | EmptyString => EmptyString
  | String c' rest => if Ascii.eqb c' c then rest else String c' (remove_first c rest)
  end.

Definition dangerousSchemes : list string := ["javascript:"; "data:"; "file:"].
Definition allowedSchemes : list string := ["http:"; "https:"].

Section ValidateUrl.

(** [new URL(url).protocol] of the runtime; [None] when the constructor
    throws. *)
Variable URL_protocol : string -> option string.

(** [validateUrl], lines 81-125. *)
Definition validateUrl (url : string) : Completion unit :=
  if is_blank url then
    Thrown (Error (JSON_stringify
      [("error", JString "INVALID_URL"); ("field", JString "url");
       ("message", JString "URL cannot be empty");
       ("allowedSchemes", JStrings ["http"; "https"])]))
  else
    match URL_protocol url with
    | None =>
        Thrown (Error (JSON_stringify
          [("error", JString "INVALID_URL"); ("field", JString "url");
           ("message", JString "Invalid URL format");
           ("allowedSchemes", JStrings ["http"; "https"]);
           ("example", JString "https://example.com")]))
    | Some protocol =>
        let scheme := lowerCase protocol in
        if existsb (String.eqb scheme) dangerousSchemes then
          Thrown (Error (JSON_stringify
            [("error", JString "INVALID_URL"); ("field", JString "url");
             ("message", JString ("Dangerous URL scheme not allowed: "
                                  +:+ remove_first ":" scheme));
             ("allowedSchemes", JStrings ["http"; "https"])]))
        else if negb (existsb (String.eqb scheme) allowedSchemes) then
          Thrown (Error (JSON_stringify
            [("error", JString "INVALID_URL"); ("field", JString "url");
             ("message", JString ("URL scheme not allowed: "
                                  +:+ remove_first ":" scheme));
             ("allowedSchemes", JStrings ["http"; "https"])]))
        else Normal tt
    end.

End ValidateUrl.

(** The function declaration [getProperty] of the text interaction service
    hands to [Runtime.callFunctionOn] for a validated property. *)
Definition property_reader (property : string) : string :=
  "function() { return this[" +:+ quoted property +:+ "]; }".

(** How often a character occurs. *)
Fixpoint occurrences (c : ascii) (s : string) : nat :=
  match s with
  | EmptyString => O
  | String c' rest => ((if Ascii.eqb c' c then 1 else 0) + occurrences c rest)%nat
  end.

(** No prefix closes more brackets than it has opened, and in the end
    every bracket is closed. *)
Definition brackets_balanced (s : string) : Prop :=
  (forall p q, s = p +:+ q -> (occurrences "]" p <= occurrences "[" p)%nat) /\
  occurrences "[" s = occurrences "]" s.

(** Brackets opened and not yet closed. *)
Definition depth (s : string) : Z :=
  Z.of_nat (occurrences "[" s) - Z.of_nat (occurrences "]" s).

(** What one character does to the count of the loop. *)
Definition step_depth (c : ascii) (k : Z) : Z :=
  let k := if Ascii.eqb c "[" then k + 1 else k in
  if Ascii.eqb c "]" then k - 1 else k.

(** ** Screenshot dimensions (src/services/screenshot-service.ts, lines 92-112)

    Numbers are exact rationals. *)

(** [Math.round]: the nearest integer, halves rounded up. *)
Definition Math_round (v : Q) : Q := inject_Z (Qfloor (v + (1#2))).

Record Dimensions := mkDimensions { dim_width : Q; dim_height : Q }.

(** [calculateOptimalDimensions], lines 92-112. *)
Definition calculateOptimalDimensions (width height maxDimension : Q) : Dimensions :=
  if Qle_bool width maxDimension && Qle_bool height maxDimension then
    {| dim_width := width; dim_height := height |}
  else
    let ratio := (width / height)%Q in
    if Qltb height width then
      {| dim_width := maxDimension;
         dim_height := Math_round (maxDimension / ratio) |}
    else
      {| dim_width := Math_round (maxDimension * ratio);
         dim_height := maxDimension |}.

(** ** Sensitive form fields (src/chrome-controller.ts, lines 300-323) *)

Record FormField := mkFormField {
  field_type : string;
  field_name : option string;
  field_id : option string;
  field_autocomplete : option string
}.

(** The alternatives of [/ssn|social|cvv|pin|password/]. *)
Definition sensitive_names : list string :=
  ["ssn"; "social"; "cvv"; "pin"; "password"].

(** The alternatives of [/cc-number|cc-csc|cvv|credit-card/]. *)
Definition sensitive_autocompletes : list string :=
  ["cc-number"; "cc-csc"; "cvv"; "credit-card"].

(** [isSensitiveField], lines 300-323. *)
Definition isSensitiveField (field : FormField) : bool :=
  if String.eqb (field_type field) "password" then true
  else
    let nameId := lowerCase (or_empty (field_name field) +:+ or_empty (field_id field)) in
    if test_alternatives sensitive_names nameId then true
    else if truthy (field_autocomplete field) &&
            test_alternatives sensitive_autocompletes (or_empty (field_autocomplete field))
    then true
    else false.

(** ** Locating the browser (src/chrome-controller.ts, lines 15-49) *)

Record Host := mkHost {
  platform : string;                 (* process.platform *)
  env : string -> option string;     (* process.env *)
  existsSync : string -> bool
}.

(** [chromiumPaths[platform] || []]; an unset variable is concatenated as
    "undefined". *)
Definition chromiumPaths (host : Host) : list string :=
  if String.eqb (platform host) "darwin" then
    ["/Applications/Chromium.app/Contents/MacOS/Chromium";
     js_string (env host "HOME") +:+ "/Applications/Chromium.app/Contents/MacOS/Chromium"]
  else if String.eqb (platform host) "linux" then
    ["/usr/bin/chromium"; "/usr/bin/chromium-browser"; "/snap/bin/chromium"]
  else if String.eqb (platform host) "win32" then
    [js_string (env host "LOCALAPPDATA") +:+ "\Chromium\Application\chrome.exe";
     js_string (env host "PROGRAMFILES") +:+ "\Chromium\Application\chrome.exe";
     js_string (env host "PROGRAMFILES(X86)") +:+ "\Chromium\Application\chrome.exe"]
  else [].

(** [findChromiumPath], lines 15-49. *)
Definition findChromiumPath (host : Host) : option string :=
  if truthy (env host "CHROMIUM_PATH") &&
     existsSync host (or_empty (env host "CHROMIUM_PATH"))
  then env host "CHROMIUM_PATH"
  else
    List.find (fun path => negb (String.eqb path "") && existsSync host path)
              (chromiumPaths host).

(** ** ChromeController: the handle a reconnection leaves *)

(** The body of the loop of [ensureConnected], lines 128-138: [true] when
    it returned from the call. *)
Definition attempt_body {B} (chrome : Launcher B) (attempt : nat)
    : Async (Session B) bool :=
  try_catch
    (connect chrome ;;;
     note SayReconnected ;;;
     set_reconnecting false ;;;
     ret true)
    (fun error =>
       note (SayAttemptFailed attempt error) ;;;
       (if (attempt <? MAX_RECONNECTION_RETRIES)%nat
        then backoff chrome RECONNECTION_RETRY_DELAY_MS else ret tt) ;;;
       ret false).

(** A browser that accepts the connection and then refuses to enable the
    domains. *)
Definition half_open_chrome : Launcher unit :=
  {| attach := fun b => mkTurn (Normal tt) b 1 false;
     enable_domains := fun b => mkTurn (Thrown (Error "Target closed")) b 1 false;
     pause := fun ms b => mkTurn (Normal tt) b (Z.to_N ms) false |}.

(** ** MessageDetectionService (src/services/message-detection-service.ts) *)

Inductive MessageType := Toast | Banner | FieldError | Modal | Console.

Inductive Severity := SeverityError | SeverityWarning | SeveritySuccess | SeverityInfo.

Definition MessageType_eqb (a b : MessageType) : bool :=
  match a, b with
  | Toast, Toast | Banner, Banner | FieldError, FieldError
  | Modal, Modal | Console, Console => true
  | _, _ => false
  end.

Definition Severity_eqb (a b : Severity) : bool :=
  match a, b with
  | SeverityError, SeverityError | SeverityWarning, SeverityWarning
  | SeveritySuccess, SeveritySuccess | SeverityInfo, SeverityInfo => true
  | _, _ => false
  end.

Record UIMessage := mkUIMessage {
  message_type : MessageType;
  message_text : string;
  message_severity : Severity;
  message_selector : string;
  message_timestamp : option Z
}.

(** The two scripts the service evaluates in the page. *)
Inductive MessageScript :=
| ExtractScript      (* extractScript of extractMessages *)
| ConsoleScript.     (* consoleScript of extractConsoleErrors *)

(** The client, as this service uses it. *)
Record MessageClient (P : Type) := mkMessageClient {
  evaluate_messages : MessageScript -> P -> Reply P (Evaluation (list UIMessage));
  between_checks : Z -> P -> Reply P unit    (* the page during a setTimeout *)
}.
Arguments evaluate_messages {P} _.
Arguments between_checks {P} _.

(** The page, the clock and the scripts evaluated so far. *)
Record Desk (P : Type) := mkDesk {
  desk_page : P;
  desk_now : Z;
  desk_calls : list MessageScript
}.
Arguments mkDesk {P} desk_page desk_now desk_calls.
Arguments desk_page {P} _.
Arguments desk_now {P} _.
Arguments desk_calls {P} _.

(** The time one suspension takes. *)
Definition duration {P A} (r : Reply P A) : Z :=
  Z.of_N (fold_right N.add (rest r) (map fst (heard r))).

Record MessageOptions := mkMessageOptions {
  wanted_text : option string;
  wanted_type : option MessageType;
  wanted_severity : option Severity;
  wanted_timeout : option Z
}.

(** The callback of [messages.find] in [waitForMessage]. *)
Definition matches (options : MessageOptions) (msg : UIMessage) : bool :=
  if truthy (wanted_text options) &&
     negb (includes (lowerCase (or_empty (wanted_text options)))
                    (lowerCase (message_text msg)))
  then false
  else if match wanted_type options with
          | Some type => negb (MessageType_eqb (message_type msg) type)
          | None => false
          end
  then false
  else if match wanted_severity options with
          | Some severity => negb (Severity_eqb (message_severity msg) severity)
          | None => false
          end
  then false
  else true.

Section MessageDetectionService.
Context {P : Type} (client : MessageClient P).

(** [await this.client.Runtime.evaluate(...)] of one of the two scripts. *)
Definition evaluate (script : MessageScript)
    : Async (Desk P) (Evaluation (list UIMessage)) :=
  fun d =>
    let r := evaluate_messages client script (desk_page d) in
    Some (settled r,
          mkDesk (page_after r) (desk_now d + duration r) (desk_calls d ++ [script])).

(** [await new Promise(resolve => setTimeout(resolve, ms))]; read on
    [Date.now()] the timer may fire a millisecond early, as in [sleep]. *)
Definition pause_for (ms : Z) : Async (Desk P) unit :=
  fun d =>
    let r := between_checks client ms (desk_page d) in
    Some (Normal tt,
          mkDesk (page_after r)
                 (Z.max (desk_now d + duration r) (desk_now d + ms - TIMER_EARLY_MS))
                 (desk_calls d)).

Definition desk_clock : Async (Desk P) Z := fun d => Some (Normal (desk_now d), d).

(** [extractConsoleErrors]. *)
Definition extractConsoleErrors : Async (Desk P) (list UIMessage) :=
  try_catch
    (result <- evaluate ConsoleScript ;;
     ret (default [] (value result)))
    (fun _ => ret []).

(** [extractMessages]. *)
Definition extractMessages : Async (Desk P) (list UIMessage) :=
  try_catch
    (result <- evaluate ExtractScript ;;
     match exceptionDetails result with
     | Some details => throw (Error ("Failed to extract messages: " +:+ details))
     | None =>
         let messages := default [] (value result) in
         consoleMessages <- extractConsoleErrors ;;
         ret (messages ++ consoleMessages)
     end)
    (fun error => throw (Error ("Message extraction failed: " +:+ render error))).

(** The loop of [waitForMessage]. *)
Fixpoint pollMessages (fuel : nat) (options : MessageOptions) (startTime timeout : Z)
    : Async (Desk P) (option UIMessage) :=
  match fuel with
  | O => out_of_fuel
  | S fuel' =>
      t <- desk_clock ;;
      if t - startTime <? timeout then
        messages <- extractMessages ;;
        match List.find (matches options) messages with
        | Some found => ret (Some found)
        | None =>
            pause_for 100 ;;;
            pollMessages fuel' options startTime timeout
        end
      else ret None
  end.

(** A pass that does not return sleeps for 100 ms, which takes 99 ms at
    least. *)
Definition pollMessages_bound (timeout : Z) : nat := Z.to_nat (timeout / 99) + 2.

(** [waitForMessage]; the default of [timeout] applies when it is left out. *)
Definition waitForMessage (options : MessageOptions)
    : Async (Desk P) (option UIMessage) :=
  let timeout := default 5000 (wanted_timeout options) in
  startTime <- desk_clock ;;
  pollMessages (pollMessages_bound timeout) options startTime timeout.

(** What the console script contributes: nothing when it cannot be run. *)
Definition console_part (p : P) : list UIMessage :=
  match settled (evaluate_messages client ConsoleScript p) with
  | Normal result => default [] (value result)
  | Thrown _ => []
  end.

(** What a completion of the loop says: a message found is the first one
    of the last extraction that passes the filters. *)
Definition message_verdict (options : MessageOptions) (startTime timeout : Z)
    (r : Completion (option UIMessage)) (d' : Desk P) : Prop :=
  match r with
  | Normal (Some found) =>
      exists d0 messages,
        extractMessages d0 = Some (Normal messages, d') /\
        List.find (matches options) messages = Some found
  | Normal None => timeout <= desk_now d' - startTime
  | Thrown error => exists cause, error = Error ("Message extraction failed: " +:+ cause)
  end.

End MessageDetectionService.

(** A page that shows one toast, and a request that does not wait. *)
Definition saved_toast : UIMessage :=
  mkUIMessage Toast "Changes Saved" SeveritySuccess "div.toast" None.

Definition toast_client : MessageClient unit :=
  {| evaluate_messages := fun script p =>
       mkReply (Normal (mkEvaluation
                          (match script with
                           | ExtractScript => Some [saved_toast]
                           | ConsoleScript => Some []
                           end) None))
               p [] 2;
     between_checks := fun ms p => mkReply (Normal tt) p [] (Z.to_N ms) |}.

Definition desk_at (t : Z) : Desk unit := mkDesk tt t [].

Definition saved_at_once : MessageOptions :=
  mkMessageOptions (Some "saved") None None (Some 0).

(** * Properties

    ** Reasoning about tasks *)

Lemma only_app f tr1 tr2 : only f tr1 -> only f tr2 -> only f (tr1 ++ tr2).
Proof.
  unfold only. intros H1 H2. rewrite forallb_app, H1, H2. reflexivity.
Qed.

Lemma never_app f tr1 tr2 : never f tr1 -> never f tr2 -> never f (tr1 ++ tr2).
Proof.
  unfold never. intros H1 H2. rewrite forallb_app, H1, H2. reflexivity.
Qed.

Lemma only_weaken (f g : Effect -> bool) tr :
  (forall e, f e = true -> g e = true) -> only f tr -> only g tr.
Proof.
  unfold only. intros Hfg. induction tr as [|e tr IH]; simpl; [reflexivity|].
  intros H. apply andb_prop in H as [He Htr].
  rewrite (Hfg e He). simpl. auto.
Qed.

Lemma only_never (f g : Effect -> bool) tr :
  (forall e, f e = true -> g e = false) -> only f tr -> never g tr.
Proof.
  unfold only, never. intros Hfg. induction tr as [|e tr IH]; simpl; [reflexivity|].
  intros H. apply andb_prop in H as [He Htr].
  rewrite (Hfg e He). simpl. auto.
Qed.

Lemma count_effects_app f tr1 tr2 :
  count_effects f (tr1 ++ tr2) = (count_effects f tr1 + count_effects f tr2)%nat.
Proof.
  unfold count_effects. rewrite List.filter_app, length_app. reflexivity.
Qed.

Lemma never_count f tr : never f tr -> count_effects f tr = 0%nat.
Proof.
  unfold never, count_effects. induction tr as [|e tr IH]; simpl; [reflexivity|].
  intros H. apply andb_prop in H as [He Htr].
  destruct (f e); [discriminate|]. auto.
Qed.

Lemma subscriptions_app tr1 tr2 :
  subscriptions (tr1 ++ tr2) = subscriptions tr1 ++ subscriptions tr2.
Proof.
  induction tr1 as [|e tr1 IH]; simpl; [reflexivity|].
  destruct e; simpl; rewrite ?IH; reflexivity.
Qed.

Lemma only_probe_no_subscriptions tr : only is_probe tr -> subscriptions tr = [].
Proof.
  unfold only. induction tr as [|e tr IH]; simpl; [reflexivity|].
  intros H. apply andb_prop in H as [He Htr].
  destruct e; simpl in *; try discriminate; auto.
Qed.

Lemma fire_length ls ev t cs : length (fire ls ev t cs) = length cs.
Proof.
  unfold fire. revert cs. induction ls as [|l ls IH]; intros cs; simpl; [reflexivity|].
  rewrite IH. destruct (NetEvent_eqb (fst l) ev); [apply length_insert|reflexivity].
Qed.

Lemma deliver_spec ls t evs cs :
  t <= fst (deliver ls t evs cs) /\ length (snd (deliver ls t evs cs)) = length cs.
Proof.
  revert t cs. induction evs as [|[gap ev] evs IH]; intros t cs; simpl.
  - split; [lia|reflexivity].
  - destruct (IH (t + Z.of_N gap) (fire ls ev (t + Z.of_N gap) cs)) as [Ht Hl].
    rewrite Hl, fire_length. split; [lia|reflexivity].
Qed.

Section TaskLogic.
Context {P : Type}.
Implicit Types w : World P.

Lemma evolves_refl w : evolves w w [].
Proof.
  unfold evolves. simpl. rewrite !app_nil_r. repeat split; lia.
Qed.

Lemma evolves_trans w1 w2 w3 tr1 tr2 :
  evolves w1 w2 tr1 -> evolves w2 w3 tr2 -> evolves w1 w3 (tr1 ++ tr2).
Proof.
  intros (Ht1 & Hl1 & Hn1 & Hc1) (Ht2 & Hl2 & Hn2 & Hc2).
  unfold evolves. rewrite Ht2, Ht1, Hl2, Hl1, subscriptions_app, <- !app_assoc.
  repeat split; lia.
Qed.

Lemma runs_mono {A} (m : Task P A) w (post post' : _ -> _ -> _ -> Prop) :
  runs m w post ->
  (forall c tr w', evolves w w' tr -> post c tr w' -> post' c tr w') ->
  runs m w post'.
Proof.
  intros (c & w' & tr & Hm & Hev & Hp) Himp.
  exists c, w', tr. auto.
Qed.

(** A task is a function of the world: two facts about the same run hold
    of the same completion. *)
Lemma runs_conj {A} (m : Task P A) w (post post' : _ -> _ -> _ -> Prop) :
  runs m w post -> runs m w post' ->
  runs m w (fun c tr w' => post c tr w' /\ post' c tr w').
Proof.
  intros (c & w' & tr & Hm & Hev & Hp) (c2 & w2 & tr2 & Hm2 & Hev2 & Hp2).
  rewrite Hm in Hm2. injection Hm2 as <- <-.
  destruct Hev as (Ht & Hev'), Hev2 as (Ht2 & _).
  rewrite Ht in Ht2. apply app_inv_head in Ht2 as <-.
  exists c, w', tr. unfold evolves. auto.
Qed.

Lemma runs_ret {A} (a : A) w (post : _ -> _ -> _ -> Prop) :
  post (Normal a) [] w -> runs (ret a) w post.
Proof.
  intros Hp. exists (Normal a), w, []. split; [reflexivity|].
  split; [apply evolves_refl|exact Hp].
Qed.

Lemma runs_throw {A} (e : JsError) w (post : Completion A -> _ -> _ -> Prop) :
  post (Thrown e) [] w -> runs (throw e) w post.
Proof.
  intros Hp. exists (Thrown e), w, []. split; [reflexivity|].
  split; [apply evolves_refl|exact Hp].
Qed.

Lemma runs_bind {A B} (m : Task P A) (k : A -> Task P B) w
    (post : Completion B -> _ -> _ -> Prop) :
  runs m w (fun c tr1 w1 =>
              match c with
              | Normal a => runs (k a) w1 (fun c2 tr2 w2 => post c2 (tr1 ++ tr2) w2)
              | Thrown e => post (Thrown e) tr1 w1
              end) ->
  runs (bind m k) w post.
Proof.
  intros (c & w1 & tr1 & Hm & Hev & Hp). unfold runs, bind. rewrite Hm.
  destruct c as [a|e].
  - destruct Hp as (c2 & w2 & tr2 & Hk & Hev2 & Hp2).
    exists c2, w2, (tr1 ++ tr2). split; [exact Hk|].
    split; [eapply evolves_trans; eauto|exact Hp2].
  - exists (Thrown e), w1, tr1. auto.
Qed.

Lemma runs_try_catch {A} (m : Task P A) (handler : JsError -> Task P A) w
    (post : Completion A -> _ -> _ -> Prop) :
  runs m w (fun c tr1 w1 =>
              match c with
              | Normal a => post (Normal a) tr1 w1
              | Thrown e =>
                  runs (handler e) w1 (fun c2 tr2 w2 => post c2 (tr1 ++ tr2) w2)
              end) ->
  runs (try_catch m handler) w post.
Proof.
  intros (c & w1 & tr1 & Hm & Hev & Hp). unfold runs, try_catch. rewrite Hm.
  destruct c as [a|e].
  - exists (Normal a), w1, tr1. auto.
  - destruct Hp as (c2 & w2 & tr2 & Hk & Hev2 & Hp2).
    exists c2, w2, (tr1 ++ tr2). split; [exact Hk|].
    split; [eapply evolves_trans; eauto|exact Hp2].
Qed.

Lemma runs_try_finally {A} (m : Task P A) (cleanup : Task P unit) w
    (post : Completion A -> _ -> _ -> Prop) :
  runs m w (fun c tr1 w1 =>
              runs cleanup w1 (fun c2 tr2 w2 =>
                match c2 with
                | Normal _ => post c (tr1 ++ tr2) w2
                | Thrown e => post (Thrown e) (tr1 ++ tr2) w2
                end)) ->
  runs (try_finally m cleanup) w post.
Proof.
  intros (c & w1 & tr1 & Hm & Hev & (c2 & w2 & tr2 & Hk & Hev2 & Hp2)).
  unfold runs, try_finally. rewrite Hm, Hk.
  destruct c2 as [[]|e].
  - exists c, w2, (tr1 ++ tr2). split; [reflexivity|].
    split; [eapply evolves_trans; eauto|exact Hp2].
  - exists (Thrown e), w2, (tr1 ++ tr2). split; [reflexivity|].
    split; [eapply evolves_trans; eauto|exact Hp2].
Qed.

Lemma runs_Date_now w (post : Completion Z -> _ -> _ -> Prop) :
  post (Normal (now w)) [] w -> runs Date_now w post.
Proof.
  intros Hp. exists (Normal (now w)), w, []. split; [reflexivity|].
  split; [apply evolves_refl|exact Hp].
Qed.

Lemma runs_read_cell c w (post : Completion Z -> _ -> _ -> Prop) :
  post (Normal (default 0 (cells w !! c))) [] w -> runs (read_cell c) w post.
Proof.
  intros Hp. eexists _, w, []. split; [reflexivity|].
  split; [apply evolves_refl|exact Hp].
Qed.

Lemma runs_new_cell t w (post : Completion nat -> _ -> _ -> Prop) :
  (forall w', page w' = page w -> now w' = now w -> post (Normal (length (cells w))) [] w') ->
  runs (new_cell t) w post.
Proof.
  intros Hp. eexists _, _, []. split; [reflexivity|]. split.
  - unfold evolves. simpl. rewrite !app_nil_r, length_app. simpl.
    repeat split; lia.
  - apply Hp; reflexivity.
Qed.

Lemma runs_log e w (post : Completion unit -> _ -> _ -> Prop) :
  (forall ev c, e <> Subscribe ev c) ->
  (forall w', page w' = page w -> now w' = now w -> post (Normal tt) [e] w') ->
  runs (log e) w post.
Proof.
  intros He Hp. eexists _, _, [e]. split; [reflexivity|]. split.
  - unfold evolves. simpl.
    destruct e; try (exfalso; eapply He; reflexivity);
      simpl; rewrite ?app_nil_r; repeat split; lia.
  - apply Hp; reflexivity.
Qed.

Lemma runs_subscribe ev c w (post : Completion unit -> _ -> _ -> Prop) :
  (forall w', page w' = page w -> now w' = now w ->
              post (Normal tt) [Subscribe ev c] w') ->
  runs (subscribe ev c) w post.
Proof.
  intros Hp. eexists _, _, [Subscribe ev c]. split; [reflexivity|]. split.
  - unfold evolves. simpl. repeat split; lia.
  - apply Hp; reflexivity.
Qed.

(** An awaited driver call: whatever the driver answers, the task goes on
    from the page the call left. *)
Lemma runs_await {A} (what : Effect) (call : P -> Reply P A) w
    (post : Completion A -> _ -> _ -> Prop) :
  (forall ev c, what <> Subscribe ev c) ->
  (forall w', page w' = page_after (call (page w)) ->
              now w <= now w' ->
              now w' = fst (deliver (listeners w) (now w) (heard (call (page w)))
                                    (cells w)) + Z.of_N (rest (call (page w))) ->
              post (settled (call (page w))) [what] w') ->
  runs (await what call) w post.
Proof.
  intros Hw Hp. unfold runs, await.
  destruct (deliver (listeners w) (now w) (heard (call (page w))) (cells w))
    as [t cs] eqn:Hd.
  pose proof (deliver_spec (listeners w) (now w) (heard (call (page w))) (cells w))
    as [Ht Hl]. rewrite Hd in Ht, Hl. simpl in Ht, Hl.
  eexists _, _, [what]. split; [reflexivity|]. split.
  - unfold evolves. simpl.
    destruct what; try (exfalso; eapply Hw; reflexivity);
      simpl; rewrite ?app_nil_r; repeat split; lia.
  - apply Hp; simpl; [reflexivity|lia|reflexivity].
Qed.

Lemma runs_sleep (client : Driver P) ms w (post : Completion unit -> _ -> _ -> Prop) :
  (forall w', page w' = page_after (idle client ms (page w)) ->
              now w + ms - TIMER_EARLY_MS <= now w' -> now w <= now w' ->
              post (Normal tt) [Sleep ms] w') ->
  runs (sleep client ms) w post.
Proof.
  intros Hp. unfold runs, sleep, await.
  destruct (deliver (listeners w) (now w) (heard (idle client ms (page w))) (cells w))
    as [t cs] eqn:Hd.
  pose proof (deliver_spec (listeners w) (now w)
                (heard (idle client ms (page w))) (cells w)) as [Ht Hl].
  rewrite Hd in Ht, Hl. simpl in Ht, Hl.
  eexists _, _, [Sleep ms]. split; [reflexivity|]. split.
  - unfold evolves. simpl. rewrite ?app_nil_r. repeat split; lia.
  - apply Hp; simpl; [reflexivity|lia|lia].
Qed.

End TaskLogic.

(** Computation rules of the monad. *)

Lemma bind_normal {S A B} (m : Async S A) (k : A -> Async S B) s a s1 :
  m s = Some (Normal a, s1) -> bind m k s = k a s1.
Proof. intros H. unfold bind. rewrite H. reflexivity. Qed.

Lemma bind_thrown {S A B} (m : Async S A) (k : A -> Async S B) s e s1 :
  m s = Some (Thrown e, s1) -> bind m k s = Some (Thrown e, s1).
Proof. intros H. unfold bind. rewrite H. reflexivity. Qed.

Lemma try_catch_normal {S A} (m : Async S A) handler s a s1 :
  m s = Some (Normal a, s1) -> try_catch m handler s = Some (Normal a, s1).
Proof. intros H. unfold try_catch. rewrite H. reflexivity. Qed.

Lemma try_catch_thrown {S A} (m : Async S A) handler s e s1 :
  m s = Some (Thrown e, s1) -> try_catch m handler s = handler e s1.
Proof. intros H. unfold try_catch. rewrite H. reflexivity. Qed.

(** One step of symbolic execution of a task. *)
Ltac run_step :=
  lazymatch goal with
  | |- runs (bind _ _) _ _ => apply runs_bind
  | |- runs (ret _) _ _ => apply runs_ret
  | |- runs (throw _) _ _ => apply runs_throw
  | |- runs (try_catch _ _) _ _ => apply runs_try_catch
  | |- runs (try_finally _ _) _ _ => apply runs_try_finally
  | |- runs Date_now _ _ => apply runs_Date_now
  | |- runs (read_cell _) _ _ => apply runs_read_cell
  | |- runs (new_cell _) _ _ =>
      apply runs_new_cell; intros ? ? ?
  | |- runs (subscribe _ _) _ _ =>
      apply runs_subscribe; intros ? ? ?
  | |- runs (sleep _ _) _ _ =>
      apply runs_sleep; intros ? ? ? ?
  | |- runs (await _ _) _ _ =>
      apply runs_await; [discriminate|intros ? ? ? ?]
  | |- runs (log _) _ _ =>
      apply runs_log; [discriminate|intros ? ? ?]
  end.


(** Symbolic execution up to the next choice that needs an argument. *)
Ltac run :=
  repeat first
    [ run_step
    | progress cbv beta
    | match goal with
      | |- match ?c with Normal _ => _ | Thrown _ => _ end =>
          let H := fresh "Hsettled" in destruct c eqn:H
      end ].

(** ** Classes of effects *)

Lemma dom_query_is_probe e : is_dom_query e = true -> is_probe e = true.
Proof. destruct e; simpl; congruence. Qed.

Lemma text_scan_is_probe e : is_text_scan e = true -> is_probe e = true.
Proof. destruct e as [| | | |A e| | |]; simpl; try congruence. Qed.

Lemma href_read_is_probe e : is_href_read e = true -> is_probe e = true.
Proof. destruct e as [| | | |A e| | |]; simpl; try congruence. Qed.

Lemma dom_query_not_text_scan e : is_dom_query e = true -> is_text_scan e = false.
Proof. destruct e; simpl; congruence. Qed.

Lemma dom_query_not_href_read e : is_dom_query e = true -> is_href_read e = false.
Proof. destruct e; simpl; congruence. Qed.

Lemma dom_query_not_sleep e : is_dom_query e = true -> is_sleep e = false.
Proof. destruct e; simpl; congruence. Qed.

Lemma text_scan_not_dom_query e : is_text_scan e = true -> is_dom_query e = false.
Proof. destruct e; simpl; congruence. Qed.

Lemma text_scan_not_href_read e : is_text_scan e = true -> is_href_read e = false.
Proof. destruct e as [| | | |A e| | |]; simpl; try congruence. destruct e; congruence. Qed.

Lemma text_scan_not_sleep e : is_text_scan e = true -> is_sleep e = false.
Proof. destruct e; simpl; congruence. Qed.

Lemma href_read_not_dom_query e : is_href_read e = true -> is_dom_query e = false.
Proof. destruct e; simpl; congruence. Qed.

Lemma href_read_not_text_scan e : is_href_read e = true -> is_text_scan e = false.
Proof. destruct e as [| | | |A e| | |]; simpl; try congruence. destruct e; congruence. Qed.

Lemma href_read_not_sleep e : is_href_read e = true -> is_sleep e = false.
Proof. destruct e; simpl; congruence. Qed.

Lemma probe_not_disable e : is_probe e = true -> is_disable e = false.
Proof. destruct e; simpl; congruence. Qed.

Create HintDb traces.

#[global] Hint Resolve only_weaken only_never
  dom_query_is_probe text_scan_is_probe href_read_is_probe
  dom_query_not_text_scan dom_query_not_href_read dom_query_not_sleep
  text_scan_not_dom_query text_scan_not_href_read text_scan_not_sleep
  href_read_not_dom_query href_read_not_text_scan href_read_not_sleep
  probe_not_disable : traces.

(** The class of a trace, from the classes of its parts. *)
Ltac trace_class :=
  rewrite ?app_nil_r;
  repeat match goal with
    | |- only _ (_ ++ _) => apply only_app
    | |- never _ (_ ++ _) => apply never_app
    | |- only _ [_] => reflexivity
    | |- never _ [_] => reflexivity
    | |- only _ [] => reflexivity
    | |- never _ [] => reflexivity
    end;
  eauto with traces.

(** ** WaitService *)

(** One turn of the loop. *)
Lemma poll_S {P} (client : Driver P) RegExp_test fuel o startTime timeout cell c :
  poll client RegExp_test (S fuel) o startTime timeout cell c =
  (t <- Date_now ;;
   if t - startTime <? timeout then
     c <- checkConditions client RegExp_test o cell c ;;
     if allConditionsMet c then report client o startTime true c
     else
       sleep client WAIT_CHECK_INTERVAL_MS ;;;
       poll client RegExp_test fuel o startTime timeout cell c
   else report client o startTime false c).
Proof. reflexivity. Qed.

Section WaitServiceFacts.
Context {P : Type} (client : Driver P).
Variable RegExp_test : string -> string -> Completion bool.
Implicit Types (w : World P) (o : WaitOptions) (c : Conditions).

Lemma latched_refl c : latched c c.
Proof. unfold latched. tauto. Qed.

Lemma latched_trans c1 c2 c3 : latched c1 c2 -> latched c2 c3 -> latched c1 c3.
Proof. unfold latched. tauto. Qed.

Lemma shaped_initial o : shaped o (initial_conditions o).
Proof.
  unfold shaped, initial_conditions. simpl.
  destruct (truthy (element o)), (truthy (text o)), (truthy (url o)),
    (networkIdle o); repeat split; intros; congruence.
Qed.

(** The DOM query inside its [try]/[catch] always yields a boolean. *)
Lemma guarded_query_runs selector w :
  runs (try_catch (queryElement client selector) (fun _ => ret false)) w
       (fun r tr _ => only is_dom_query tr /\ exists found, r = Normal found).
Proof.
  unfold queryElement. run; simpl; split; try reflexivity; eauto.
Qed.

Lemma checkElement_runs o c w :
  runs (checkElement client o c) w
       (fun r tr _ =>
          only is_dom_query tr /\
          (c_element c = Some true -> tr = []) /\
          exists c', r = Normal c' /\ latched c c' /\
                     (shaped o c -> shaped o c')).
Proof.
  unfold checkElement.
  destruct (truthy (element o)) eqn:He; simpl.
  - destruct (c_element c) as [[|]|] eqn:Hc; simpl.
    + run. simpl. repeat split; eauto using latched_refl.
    + run_step. eapply runs_mono; [apply guarded_query_runs|].
      intros r tr w' _ [Hq [found ->]]. run. rewrite app_nil_r.
      split; [exact Hq|]. split; [discriminate|].
      eexists; split; [reflexivity|]. split.
      * unfold latched. simpl. rewrite Hc. repeat split; congruence.
      * unfold shaped. simpl. rewrite Hc, He. intros (H1 & H2 & H3 & H4).
        repeat split; auto; try congruence; try apply H2; try apply H3; try apply H4.
    + run_step. eapply runs_mono; [apply guarded_query_runs|].
      intros r tr w' _ [Hq [found ->]]. run. rewrite app_nil_r.
      split; [exact Hq|]. split; [discriminate|].
      eexists; split; [reflexivity|]. split.
      * unfold latched. simpl. rewrite Hc. repeat split; congruence.
      * unfold shaped. simpl. rewrite Hc, He. intros (H1 & H2 & H3 & H4).
        repeat split; auto; try congruence; try apply H2; try apply H3; try apply H4.
  - run. simpl. repeat split; eauto using latched_refl.
Qed.

Lemma flags_kept o c c' :
  Normal c = Normal c' -> latched c c' /\ (shaped o c -> shaped o c').
Proof.
  intros [= <-]. split; [apply latched_refl|tauto].
Qed.

Lemma text_flag_set o c :
  truthy (text o) = true ->
  let c' := {| c_element := c_element c; c_text := Some true; c_url := c_url c;
               c_networkIdle := c_networkIdle c |} in
  latched c c' /\ (shaped o c -> shaped o c').
Proof.
  intros He c'. subst c'. unfold latched, shaped. simpl. rewrite He.
  intuition congruence.
Qed.

Lemma url_flag_set o c :
  truthy (url o) = true ->
  let c' := {| c_element := c_element c; c_text := c_text c; c_url := Some true;
               c_networkIdle := c_networkIdle c |} in
  latched c c' /\ (shaped o c -> shaped o c').
Proof.
  intros He c'. subst c'. unfold latched, shaped. simpl. rewrite He.
  intuition congruence.
Qed.

Lemma networkIdle_flag_set o c idleFor :
  networkIdle o = Some idleFor ->
  let c' := {| c_element := c_element c; c_text := c_text c; c_url := c_url c;
               c_networkIdle := Some true |} in
  latched c c' /\ (shaped o c -> shaped o c').
Proof.
  intros He c'. subst c'. unfold latched, shaped. simpl. rewrite He.
  intuition congruence.
Qed.

Lemma checkText_runs o c w :
  runs (checkText client o c) w
       (fun r tr _ =>
          only is_text_scan tr /\
          (c_text c = Some true -> tr = []) /\
          forall c', r = Normal c' -> latched c c' /\ (shaped o c -> shaped o c')).
Proof.
  unfold checkText.
  destruct (truthy (text o)) eqn:He; simpl.
  - destruct (unmet (c_text c)) eqn:Hc.
    + assert (c_text c <> Some true) as Hne
        by (intros E; rewrite E in Hc; discriminate).
      run.
      * destruct (exceptionDetails a); [|destruct (value a) as [[|]|]]; run;
          simpl; (split; [reflexivity|]); (split; [tauto|]);
          try discriminate; try apply flags_kept.
        intros c' [= <-]. apply text_flag_set, He.
      * simpl. split; [reflexivity|]. split; [tauto|]. discriminate.
    + run. split; [reflexivity|]. split; [reflexivity|]. apply flags_kept.
  - run. split; [reflexivity|]. split; [reflexivity|]. apply flags_kept.
Qed.

Lemma checkUrl_runs o c w :
  runs (checkUrl client RegExp_test o c) w
       (fun r tr _ =>
          only is_href_read tr /\
          (c_url c = Some true -> tr = []) /\
          forall c', r = Normal c' -> latched c c' /\ (shaped o c -> shaped o c')).
Proof.
  unfold checkUrl.
  destruct (truthy (url o)) eqn:He; simpl.
  - destruct (unmet (c_url c)) eqn:Hc.
    + assert (c_url c <> Some true) as Hne
        by (intros E; rewrite E in Hc; discriminate).
      run.
      * destruct (RegExp_test _ _) as [[|]|]; run;
          simpl; (split; [reflexivity|]); (split; [tauto|]);
          try discriminate; try apply flags_kept.
        intros c' [= <-]. apply url_flag_set, He.
      * simpl. split; [reflexivity|]. split; [tauto|]. discriminate.
    + run. split; [reflexivity|]. split; [reflexivity|]. apply flags_kept.
  - run. split; [reflexivity|]. split; [reflexivity|]. apply flags_kept.
Qed.

Lemma checkNetworkIdle_runs o cell c w :
  runs (checkNetworkIdle o cell c) w
       (fun r tr w' =>
          tr = [] /\ now w' = now w /\ page w' = page w /\
          exists c', r = Normal c' /\ latched c c' /\ (shaped o c -> shaped o c')).
Proof.
  unfold checkNetworkIdle.
  destruct (networkIdle o) as [idleFor|] eqn:He.
  - destruct (unmet (c_networkIdle c)) eqn:Hc.
    + run. destruct (idleFor <=? _); run; repeat (split; [reflexivity|]);
        eexists; (split; [reflexivity|]).
      * eapply networkIdle_flag_set, He.
      * apply flags_kept; reflexivity.
    + run. repeat (split; [reflexivity|]). eexists; split; [reflexivity|].
      apply flags_kept; reflexivity.
  - run. repeat (split; [reflexivity|]). eexists; split; [reflexivity|].
    apply flags_kept; reflexivity.
Qed.

(** One pass over the conditions: it only probes the page, it leaves alone
    every kind whose flag is already [true], and it never lowers a flag. *)
Lemma checkConditions_runs o cell c w :
  runs (checkConditions client RegExp_test o cell c) w
       (fun r tr _ =>
          only is_probe tr /\ never is_sleep tr /\
          (c_element c = Some true -> never is_dom_query tr) /\
          (c_text c = Some true -> never is_text_scan tr) /\
          (c_url c = Some true -> never is_href_read tr) /\
          forall c', r = Normal c' -> latched c c' /\ (shaped o c -> shaped o c')).
Proof.
  unfold checkConditions. run_step.
  eapply runs_mono; [apply checkElement_runs|].
  intros r1 tr1 w1 _ (Hq1 & Hskip1 & c1 & -> & Hl1 & Hs1).
  run_step. eapply runs_mono; [apply checkText_runs|].
  intros r2 tr2 w2 _ (Hq2 & Hskip2 & Hc2).
  assert (c_text c = Some true -> tr2 = []) as Hskip2'
    by (intros E; apply Hskip2, Hl1, E).
  destruct r2 as [c2|e2].
  - destruct (Hc2 c2 eq_refl) as [Hl2 Hs2].
    run_step. eapply runs_mono; [apply checkUrl_runs|].
    intros r3 tr3 w3 _ (Hq3 & Hskip3 & Hc3).
    assert (c_url c = Some true -> tr3 = []) as Hskip3'
      by (intros E; apply Hskip3, Hl2, Hl1, E).
    destruct r3 as [c3|e3].
    + destruct (Hc3 c3 eq_refl) as [Hl3 Hs3].
      eapply runs_mono; [apply checkNetworkIdle_runs|].
      intros r4 tr4 w4 _ (-> & _ & _ & c4 & -> & Hl4 & Hs4).
      split; [|split; [|split; [|split; [|split]]]].
      * trace_class.
      * trace_class.
      * intros E. rewrite (Hskip1 E). trace_class.
      * intros E. rewrite (Hskip2' E). trace_class.
      * intros E. rewrite (Hskip3' E). trace_class.
      * intros c' [= <-]. split; [eauto using latched_trans|tauto].
    + split; [|split; [|split; [|split; [|split]]]].
      * trace_class.
      * trace_class.
      * intros E. rewrite (Hskip1 E). trace_class.
      * intros E. rewrite (Hskip2' E). trace_class.
      * intros E. rewrite (Hskip3' E). trace_class.
      * discriminate.
  - split; [|split; [|split; [|split; [|split]]]].
    + trace_class.
    + trace_class.
    + intros E. rewrite (Hskip1 E). trace_class.
    + intros E. rewrite (Hskip2' E). trace_class.
    + intros E. trace_class.
    + discriminate.
Qed.

(** The final read of the page only probes it, without sleeping. *)
Lemma getActualState_runs o w :
  runs (getActualState client o) w
       (fun _ tr _ => only is_probe tr /\ never is_sleep tr).
Proof.
  unfold getActualState. run_step. run_step.
  destruct (settled _) as [urlResult|e]; [|split; reflexivity].
  run_step.
  assert (runs (if truthy (element o)
                then try_catch (queryElement client (js_string (element o)))
                               (fun _ => ret false)
                else ret false) w'
               (fun r tr _ => only is_dom_query tr /\ exists b, r = Normal b))
    as Hquery.
  { destruct (truthy (element o)); [apply guarded_query_runs|].
    run. split; [reflexivity|]. eauto. }
  eapply runs_mono; [exact Hquery|].
  intros r tr1 w1 _ [Hq [found ->]]. run_step.
  destruct (truthy (text o)).
  - run.
    + destruct (exceptionDetails a); run; split; trace_class.
    + split; trace_class.
  - run. split; trace_class.
Qed.

Lemma report_runs o startTime ok c w :
  runs (report client o startTime ok c) w
       (fun r tr _ =>
          only is_probe tr /\ never is_sleep tr /\
          forall out, r = Normal out -> success out = ok /\ conditions out = c).
Proof.
  unfold report. run_step. eapply runs_mono; [apply getActualState_runs|].
  intros r tr w' _ [Hp Hs]. destruct r as [st|e].
  - run. split; [trace_class|]. split; [trace_class|].
    intros out [= <-]. split; reflexivity.
  - split; [trace_class|]. split; [trace_class|]. discriminate.
Qed.

(** The loop: given fuel for the time that is left, it completes; it only
    probes the page, never lowers a flag, and reports [success] as the test
    of line 135 found it. *)
Lemma poll_runs fuel : forall o startTime timeout cell c w,
  timeout - (now w - startTime) <= 99 * Z.of_nat fuel ->
  runs (poll client RegExp_test (S fuel) o startTime timeout cell c) w
       (fun r tr _ =>
          only is_probe tr /\
          forall out, r = Normal out ->
            latched c (conditions out) /\
            (shaped o c -> shaped o (conditions out)) /\
            (success out = true -> allConditionsMet (conditions out) = true) /\
            (success out = false ->
               allConditionsMet (conditions out) = false \/
               (conditions out = c /\ timeout <= now w - startTime))).
Proof.
  induction fuel as [|fuel IH]; intros o startTime timeout cell c w Hfuel.
  - cbn [poll]. run_step. run_step.
    destruct (now w - startTime <? timeout) eqn:Ht; [apply Z.ltb_lt in Ht; lia|].
    apply Z.ltb_ge in Ht.
    eapply runs_mono; [apply report_runs|].
    intros r tr w' _ (Hp & _ & Hout). split; [trace_class|].
    intros out E. destruct (Hout out E) as [Hs Hc]. rewrite Hs, Hc.
    split; [apply latched_refl|]. split; [tauto|]. split; [discriminate|].
    intros _. right. split; [reflexivity|lia].
  - cbn [poll]. run_step. run_step.
    destruct (now w - startTime <? timeout) eqn:Ht.
    + run_step. eapply runs_mono; [apply checkConditions_runs|].
      intros r1 tr1 w1 Hev1 (Hp1 & _ & _ & _ & _ & Hc1).
      destruct r1 as [c1|e1]; [|split; [trace_class|discriminate]].
      destruct (Hc1 c1 eq_refl) as [Hl1 Hs1].
      destruct (allConditionsMet c1) eqn:Hall.
      * eapply runs_mono; [apply report_runs|].
        intros r tr w' _ (Hp & _ & Hout). split; [trace_class|].
        intros out E. destruct (Hout out E) as [Hs Hc]. rewrite Hs, Hc.
        split; [exact Hl1|]. split; [exact Hs1|]. split; [auto|discriminate].
      * run_step. run_step.
        destruct Hev1 as (_ & _ & Hnow1 & _).
        eapply runs_mono; [apply IH; unfold WAIT_CHECK_INTERVAL_MS, TIMER_EARLY_MS in *; lia|].
        intros r tr w2 _ (Hp & Hout). split; [trace_class|].
        intros out E. destruct (Hout out E) as (Hl & Hs & Hyes & Hno).
        split; [eauto using latched_trans|]. split; [tauto|]. split; [exact Hyes|].
        intros Hf. left. destruct (Hno Hf) as [Hn|[Hn _]]; [exact Hn|].
        rewrite Hn. exact Hall.
    + eapply runs_mono; [apply report_runs|].
      intros r tr w' _ (Hp & _ & Hout). split; [trace_class|].
      intros out E. destruct (Hout out E) as [Hs Hc]. rewrite Hs, Hc.
      apply Z.ltb_ge in Ht.
      split; [apply latched_refl|]. split; [tauto|]. split; [discriminate|].
      intros _. right. split; [reflexivity|lia].
Qed.

Lemma no_conditions_initial o :
  no_conditions o <-> allConditionsMet (initial_conditions o) = true.
Proof.
  unfold no_conditions, allConditionsMet, initial_conditions. simpl.
  destruct (truthy (element o)), (truthy (text o)), (truthy (url o)),
    (networkIdle o); simpl; intuition congruence.
Qed.


(** Lines 62-72: when no network idle is requested nothing happens; otherwise
    [Network.enable] is awaited and, if it resolves, the two callbacks are
    registered on the variable just created. *)
Lemma monitorNetwork_runs o w :
  runs (monitorNetwork client o) w
       (fun r tr w' =>
          never is_disable tr /\
          match networkIdle o with
          | None => tr = [] /\ now w' = now w /\ r = Normal (length (cells w))
          | Some _ =>
              match settled (Network_enable client (page w)) with
              | Normal _ =>
                  r = Normal (length (cells w)) /\
                  subscriptions tr = [(requestWillBeSent, length (cells w));
                                      (loadingFinished, length (cells w))]
              | Thrown e => r = Thrown e /\ subscriptions tr = []
              end
          end).
Proof.
  unfold monitorNetwork. run_step. run_step. run_step. run_step.
  destruct (networkIdle o).
  - run_step. run_step. rewrite H.
    destruct (settled _) as [[]|e].
    + run. simpl. split; [reflexivity|]. split; reflexivity.
    + simpl. split; [reflexivity|]. split; reflexivity.
  - run. simpl. split; [reflexivity|]. split; [reflexivity|]. split; [lia|reflexivity].
Qed.

(** The [finally] block always completes normally, and calls
    [Network.disable] once exactly when network idle was requested. *)
Lemma cleanup_runs o w :
  runs (cleanup client o) w
       (fun r tr _ =>
          r = Normal tt /\ subscriptions tr = [] /\
          count_effects is_disable tr =
            match networkIdle o with Some _ => 1%nat | None => 0%nat end).
Proof.
  unfold cleanup. destruct (networkIdle o).
  - run; simpl.
    + destruct a. repeat split; reflexivity.
    + repeat split; reflexivity.
  - run. repeat split; reflexivity.
Qed.

Lemma accepted_timeout_positive o :
  timeout_accepted (timeout o) = true -> 0 < effective_timeout o.
Proof.
  unfold timeout_accepted, effective_timeout, timeout_or_default,
    DEFAULT_WAIT_TIMEOUT_MS, MAX_WAIT_TIMEOUT_MS.
  destruct (timeout o) as [t|]; [|lia].
  intros H. apply negb_true_iff, orb_false_iff in H as [H1 H2].
  apply Z.ltb_ge in H1. destruct (Z.eqb_spec t 0); lia.
Qed.

Lemma poll_bound_enough timeout elapsed :
  0 <= elapsed ->
  timeout - elapsed <= 99 * Z.of_nat (Z.to_nat (timeout / (WAIT_CHECK_INTERVAL_MS - TIMER_EARLY_MS)) + 1).
Proof.
  unfold WAIT_CHECK_INTERVAL_MS, TIMER_EARLY_MS. change (100 - 1) with 99. intros He.
  destruct (Z.le_gt_cases 0 timeout) as [Hpos|Hneg].
  - rewrite Nat2Z.inj_add, Z2Nat.id by (apply Z.div_pos; lia).
    pose proof (Z.mod_pos_bound timeout 99 ltac:(lia)).
    pose proof (Z.div_mod timeout 99 ltac:(lia)). lia.
  - lia.
Qed.

Lemma poll_bound_S timeout :
  poll_bound timeout = S (Z.to_nat (timeout / (WAIT_CHECK_INTERVAL_MS - TIMER_EARLY_MS)) + 1).
Proof. unfold poll_bound. lia. Qed.

Lemma never_disable_count tr : only is_probe tr -> count_effects is_disable tr = 0%nat.
Proof.
  intros H. apply never_count. eauto with traces.
Qed.

(** The whole call: it completes; [Network.disable] is called once exactly
    when network idle was requested; the callbacks registered stay; and an
    outcome reports what the last test of the flags found. *)
Lemma waitFor_runs o w :
  runs (waitFor client RegExp_test o) w
       (fun r tr _ =>
          count_effects is_disable tr =
            match networkIdle o with Some _ => 1%nat | None => 0%nat end /\
          subscriptions tr = gained_listeners client o w /\
          forall out, r = Normal out ->
            shaped o (conditions out) /\
            (success out = true -> allConditionsMet (conditions out) = true) /\
            (timeout_accepted (timeout o) = true -> success out = false ->
             allConditionsMet (conditions out) = false)).
Proof.
  unfold waitFor, waitFor_fuel, gained_listeners. run_step. run_step.
  run_step. run_step. run_step.
  eapply runs_mono; [apply monitorNetwork_runs|].
  intros r0 tr0 w0 Hev0 (Hnd0 & Hm).
  assert (count_effects is_disable tr0 = 0%nat) as Hd0 by (apply never_count, Hnd0).
  assert (now w <= now w0) as Hnow0 by apply Hev0.
  destruct r0 as [cell|e0].
  - rewrite poll_bound_S.
    eapply runs_mono; [apply poll_runs, poll_bound_enough; lia|].
    intros r1 tr1 w1 _ (Hp1 & Hout).
    pose proof (never_disable_count _ Hp1) as Hd1.
    pose proof (only_probe_no_subscriptions _ Hp1) as Hs1.
    assert (subscriptions tr0 = match networkIdle o with
                                | Some _ =>
                                    match settled (Network_enable client (page w)) with
                                    | Normal _ => [(requestWillBeSent, length (cells w));
                                                   (loadingFinished, length (cells w))]
                                    | Thrown _ => []
                                    end
                                | None => []
                                end) as Hsub.
    { destruct (networkIdle o).
      - destruct (settled _); [apply Hm|]. destruct Hm as [Hm _]. discriminate.
      - destruct Hm as (-> & _). reflexivity. }
    destruct r1 as [out|e1].
    + eapply runs_mono; [apply cleanup_runs|].
      intros r2 tr2 w2 _ (-> & Hs2 & Hd2).
      rewrite !count_effects_app, !subscriptions_app, Hd0, Hd1, Hd2, Hs1, Hs2, Hsub.
      split; [reflexivity|]. split; [rewrite !app_nil_r; reflexivity|].
      intros out' [= <-]. destruct (Hout out eq_refl) as (_ & Hsh & Hyes & Hno).
      split; [apply Hsh, shaped_initial|]. split; [exact Hyes|].
      intros Hacc Hf. destruct (Hno Hf) as [Hn|[Hn Hlate]]; [exact Hn|].
      rewrite Hn.
      destruct (allConditionsMet (initial_conditions o)) eqn:Hall; [|reflexivity].
      apply no_conditions_initial in Hall. destruct Hall as (_ & _ & _ & Hnone).
      rewrite Hnone in Hm. destruct Hm as (_ & Hsame & _).
      pose proof (accepted_timeout_positive o Hacc). lia.
    + run_step.
      eapply runs_mono; [apply cleanup_runs|].
      intros r2 tr2 w2 _ (-> & Hs2 & Hd2).
      rewrite !count_effects_app, !subscriptions_app, Hd0, Hd1, Hd2, Hs1, Hs2, Hsub.
      split; [reflexivity|]. split; [rewrite !app_nil_r; reflexivity|]. discriminate.
  - run_step.
    eapply runs_mono; [apply cleanup_runs|].
    intros r2 tr2 w2 _ (-> & Hs2 & Hd2).
    rewrite !count_effects_app, !subscriptions_app, Hd0, Hd2, Hs2.
    split; [reflexivity|]. split; [|discriminate].
    rewrite !app_nil_r. destruct (networkIdle o).
    + destruct (settled _); [|apply Hm]. destruct Hm as [Hm _]. discriminate.
    + destruct Hm as (_ & _ & Hm). discriminate.
Qed.


(** C1. Every call to [waitFor] completes, and whichever way it completes
    (an outcome with success, an outcome at the deadline, or an exception)
    the effects of the call contain [Network.disable] exactly once when the
    options include [networkIdle], and not at all when they do not. *)
Theorem waitFor_disables_network_once o w :
  exists r w' tr,
    waitFor client RegExp_test o w = Some (r, w') /\
    trace w' = trace w ++ tr /\
    count_effects is_disable tr =
      match networkIdle o with Some _ => 1%nat | None => 0%nat end.
Proof.
  destruct (waitFor_runs o w) as (r & w' & tr & Hrun & Hev & Hd & _).
  exists r, w', tr. split; [exact Hrun|]. split; [apply Hev|exact Hd].
Qed.


(** C9, amended. Every call of [waitFor] completes and leaves on the client
    all the callbacks that were registered before, followed by the ones it
    registered itself: two (one per event, on the variable the call
    created) when network idle is requested and [Network.enable] resolves,
    none otherwise. The only teardown among its effects is the one call of
    [Network.disable]. *)
Theorem waitFor_listeners_accumulate o w :
  exists r w' tr,
    waitFor client RegExp_test o w = Some (r, w') /\
    trace w' = trace w ++ tr /\
    listeners w' =
      listeners w ++
      match networkIdle o with
      | Some _ =>
          match settled (Network_enable client (page w)) with
          | Normal _ => [(requestWillBeSent, length (cells w));
                         (loadingFinished, length (cells w))]
          | Thrown _ => []
          end
      | None => []
      end /\
    count_effects is_disable tr =
      match networkIdle o with Some _ => 1%nat | None => 0%nat end.
Proof.
  destruct (waitFor_runs o w) as (r & w' & tr & Hrun & Hev & Hd & Hs & _).
  exists r, w', tr. split; [exact Hrun|].
  destruct Hev as (Ht & Hl & _). rewrite Hl, Hs. auto.
Qed.

(** A pass that only has the element and network idle conditions to check
    never throws, whatever the driver does. *)
Lemma checkConditions_guarded o cell c w :
  truthy (text o) = false ->
  truthy (url o) = false ->
  runs (checkConditions client RegExp_test o cell c) w
       (fun r _ _ => exists c', r = Normal c').
Proof.
  intros Htx Hu. unfold checkConditions, checkText, checkUrl. rewrite Htx, Hu. simpl.
  run_step. eapply runs_mono; [apply checkElement_runs|].
  intros r1 tr1 w1 _ (_ & _ & c1 & -> & _). run.
  eapply runs_mono; [apply checkNetworkIdle_runs|].
  intros r2 tr2 w2 _ (_ & _ & _ & c2 & -> & _). eauto.
Qed.

(** Without a text to look for, the final read of the page can only fail
    in its read of the URL. *)
Lemma report_guarded o startTime ok c w :
  truthy (text o) = false ->
  runs (report client o startTime ok c) w
       (fun r _ _ =>
          (forall out, r = Normal out ->
             success out = ok /\ now w - startTime <= timeElapsed out) /\
          (forall error, r = Thrown error -> href_read_rejected client error)).
Proof.
  intros Htx. unfold report, getActualState. rewrite Htx.
  run_step. run_step. run_step.
  destruct (settled (Runtime_evaluate client LocationHref (page w)))
    as [urlResult|e] eqn:Hread.
  - run_step.
    assert (runs (if truthy (element o)
                  then try_catch (queryElement client (js_string (element o)))
                                 (fun _ => ret false)
                  else ret false) w'
                 (fun r _ _ => exists b, r = Normal b)) as Hquery.
    { destruct (truthy (element o)).
      - eapply runs_mono; [apply guarded_query_runs|]. intros r tr w1 _ [_ Hb].
        exact Hb.
      - run. eauto. }
    eapply runs_mono; [exact Hquery|].
    intros r tr1 w1 Hev [found ->]. run.
    split; [|discriminate]. intros out [= <-]. simpl.
    destruct Hev as (_ & _ & Hnow & _). split; [reflexivity|lia].
  - split; [discriminate|]. intros error [= <-]. exists (page w). exact Hread.
Qed.

(** When the loop gives up, the deadline has passed. *)
Lemma report_elapsed o startTime ok c w :
  runs (report client o startTime ok c) w
       (fun r _ _ =>
          forall out, r = Normal out -> now w - startTime <= timeElapsed out).
Proof.
  unfold report. run_step.
  eapply runs_mono; [apply getActualState_runs|].
  intros r tr w' Hev _. destruct r as [st|e]; [|discriminate].
  run. intros out [= <-]. simpl. destruct Hev as (_ & _ & Hnow & _). lia.
Qed.

Lemma poll_deadline fuel : forall o startTime timeout cell c w,
  timeout - (now w - startTime) <= 99 * Z.of_nat fuel ->
  runs (poll client RegExp_test (S fuel) o startTime timeout cell c) w
       (fun r _ _ =>
          forall out, r = Normal out -> success out = false ->
                      timeout <= timeElapsed out).
Proof.
  induction fuel as [|fuel IH]; intros o startTime timeout cell c w Hfuel;
    rewrite poll_S; run_step; run_step;
    destruct (now w - startTime <? timeout) eqn:Ht;
    try (apply Z.ltb_lt in Ht; lia).
  - apply Z.ltb_ge in Ht.
    eapply runs_mono; [apply report_elapsed|].
    intros r tr w' _ Hout out E _. specialize (Hout out E). lia.
  - run_step. eapply runs_mono; [apply checkConditions_runs|].
    intros r1 tr1 w1 Hev1 _. destruct r1 as [c1|e1]; [|discriminate].
    destruct (allConditionsMet c1).
    + eapply runs_mono; [apply report_runs|].
      intros r tr w' _ (_ & _ & Hout) out E Hf.
      destruct (Hout out E) as [Hs _]. congruence.
    + run_step. run_step. destruct Hev1 as (_ & _ & Hnow1 & _).
      eapply runs_mono; [apply IH; unfold WAIT_CHECK_INTERVAL_MS, TIMER_EARLY_MS in *; lia|].
      intros r tr w2 _ Hout. exact Hout.
  - apply Z.ltb_ge in Ht.
    eapply runs_mono; [apply report_elapsed|].
    intros r tr w' _ Hout out E _. specialize (Hout out E). lia.
Qed.

(** With only the element and network idle kinds to check, the loop can
    only fail in the final read of the URL. *)
Lemma poll_guarded fuel : forall o startTime timeout cell c w,
  truthy (text o) = false ->
  truthy (url o) = false ->
  timeout - (now w - startTime) <= 99 * Z.of_nat fuel ->
  runs (poll client RegExp_test (S fuel) o startTime timeout cell c) w
       (fun r _ _ =>
          forall error, r = Thrown error -> href_read_rejected client error).
Proof.
  induction fuel as [|fuel IH]; intros o startTime timeout cell c w Htx Hu Hfuel;
    rewrite poll_S; run_step; run_step;
    destruct (now w - startTime <? timeout) eqn:Ht;
    try (apply Z.ltb_lt in Ht; lia).
  - eapply runs_mono; [apply report_guarded; exact Htx|].
    intros r tr w' _ [_ Hthrown]. exact Hthrown.
  - run_step.
    eapply runs_mono;
      [apply (runs_conj _ _ _ _ (checkConditions_runs o cell c w)
                (checkConditions_guarded o cell c w Htx Hu))|].
    intros r1 tr1 w1 Hev1 [_ [c1 ->]].
    destruct (allConditionsMet c1).
    + eapply runs_mono; [apply report_guarded; exact Htx|].
      intros r tr w' _ [_ Hthrown]. exact Hthrown.
    + run_step. run_step. destruct Hev1 as (_ & _ & Hnow1 & _).
      eapply runs_mono;
        [apply IH; [exact Htx|exact Hu|unfold WAIT_CHECK_INTERVAL_MS, TIMER_EARLY_MS in *; lia]|].
      intros r tr w2 _ Hthrown. exact Hthrown.
  - eapply runs_mono; [apply report_guarded; exact Htx|].
    intros r tr w' _ [_ Hthrown]. exact Hthrown.
Qed.

(** The whole call, with only the element and network idle kinds requested:
    an outcome without success comes after the deadline, and an error can
    only come from [Network.enable] or from the final read of the URL. *)
Lemma waitFor_guarded o w :
  truthy (text o) = false ->
  truthy (url o) = false ->
  runs (waitFor client RegExp_test o) w
       (fun r _ _ =>
          match r with
          | Normal out => success out = false -> effective_timeout o <= timeElapsed out
          | Thrown error =>
              exists cause,
                error = Error ("Failed to wait for conditions: " +:+ render cause) /\
                (href_read_rejected client cause \/
                 settled (Network_enable client (page w)) = Thrown cause)
          end).
Proof.
  intros Htx Hu. unfold waitFor, waitFor_fuel. run_step. run_step.
  run_step. run_step. run_step.
  eapply runs_mono; [apply monitorNetwork_runs|].
  intros r0 tr0 w0 Hev0 (_ & Hm).
  assert (now w <= now w0) as Hnow0 by apply Hev0.
  destruct r0 as [cell|e0].
  - rewrite poll_bound_S.
    eapply runs_mono;
      [apply (runs_conj _ _ _ _
                (poll_deadline _ o (now w) (effective_timeout o) cell
                   (initial_conditions o) w0 ltac:(apply poll_bound_enough; lia))
                (poll_guarded _ o (now w) (effective_timeout o) cell
                   (initial_conditions o) w0 Htx Hu
                   ltac:(apply poll_bound_enough; lia)))|].
    intros r1 tr1 w1 _ [Hlate Hthrown].
    destruct r1 as [out|e1].
    + eapply runs_mono; [apply cleanup_runs|].
      intros r2 tr2 w2 _ (-> & _). apply (Hlate out eq_refl).
    + run_step. eapply runs_mono; [apply cleanup_runs|].
      intros r2 tr2 w2 _ (-> & _). exists e1. split; [reflexivity|].
      left. apply Hthrown. reflexivity.
  - run_step. eapply runs_mono; [apply cleanup_runs|].
    intros r2 tr2 w2 _ (-> & _). exists e0. split; [reflexivity|]. right.
    destruct (networkIdle o).
    + destruct (settled (Network_enable client (page w))) as [[]|e].
      * destruct Hm as [Hm _]. discriminate.
      * destruct Hm as [[= <-] _]. reflexivity.
    + destruct Hm as (_ & _ & Hm). discriminate.
Qed.

(** When the DOM query of the element check fails, the flag is [false]
    and the pass goes on. *)
Lemma checkElement_query_fails o c w error :
  truthy (element o) = true ->
  unmet (c_element c) = true ->
  dom_query_failure client (js_string (element o)) (page w) = Some error ->
  runs (checkElement client o c) w
       (fun r _ _ =>
          r = Normal {| c_element := Some false; c_text := c_text c;
                        c_url := c_url c; c_networkIdle := c_networkIdle c |}).
Proof.
  intros He Hc Hq. unfold checkElement, queryElement. rewrite He, Hc. simpl.
  unfold dom_query_failure in Hq.
  run_step. run_step. run_step. run_step.
  destruct (settled (DOM_getDocument client (page w))) as [root|e1].
  - run_step. run_step. rewrite H in *.
    destruct (settled (DOM_querySelector client root (js_string (element o))
                         (page_after (DOM_getDocument client (page w)))))
      as [nodeId|e2]; [discriminate|]. run. reflexivity.
  - run. reflexivity.
Qed.

(** The element check never throws, and leaves the other flags alone. *)
Lemma checkElement_other_flags o c w :
  runs (checkElement client o c) w
       (fun r _ _ => exists c', r = Normal c' /\ c_text c' = c_text c).
Proof.
  unfold checkElement. destruct (truthy (element o) && unmet (c_element c)).
  - run_step. eapply runs_mono; [apply guarded_query_runs|].
    intros r tr w' _ [_ [found ->]]. run. eauto.
  - run. eauto.
Qed.

(** A text probe that fails ends the pass it is made in. *)
Lemma checkConditions_text_probe_fails o cell c w c1 w1 error :
  truthy (text o) = true ->
  unmet (c_text c) = true ->
  checkElement client o c w = Some (Normal c1, w1) ->
  text_probe_failure
    (Runtime_evaluate client (TextScan (js_string (text o))) (page w1)) = Some error ->
  exists w2,
    checkConditions client RegExp_test o cell c w = Some (Thrown error, w2).
Proof.
  intros Htx Hc He Hfail.
  destruct (checkElement_other_flags o c w) as (r & w' & tr & Hrun & _ & c' & -> & Hk).
  rewrite He in Hrun. injection Hrun as <- <-.
  unfold checkConditions. erewrite bind_normal by exact He.
  assert (exists w2, checkText client o c1 w1 = Some (Thrown error, w2)) as [w2 Ht].
  { unfold checkText. rewrite Htx, Hk, Hc. simpl.
    unfold text_probe_failure in Hfail.
    unfold bind at 1, await.
    destruct (deliver _ _ _ _) as [t cs].
    destruct (settled (Runtime_evaluate client (TextScan (js_string (text o))) (page w1)))
      as [result|e].
    - destruct (exceptionDetails result); [|discriminate].
      injection Hfail as <-. eexists. reflexivity.
    - injection Hfail as <-. eexists. reflexivity. }
  exists w2. erewrite bind_thrown by exact Ht. reflexivity.
Qed.

(** The loop, started with fuel at the first pass, is the loop started
    with what fuel is left at any pass it gets to. *)
Lemma poll_passes o startTime timeout cell c w c' w' :
  passes client RegExp_test o startTime timeout cell c w c' w' ->
  forall fuel, exists fuel',
    poll client RegExp_test fuel o startTime timeout cell c w
    = poll client RegExp_test fuel' o startTime timeout cell c' w'.
Proof.
  induction 1 as [c w|c w c1 w1 w2 c' w' Hnow Hpass Hall Hsleep _ IH]; intros fuel.
  - exists fuel. reflexivity.
  - destruct fuel as [|fuel].
    + exists 0%nat. reflexivity.
    + destruct (IH fuel) as [fuel' E]. exists fuel'. rewrite <- E, poll_S.
      unfold bind at 1, Date_now.
      apply Z.ltb_lt in Hnow. rewrite Hnow.
      erewrite bind_normal by exact Hpass. rewrite Hall.
      erewrite bind_normal by exact Hsleep. reflexivity.
Qed.

(** A text probe that fails ends the call, in whichever pass it is made. *)
Lemma waitFor_text_probe_fails o w cell w0 c w1 c1 w2 error :
  monitorNetwork client o w = Some (Normal cell, w0) ->
  passes client RegExp_test o (now w) (effective_timeout o) cell
         (initial_conditions o) w0 c w1 ->
  now w1 - now w < effective_timeout o ->
  truthy (text o) = true ->
  unmet (c_text c) = true ->
  checkElement client o c w1 = Some (Normal c1, w2) ->
  text_probe_failure
    (Runtime_evaluate client (TextScan (js_string (text o))) (page w2)) = Some error ->
  exists w',
    waitFor client RegExp_test o w
    = Some (Thrown (Error ("Failed to wait for conditions: " +:+ render error)), w').
Proof.
  intros Hm Hpasses Hnow Htx Hc He Hfail.
  destruct (waitFor_runs o w) as (r & w' & tr & Hrun & _).
  destruct (checkConditions_text_probe_fails o cell c w1 c1 w2 error Htx Hc He Hfail)
    as [w3 Hpass].
  destruct (poll_passes _ _ _ _ _ _ _ _ Hpasses (poll_bound (effective_timeout o)))
    as [fuel' Hpoll].
  assert (waitFor client RegExp_test o w =
          match poll client RegExp_test (poll_bound (effective_timeout o)) o (now w)
                     (effective_timeout o) cell (initial_conditions o) w0 with
          | Some (c0, w3) =>
              match (match c0 with
                     | Normal out => Some (Normal out, w3)
                     | Thrown e =>
                         Some (Thrown (Error ("Failed to wait for conditions: "
                                              +:+ render e)), w3)
                     end) with
              | Some (c2, w4) =>
                  match cleanup client o w4 with
                  | Some (Normal _, w5) => Some (c2, w5)
                  | Some (Thrown e, w5) => Some (Thrown e, w5)
                  | None => None
                  end
              | None => None
              end
          | None => None
          end) as Hw.
  { unfold waitFor, waitFor_fuel. unfold bind at 1, Date_now. cbv zeta.
    unfold try_finally, try_catch. erewrite bind_normal by exact Hm.
    destruct (poll _ _ _ _ _ _ _ _ _) as [[[out|e] w9]|]; reflexivity. }
  rewrite Hw in Hrun |- *. rewrite Hpoll in Hrun |- *.
  destruct fuel' as [|fuel']; [discriminate|].
  rewrite poll_S. unfold bind at 1, Date_now.
  apply Z.ltb_lt in Hnow. rewrite Hnow.
  erewrite bind_thrown by exact Hpass.
  destruct (cleanup_runs o w3) as (r2 & w4 & tr2 & Hclean & _ & -> & _).
  rewrite Hclean. eexists. reflexivity.
Qed.

End WaitServiceFacts.

(** *** The three ways out of [waitFor], on scripted pages *)

Example waitFor_returns_success :
  exists out w',
    waitFor scripted literal_pattern idle_then_text (world_at [app_page] 0)
      = Some (Normal out, w') /\
    success out = true /\
    count_effects is_disable (trace w') = 1%nat.
Proof. eexists _, _. vm_compute. repeat split; reflexivity. Qed.

Example waitFor_returns_at_deadline :
  exists out w',
    waitFor scripted literal_pattern
      (mkWaitOptions None (Some "Deleted") None (Some 0) (Some 1000))
      (world_at [app_page] 0)
      = Some (Normal out, w') /\
    success out = false /\
    count_effects is_disable (trace w') = 1%nat.
Proof. eexists _, _. vm_compute. repeat split; reflexivity. Qed.

Example waitFor_throws :
  exists error w',
    waitFor scripted literal_pattern idle_then_text
      (world_at [mkScene "" "" [] (Some "WebSocket is not open") None 3 []] 0)
      = Some (Thrown error, w') /\
    count_effects is_disable (trace w') = 1%nat.
Proof. eexists _, _. vm_compute. repeat split; reflexivity. Qed.



(** C9, as stated, fails: when [Network.enable] rejects, the call registers
    no callback at all, and still calls [Network.disable]. *)
Lemma waitFor_enable_rejected_registers_nothing :
  exists error w',
    waitFor scripted literal_pattern network_idle_only (world_at [lost_page] 0)
      = Some (Thrown error, w') /\
    listeners w' = [] /\
    trace w' = [CallNetworkEnable; CallNetworkDisable;
                ConsoleError "[waitFor] Network cleanup failed: Error: WebSocket is not open"].
Proof. eexists _, _. vm_compute. repeat split; reflexivity. Qed.

(** C3, as stated, fails: the script behind the text check raises once, at
    the first probe, on a page that shows the text from then on; the call
    ends at once with an error, 1000 ms before its deadline. *)
Lemma waitFor_text_exception_ends_the_call :
  exists w',
    waitFor scripted literal_pattern text_Saved
      (world_at [raising_page; settled_page] 0)
      = Some (Thrown (Error
          "Failed to wait for conditions: Error: Script execution failed: boom"), w') /\
    trace w' = [CallEvaluate (TextScan "Saved")] /\
    now w' = 0.
Proof. eexists. vm_compute. repeat split; reflexivity. Qed.

(** C3, amended. In any pass, an element check whose DOM query fails
    ([getDocument] or [querySelector] rejects) does not throw: it leaves the
    flag [false] for the next pass. A pass of a request that has only the
    element and network idle kinds never throws, and the whole call on such
    a request returns an outcome without success only once the deadline has
    passed, and can only throw what [Network.enable] or the final read of
    the URL was rejected with. A text probe is not guarded: in whichever
    pass of the loop it fails (the promise rejects, or the reply carries
    exception details), [waitFor] throws "Failed to wait for conditions: ..."
    instead of polling on. *)
Theorem waitFor_probe_failures {P} (client : Driver P)
    (RegExp_test : string -> string -> Completion bool)
    (o : WaitOptions) (cell : nat) (c : Conditions) (w : World P) :
  (forall error,
     truthy (element o) = true -> unmet (c_element c) = true ->
     dom_query_failure client (js_string (element o)) (page w) = Some error ->
     exists w',
       checkElement client o c w
       = Some (Normal {| c_element := Some false; c_text := c_text c;
                         c_url := c_url c; c_networkIdle := c_networkIdle c |}, w')) /\
  (truthy (text o) = false -> truthy (url o) = false ->
   exists c' w',
     checkConditions client RegExp_test o cell c w = Some (Normal c', w')) /\
  (truthy (text o) = false -> truthy (url o) = false ->
   exists r w',
     waitFor client RegExp_test o w = Some (r, w') /\
     match r with
     | Normal out => success out = false -> effective_timeout o <= timeElapsed out
     | Thrown error =>
         exists cause,
           error = Error ("Failed to wait for conditions: " +:+ render cause) /\
           (href_read_rejected client cause \/
            settled (Network_enable client (page w)) = Thrown cause)
     end) /\
  (forall lastNetworkActivity w0 flags w1 flags1 w2 error,
     monitorNetwork client o w = Some (Normal lastNetworkActivity, w0) ->
     passes client RegExp_test o (now w) (effective_timeout o) lastNetworkActivity
            (initial_conditions o) w0 flags w1 ->
     now w1 - now w < effective_timeout o ->
     truthy (text o) = true ->
     unmet (c_text flags) = true ->
     checkElement client o flags w1 = Some (Normal flags1, w2) ->
     text_probe_failure
       (Runtime_evaluate client (TextScan (js_string (text o))) (page w2))
       = Some error ->
     exists w',
       waitFor client RegExp_test o w
       = Some (Thrown (Error ("Failed to wait for conditions: " +:+ render error)),
               w')).
Proof.
  split; [|split; [|split]].
  - intros error He Hc Hq.
    destruct (checkElement_query_fails client o c w error He Hc Hq)
      as (r & w' & tr & Hrun & _ & ->). eauto.
  - intros Htx Hu.
    destruct (checkConditions_guarded client RegExp_test o cell c w Htx Hu)
      as (r & w' & tr & Hrun & _ & c' & ->). eauto.
  - intros Htx Hu.
    destruct (waitFor_guarded client RegExp_test o w Htx Hu)
      as (r & w' & tr & Hrun & _ & Hpost). eauto.
  - intros lastNetworkActivity w0 flags w1 flags1 w2 error.
    apply waitFor_text_probe_fails.
Qed.

(** The theorem at work: a lost connection during the element check, and a
    script that raises during the text check of the second pass. *)
Lemma waitFor_probe_failures_witness :
  (exists w',
     checkElement scripted element_toast (initial_conditions element_toast)
       (world_at [lost_page] 0)
     = Some (Normal {| c_element := Some false; c_text := None;
                       c_url := None; c_networkIdle := None |}, w')) /\
  (exists c' w',
     checkConditions scripted literal_pattern element_toast 0
       (initial_conditions element_toast) (world_at [lost_page] 0)
     = Some (Normal c', w')) /\
  (exists r w',
     waitFor scripted literal_pattern element_toast (world_at [blank] 0)
     = Some (r, w') /\
     match r with
     | Normal out =>
         success out = false -> effective_timeout element_toast <= timeElapsed out
     | Thrown error =>
         exists cause,
           error = Error ("Failed to wait for conditions: " +:+ render cause) /\
           (href_read_rejected scripted cause \/
            settled (Network_enable scripted (page (world_at [blank] 0)))
            = Thrown cause)
     end) /\
  (exists w',
     waitFor scripted literal_pattern text_Saved (world_at [blank; raising_page] 0)
     = Some (Thrown (Error ("Failed to wait for conditions: "
                            +:+ render (Error "Script execution failed: boom"))),
             w')).
Proof.
  split; [|split; [|split]].
  - apply (proj1 (waitFor_probe_failures scripted literal_pattern element_toast
                    0%nat (initial_conditions element_toast)
                    (world_at [lost_page] 0))
             (Error "WebSocket is not open")); reflexivity.
  - apply (proj1 (proj2 (waitFor_probe_failures scripted literal_pattern
                           element_toast 0%nat (initial_conditions element_toast)
                           (world_at [lost_page] 0)))); reflexivity.
  - apply (proj1 (proj2 (proj2 (waitFor_probe_failures scripted literal_pattern
                                  element_toast 0%nat
                                  (initial_conditions element_toast)
                                  (world_at [blank] 0))))); reflexivity.
  - eapply (proj2 (proj2 (proj2 (waitFor_probe_failures scripted literal_pattern
                                   text_Saved 0%nat (initial_conditions text_Saved)
                                   (world_at [blank; raising_page] 0))))).
    + reflexivity.
    + eapply passes_more; [vm_compute; reflexivity|vm_compute; reflexivity
                           |reflexivity|vm_compute; reflexivity|apply passes_none].
    + vm_compute. reflexivity.
    + reflexivity.
    + reflexivity.
    + vm_compute. reflexivity.
    + vm_compute. reflexivity.
Defined.

(** *** The text condition on a page that does not change *)

Section StaticPage.
Variables (sc : Scene) (o : WaitOptions).
Hypothesis page_up : broken sc = None.
Hypothesis scripts_run : script_error sc = None.
Hypothesis no_element : truthy (element o) = false.
Hypothesis no_url : truthy (url o) = false.
Hypothesis no_networkIdle : networkIdle o = None.
Hypothesis some_text : truthy (text o) = true.







End StaticPage.






(** ** ElementReadinessService *)

Lemma Qltb_lt (a b : Q) : Qltb a b = true <-> (a < b)%Q.
Proof.
  unfold Qltb. rewrite negb_true_iff. split.
  - intros H. apply Qnot_le_lt. intros Hle.
    apply Qle_bool_iff in Hle. congruence.
  - intros H. destruct (Qle_bool b a) eqn:E; [|reflexivity].
    apply Qle_bool_iff in E. exfalso. exact (Qlt_not_le _ _ H E).
Qed.

Lemma not_Qltb (a b : Q) : Qltb a b = false <-> (b <= a)%Q.
Proof.
  split.
  - intros H. destruct (Qlt_le_dec a b) as [Hlt|Hle]; [|exact Hle].
    apply Qltb_lt in Hlt. congruence.
  - intros H. destruct (Qltb a b) eqn:E; [|reflexivity].
    apply Qltb_lt in E. lra.
Qed.

Section ElementReadinessFacts.
Context {P : Type} (client : Driver P).
Implicit Types w : World P.

Lemma checkStability_runs selector initialBox w :
  runs (checkStability client selector initialBox) w
       (fun r tr w' =>
          tr = [Sleep STABILITY_CHECK_MS; CallEvaluate (BoxProbe selector)] /\
          now w + STABILITY_CHECK_MS - TIMER_EARLY_MS <= now w' /\
          r = Normal match second_sample client selector (page w) with
                     | Some newBox => within_1px newBox initialBox
                     | None => false
                     end).
Proof.
  unfold checkStability, second_sample. run_step. run_step. run_step. run_step.
  run_step. rewrite <- H.
  destruct (settled _) as [result|e].
  - destruct (value result); run; simpl; repeat split; lia.
  - run. simpl. repeat split; lia.
Qed.

Lemma checkElementState_runs selector w :
  runs (checkElementState client selector) w
       (fun r _ _ =>
          r = Normal match first_sample client selector (page w) with
                     | None => notFound
                     | Some (probe, p) =>
                         {| visible := probe_visible probe;
                            enabled := probe_enabled probe;
                            stable :=
                              match second_sample client selector p with
                              | Some newBox =>
                                  within_1px newBox (probe_boundingBox probe)
                              | None => false
                              end;
                            boundingBox := Some (probe_boundingBox probe) |}
                     end).
Proof.
  unfold checkElementState, first_sample. run_step. run_step. run_step.
  destruct (settled (DOM_getDocument client (page w))) as [root|e1];
    [|run; reflexivity].
  run_step. run_step. rewrite <- H.
  destruct (settled (DOM_querySelector client root selector (page w')))
    as [nodeId|e2]; [|run; reflexivity].
  destruct (no_node nodeId); [run; reflexivity|].
  run_step. run_step. rewrite <- H2.
  destruct (settled (Runtime_evaluate client (ReadinessProbe selector) (page w'0)))
    as [result|e3]; [|run; reflexivity].
  destruct (exceptionDetails result); [run; reflexivity|].
  destruct (value result) as [probe|]; [|run; reflexivity].
  run_step. eapply runs_mono; [apply checkStability_runs|].
  intros r tr w3 _ (_ & _ & ->). run. rewrite H5. reflexivity.
Qed.

End ElementReadinessFacts.

(** C5, as stated, fails: the left edge moves from 1 to 1e-17, by less
    than 1, and nothing else moves; the subtraction of the two doubles is
    rounded to -1, and the check reports the element unstable. *)
Lemma checkStability_rounds_the_difference :
  exists w' before after,
    checkStability scripted "#btn" box_at_1 (world_at [moved_page] 0)
    = Some (Normal false, w') /\
    number_value (x box_at_1) = Some before /\
    number_value (x box_moved_left) = Some after /\
    (Qabs (after - before) < 1)%Q /\
    y box_moved_left = y box_at_1 /\
    width box_moved_left = width box_at_1 /\
    height box_moved_left = height box_at_1.
Proof.
  eexists _, _, _. split; [vm_compute; reflexivity|].
  split; [vm_compute; reflexivity|]. split; [vm_compute; reflexivity|].
  split; [vm_compute; reflexivity|]. repeat split; reflexivity.
Qed.

(** C5, amended. [checkStability] always returns a boolean, after one
    timer of 100 ms followed by one probe of the bounding box. It returns
    [false] when that probe rejects or finds no element, and otherwise
    whether the box is within the tolerance of the first sample: for each
    of x, y, width and height the difference of the two doubles, as the
    subtraction rounds it, is below 1 in absolute value. A second sample
    (100.4, 200.2, 50, 30) against (100, 200, 50, 30) is within the
    tolerance, one with x = 106 is not. *)
Theorem checkStability_tolerance {P} (client : Driver P) (selector : string)
    (initialBox : Rect) (w : World P) :
  (exists stable w',
     checkStability client selector initialBox w = Some (Normal stable, w') /\
     trace w' = trace w ++ [Sleep 100; CallEvaluate (BoxProbe selector)] /\
     stable = match second_sample client selector (page w) with
              | Some newBox => within_1px newBox initialBox
              | None => false
              end) /\
  (forall newBox,
     within_1px newBox initialBox = true <->
     (PrimFloat.abs (x newBox - x initialBox) <? 1)%float = true /\
     (PrimFloat.abs (y newBox - y initialBox) <? 1)%float = true /\
     (PrimFloat.abs (width newBox - width initialBox) <? 1)%float = true /\
     (PrimFloat.abs (height newBox - height initialBox) <? 1)%float = true) /\
  within_1px (mkRect 100.4 200.2 50 30) (mkRect 100 200 50 30) = true /\
  within_1px (mkRect 106 200 50 30) (mkRect 100 200 50 30) = false.
Proof.
  split; [|split; [|split; vm_compute; reflexivity]].
  - destruct (checkStability_runs client selector initialBox w)
      as (r & w' & tr & Hrun & Hev & -> & Hnow & ->).
    eexists _, w'. split; [exact Hrun|]. split; [apply Hev|reflexivity].
  - intros newBox. unfold within_1px, moved_less_than_1.
    rewrite !andb_true_iff. tauto.
Qed.

(** C6, as stated, fails: when the driver rejects the second (stability)
    probe, the state returned is not the terminal state; it keeps the
    visibility, the enablement and the bounding box of the first probe and
    only has [stable] false. *)
Lemma checkElementState_keeps_first_probe :
  exists w',
    checkElementState scripted "#btn"
      (world_at [button_page; button_page; button_page; button_page; lost_page] 0)
      = Some (Normal {| visible := true; enabled := true; stable := false;
                        boundingBox := Some button_box |}, w') /\
    trace w' = [CallGetDocument; CallQuerySelector 1 "#btn";
                CallEvaluate (ReadinessProbe "#btn"); Sleep 100;
                CallEvaluate (BoxProbe "#btn")].
Proof. eexists. vm_compute. split; reflexivity. Qed.

(** C6, amended. [checkElementState] never throws. It returns the terminal
    state (not visible, not enabled, not stable, no box) when the first
    probe shows nothing: the document or the selector does not resolve, a
    call rejects, or the script raises or returns no value. Otherwise it
    returns the visibility, enablement and bounding box the first probe saw,
    with [stable] true exactly when the stability probe yields a box within
    the tolerance; a stability probe that rejects or finds nothing only makes
    [stable] false. [isReady] is the conjunction
    [visible && enabled && stable], which the terminal state fails. *)
Theorem checkElementState_never_throws {P} (client : Driver P)
    (selector : string) (w : World P) :
  exists state w',
    checkElementState client selector w = Some (Normal state, w') /\
    match first_sample client selector (page w) with
    | None => state = notFound
    | Some (probe, p) =>
        visible state = probe_visible probe /\
        enabled state = probe_enabled probe /\
        boundingBox state = Some (probe_boundingBox probe) /\
        stable state =
          match second_sample client selector p with
          | Some newBox => within_1px newBox (probe_boundingBox probe)
          | None => false
          end
    end /\
    isReady state = visible state && enabled state && stable state /\
    isReady notFound = false.
Proof.
  destruct (checkElementState_runs client selector w)
    as (r & w' & tr & Hrun & _ & ->).
  eexists _, w'. split; [exact Hrun|].
  destruct (first_sample client selector (page w)) as [[probe p]|].
  - split; [simpl; auto|]. split; reflexivity.
  - split; [reflexivity|]. split; reflexivity.
Qed.

(** ** ChromeController: one caller *)

Section ChromeControllerFacts.
Context {B : Type} (chrome : Launcher B).
Implicit Types s : Session B.

(** [connect] is one invocation; it leaves the flag alone, and it throws
    exactly when the attachment or the enabling of the domains is
    rejected. *)
Lemma connect_spec s :
  exists r s1 added,
    connect chrome s = Some (r, s1) /\
    journal s1 = journal s ++ added /\
    attempts_and_sleeps added = [Connect] /\
    failed_attempts added = 0%nat /\
    this_reconnecting s1 = this_reconnecting s /\
    browser s1 = browser_after_attempt chrome (browser s) /\
    match attempt_error chrome (browser s) with
    | None => r = Normal tt
    | Some _ => exists error, r = Thrown error
    end.
Proof.
  unfold connect, note, turn, set_client, bind, try_catch, throw,
    attempt_error, browser_after_attempt. simpl.
  destruct (outcome (attach chrome (browser s))) as [[]|e1]; simpl.
  - destruct (outcome (enable_domains chrome _)) as [[]|e2]; simpl;
      eexists _, _, _; (split; [reflexivity|]); simpl;
      rewrite <- !app_assoc; (split; [reflexivity|]);
      (split; [reflexivity|]); (split; [reflexivity|]);
      (split; [reflexivity|]); (split; [reflexivity|]); eauto.
  - eexists _, _, _. split; [reflexivity|]. simpl.
    rewrite <- !app_assoc. split; [reflexivity|].
    split; [reflexivity|]. split; [reflexivity|]. split; [reflexivity|].
    split; [reflexivity|]. eauto.
Qed.

(** One turn of the loop body, lines 128-138. *)
Lemma attempt_spec attempt s :
  exists returned s1 added,
    try_catch
      (connect chrome ;;;
       note SayReconnected ;;;
       set_reconnecting false ;;;
       ret true)
      (fun error =>
         note (SayAttemptFailed attempt error) ;;;
         (if (attempt <? MAX_RECONNECTION_RETRIES)%nat
          then backoff chrome RECONNECTION_RETRY_DELAY_MS else ret tt) ;;;
         ret false) s = Some (Normal returned, s1) /\
    journal s1 = journal s ++ added /\
    attempts_and_sleeps added =
      (if returned then [Connect]
       else if (attempt <? MAX_RECONNECTION_RETRIES)%nat
            then [Connect; Backoff RECONNECTION_RETRY_DELAY_MS] else [Connect]) /\
    failed_attempts added = (if returned then 0%nat else 1%nat) /\
    this_reconnecting s1 = (if returned then false else this_reconnecting s) /\
    returned = match attempt_error chrome (browser s) with
               | None => true
               | Some _ => false
               end /\
    ((attempt <? MAX_RECONNECTION_RETRIES)%nat = true -> returned = false ->
     browser s1 = browser_at chrome 1 (browser s)).
Proof.
  destruct (connect_spec s) as (r & s1 & added & Hc & Hj & Ha & Hf & Hr & Hb & Ho).
  unfold failed_attempts in *.
  destruct r as [[]|e].
  - exists true. eexists _, (added ++ [SayReconnected]).
    split.
    + erewrite try_catch_normal; [reflexivity|].
      erewrite bind_normal by exact Hc. reflexivity.
    + simpl. rewrite Hj, <- app_assoc. split; [reflexivity|].
      unfold attempts_and_sleeps in *.
      rewrite !List.filter_app, length_app, Ha, Hf. simpl.
      split; [reflexivity|]. split; [reflexivity|]. split; [reflexivity|].
      split; [|discriminate].
      destruct (attempt_error chrome (browser s)); [|reflexivity].
      destruct Ho as [error Ho]. discriminate.
  - exists false.
    erewrite try_catch_thrown by (erewrite bind_thrown by exact Hc; reflexivity).
    assert (false = match attempt_error chrome (browser s) with
                    | None => true
                    | Some _ => false
                    end) as Hfail
      by (destruct (attempt_error chrome (browser s)); [reflexivity|discriminate]).
    destruct (attempt <? MAX_RECONNECTION_RETRIES)%nat.
    + eexists _, (added ++ [SayAttemptFailed attempt e;
                             Backoff RECONNECTION_RETRY_DELAY_MS]).
      unfold bind, note, backoff, turn, ret. simpl.
      split; [reflexivity|]. simpl. rewrite Hj, <- !app_assoc. simpl.
      split; [reflexivity|].
      unfold attempts_and_sleeps in *.
      rewrite !List.filter_app, length_app, Ha, Hf. simpl.
      split; [reflexivity|]. split; [reflexivity|]. split; [exact Hr|].
      split; [exact Hfail|]. intros _ _. rewrite Hb. reflexivity.
    + eexists _, (added ++ [SayAttemptFailed attempt e]).
      unfold bind, note, ret. simpl.
      split; [reflexivity|]. simpl. rewrite Hj, <- !app_assoc. simpl.
      split; [reflexivity|].
      unfold attempts_and_sleeps in *.
      rewrite !List.filter_app, length_app, Ha, Hf. simpl.
      split; [reflexivity|]. split; [reflexivity|]. split; [exact Hr|].
      split; [exact Hfail|]. discriminate.
Qed.

Lemma attempt_pattern_next k :
  (1 <= k)%nat ->
  [Connect; Backoff RECONNECTION_RETRY_DELAY_MS] ++ attempt_pattern k
  = attempt_pattern (S k).
Proof.
  intros Hk. unfold attempt_pattern.
  replace (S k - 1)%nat with (S (k - 1)) by lia. simpl. reflexivity.
Qed.

(** The loop from [attempt] on, against what the attempts meet in the
    browser: it stops at the first attempt that succeeds, and runs out
    when every attempt that is left fails. *)
Lemma reconnectLoop_spec left : forall attempt s,
  (attempt + left = S MAX_RECONNECTION_RETRIES)%nat ->
  (1 <= left)%nat ->
  exists returned s' added,
    reconnectLoop chrome left attempt s = Some (Normal returned, s') /\
    journal s' = journal s ++ added /\
    this_reconnecting s' = (if returned then false else this_reconnecting s) /\
    (forall n, (n < left)%nat ->
       (forall i, (i < n)%nat ->
                  attempt_error chrome (browser_at chrome i (browser s)) <> None) ->
       attempt_error chrome (browser_at chrome n (browser s)) = None ->
       returned = true /\
       attempts_and_sleeps added = attempt_pattern (S n) /\
       failed_attempts added = n) /\
    ((forall i, (i < left)%nat ->
                attempt_error chrome (browser_at chrome i (browser s)) <> None) ->
     returned = false /\
     attempts_and_sleeps added = attempt_pattern left /\
     failed_attempts added = left).
Proof.
  unfold MAX_RECONNECTION_RETRIES.
  induction left as [|left IH]; intros attempt s Hsum Hleft; [lia|].
  destruct (attempt_spec attempt s)
    as (returned & s1 & added & Hrun & Hj & Ha & Hf & Hr & Hret & Hb).
  cbn [reconnectLoop]. erewrite bind_normal by exact Hrun.
  destruct returned.
  - assert (attempt_error chrome (browser s) = None) as Hok
      by (destruct (attempt_error chrome (browser s)); [discriminate|reflexivity]).
    exists true, s1, added. split; [reflexivity|]. split; [exact Hj|].
    split; [exact Hr|]. split.
    + intros n Hn Hbefore Hat. destruct n as [|n].
      * split; [reflexivity|]. split; [exact Ha|exact Hf].
      * exfalso. apply (Hbefore 0%nat); [lia|exact Hok].
    + intros Hall. exfalso. apply (Hall 0%nat); [lia|exact Hok].
  - assert (attempt_error chrome (browser s) <> None) as Hko
      by (destruct (attempt_error chrome (browser s)); [discriminate|discriminate]).
    destruct left as [|left].
    + assert ((attempt <? MAX_RECONNECTION_RETRIES)%nat = false) as Hlast
        by (apply Nat.ltb_ge; unfold MAX_RECONNECTION_RETRIES; lia).
      rewrite Hlast in Ha.
      exists false, s1, added. split; [reflexivity|]. split; [exact Hj|].
      split; [exact Hr|]. split.
      * intros n Hn Hbefore Hat. assert (n = 0%nat) as -> by lia.
        exfalso. exact (Hko Hat).
      * intros _. split; [reflexivity|]. split; [exact Ha|exact Hf].
    + assert ((attempt <? MAX_RECONNECTION_RETRIES)%nat = true) as Hmore
        by (apply Nat.ltb_lt; unfold MAX_RECONNECTION_RETRIES; lia).
      rewrite Hmore in Ha. specialize (Hb Hmore eq_refl).
      destruct (IH (S attempt) s1 ltac:(lia) ltac:(lia))
        as (returned & s2 & added2 & Hrun2 & Hj2 & Hr2 & Hsome & Hnone).
      rewrite Hb in Hsome, Hnone.
      exists returned, s2, (added ++ added2).
      split; [exact Hrun2|]. split; [rewrite Hj2, Hj, app_assoc; reflexivity|].
      split; [rewrite Hr2, Hr; reflexivity|]. split.
      * intros n Hn Hbefore Hat. destruct n as [|n]; [exfalso; exact (Hko Hat)|].
        destruct (Hsome n ltac:(lia)) as (Et & Ea & Ef).
        { intros i Hi. apply (Hbefore (S i)). lia. }
        { exact Hat. }
        split; [exact Et|]. split.
        -- unfold attempts_and_sleeps in *. rewrite List.filter_app, Ha, Ea.
           apply attempt_pattern_next. lia.
        -- unfold failed_attempts in *. rewrite List.filter_app, length_app, Hf, Ef.
           reflexivity.
      * intros Hall. destruct Hnone as (Et & Ea & Ef).
        { intros i Hi. apply (Hall (S i)). lia. }
        split; [exact Et|]. split.
        -- unfold attempts_and_sleeps in *. rewrite List.filter_app, Ha, Ea.
           apply attempt_pattern_next. lia.
        -- unfold failed_attempts in *. rewrite List.filter_app, length_app, Hf, Ef.
           reflexivity.
Qed.

(** A call that finds no handle and no reconnection in flight runs one
    sequence and clears the flag. *)
Lemma ensureConnected_sequence fuel s :
  this_client s = false ->
  this_reconnecting s = false ->
  exists r s' added,
    ensureConnected chrome fuel s = Some (r, s') /\
    journal s' = journal s ++ added /\
    this_reconnecting s' = false /\
    reconnect_sequence chrome (browser s) r added.
Proof.
  intros Hclient Hflag.
  set (s0 := mkSession (browser s) (clock s) (this_client s) true
                       (journal s ++ [SayReconnecting])).
  destruct (reconnectLoop_spec MAX_RECONNECTION_RETRIES 1 s0
              ltac:(reflexivity) ltac:(unfold MAX_RECONNECTION_RETRIES; lia))
    as (returned & s' & added & Hrun & Hj & Hr & Hsome & Hnone).
  assert (ensureConnected chrome fuel s =
          (returned <- reconnectLoop chrome MAX_RECONNECTION_RETRIES 1 ;;
           if returned then ret tt
           else
             set_reconnecting false ;;;
             throw (Error "Failed to reconnect to Chromium after maximum retries"))
            s0) as ->.
  { destruct fuel; cbn [ensureConnected]; unfold bind at 1, get_client;
      rewrite Hclient; unfold bind at 1, get_reconnecting; rewrite Hflag;
      reflexivity. }
  erewrite bind_normal by exact Hrun.
  assert (forall j, attempts_and_sleeps (SayReconnecting :: j) = attempts_and_sleeps j)
    as Ha by reflexivity.
  assert (forall j, failed_attempts (SayReconnecting :: j) = failed_attempts j)
    as Hf by reflexivity.
  destruct returned.
  - exists (Normal tt), s', (SayReconnecting :: added).
    split; [reflexivity|]. split; [rewrite Hj; simpl; rewrite <- app_assoc; reflexivity|].
    split; [exact Hr|]. split.
    + intros n Hn Hbefore Hat. rewrite Ha, Hf.
      destruct (Hsome n Hn Hbefore Hat) as (_ & Ea & Ef). auto.
    + intros Hall. destruct (Hnone Hall) as (E & _). discriminate.
  - eexists (Thrown _), _, (SayReconnecting :: added).
    split; [reflexivity|]. simpl.
    split; [rewrite Hj; simpl; rewrite <- app_assoc; reflexivity|].
    split; [reflexivity|]. split.
    + intros n Hn Hbefore Hat.
      destruct (Hsome n Hn Hbefore Hat) as (E & _). discriminate.
    + intros Hall. rewrite Ha, Hf.
      destruct (Hnone Hall) as (_ & Ea & Ef). auto.
Qed.

End ChromeControllerFacts.

(** C4, as stated, fails: when the browser accepts the connection and
    refuses the domains, the five attempts fail and the call throws, but
    [this.client] was assigned in each attempt and is still set. The flag
    is cleared, and yet the next call starts no sequence: it returns at
    once, without a single [connect]. *)
Lemma ensureConnected_no_fresh_sequence_with_handle :
  exists s1 s2,
    ensureConnected half_open_chrome 0 (mkSession tt 0 false false [])
    = Some (Thrown (Error "Failed to reconnect to Chromium after maximum retries"), s1) /\
    connects_of (journal s1) = 5%nat /\
    this_reconnecting s1 = false /\
    ensureConnected half_open_chrome 0 s1 = Some (Normal tt, s2) /\
    connects_of (journal s2) = 5%nat.
Proof. eexists _, _. vm_compute. repeat split; reflexivity. Qed.

(** C4, amended. Called with no live handle and no reconnection in flight,
    [ensureConnected] invokes [connect] until an attempt succeeds, five
    times at most, with a timer of 2000 ms after each attempt that failed
    but the fifth. When attempt [n + 1] is the first that the browser lets
    through, the call returns normally after [n + 1] invocations and [n]
    timers, with [n] attempts reported as failed (four failures and four
    timers when the fifth succeeds); when the browser refuses all five, it
    throws "Failed to reconnect to Chromium after maximum retries". Either
    way [this.reconnecting] is false afterwards. A later call that finds no
    handle runs a whole sequence again, from the first attempt; one that
    finds a handle returns at once. *)
Theorem ensureConnected_retries {B} (chrome : Launcher B) (fuel : nat)
    (s : Session B) :
  this_client s = false ->
  this_reconnecting s = false ->
  exists r s' added,
    ensureConnected chrome fuel s = Some (r, s') /\
    journal s' = journal s ++ added /\
    this_reconnecting s' = false /\
    (forall n, (n < 5)%nat ->
       (forall i, (i < n)%nat ->
                  attempt_error chrome (browser_at chrome i (browser s)) <> None) ->
       attempt_error chrome (browser_at chrome n (browser s)) = None ->
       r = Normal tt /\
       attempts_and_sleeps added = attempt_pattern (S n) /\
       failed_attempts added = n) /\
    ((forall i, (i < 5)%nat ->
                attempt_error chrome (browser_at chrome i (browser s)) <> None) ->
     r = Thrown (Error "Failed to reconnect to Chromium after maximum retries") /\
     attempts_and_sleeps added = attempt_pattern 5 /\
     failed_attempts added = 5%nat) /\
    (this_client s' = false ->
     forall fuel', exists r2 s2 added2,
       ensureConnected chrome fuel' s' = Some (r2, s2) /\
       journal s2 = journal s' ++ added2 /\
       reconnect_sequence chrome (browser s') r2 added2) /\
    (this_client s' = true ->
     forall fuel', ensureConnected chrome fuel' s' = Some (Normal tt, s')).
Proof.
  intros Hclient Hflag.
  destruct (ensureConnected_sequence chrome fuel s Hclient Hflag)
    as (r & s' & added & Hrun & Hj & Hr & Hsome & Hnone).
  exists r, s', added. split; [exact Hrun|]. split; [exact Hj|].
  split; [exact Hr|]. split; [exact Hsome|]. split; [exact Hnone|]. split.
  - intros Hclient' fuel'.
    destruct (ensureConnected_sequence chrome fuel' s' Hclient' Hr)
      as (r2 & s2 & added2 & Hrun2 & Hj2 & _ & Hseq).
    exists r2, s2, added2. auto.
  - intros Hclient' fuel'.
    destruct fuel'; cbn [ensureConnected]; unfold bind, get_client;
      rewrite Hclient'; reflexivity.
Qed.

(** The theorem at work: the browser comes back at the fifth attempt. *)
Lemma ensureConnected_retries_witness :
  exists r s' added,
    ensureConnected scripted_chrome 0
      (session_at [false; false; false; false; true; true]) = Some (r, s') /\
    journal s' = [] ++ added /\
    this_reconnecting s' = false /\
    (forall n, (n < 5)%nat ->
       (forall i, (i < n)%nat ->
          attempt_error scripted_chrome
            (browser_at scripted_chrome i [false; false; false; false; true; true])
          <> None) ->
       attempt_error scripted_chrome
         (browser_at scripted_chrome n [false; false; false; false; true; true]) = None ->
       r = Normal tt /\
       attempts_and_sleeps added = attempt_pattern (S n) /\
       failed_attempts added = n) /\
    ((forall i, (i < 5)%nat ->
        attempt_error scripted_chrome
          (browser_at scripted_chrome i [false; false; false; false; true; true])
        <> None) ->
     r = Thrown (Error "Failed to reconnect to Chromium after maximum retries") /\
     attempts_and_sleeps added = attempt_pattern 5 /\
     failed_attempts added = 5%nat) /\
    (this_client s' = false ->
     forall fuel', exists r2 s2 added2,
       ensureConnected scripted_chrome fuel' s' = Some (r2, s2) /\
       journal s2 = journal s' ++ added2 /\
       reconnect_sequence scripted_chrome (browser s') r2 added2) /\
    (this_client s' = true ->
     forall fuel', ensureConnected scripted_chrome fuel' s' = Some (Normal tt, s')).
Proof.
  apply (ensureConnected_retries scripted_chrome 0
           (session_at [false; false; false; false; true; true]));
    reflexivity.
Defined.

(** The scenario of the specification: [connect] fails four times and then
    succeeds; the call returns after five attempts and four backoff
    sleeps. *)
Example ensureConnected_fifth_attempt :
  exists s',
    ensureConnected scripted_chrome 0
      (session_at [false; false; false; false; true; true]) = Some (Normal tt, s') /\
    attempts_and_sleeps (journal s') =
      [Connect; Backoff 2000; Connect; Backoff 2000; Connect; Backoff 2000;
       Connect; Backoff 2000; Connect] /\
    failed_attempts (journal s') = 4%nat /\
    this_client s' = true /\ this_reconnecting s' = false /\
    8000 <= clock s'.
Proof. eexists. vm_compute. repeat split; try reflexivity. discriminate. Qed.

Example ensureConnected_gives_up :
  exists s',
    ensureConnected scripted_chrome 0 (session_at []) =
      Some (Thrown (Error "Failed to reconnect to Chromium after maximum retries"), s') /\
    attempts_and_sleeps (journal s') = attempt_pattern 5 /\
    this_client s' = false /\ this_reconnecting s' = false.
Proof. eexists. vm_compute. repeat split; reflexivity. Qed.

(** After giving up, the next call runs a whole sequence again, from the
    first attempt. *)
Example ensureConnected_starts_afresh :
  exists s' s'',
    ensureConnected scripted_chrome 0 (session_at []) =
      Some (Thrown (Error "Failed to reconnect to Chromium after maximum retries"), s') /\
    ensureConnected scripted_chrome 0 s' =
      Some (Thrown (Error "Failed to reconnect to Chromium after maximum retries"), s'') /\
    attempts_and_sleeps (journal s'') = attempt_pattern 5 ++ attempt_pattern 5 /\
    this_reconnecting s'' = false.
Proof. eexists _, _. vm_compute. repeat split; reflexivity. Qed.

(** ** ChromeController: several callers *)

Lemma sum_list_with_insert {A} (f : A -> nat) (l : list A) i a b :
  l !! i = Some a ->
  (sum_list_with f (<[i := b]> l) + f a = sum_list_with f l + f b)%nat.
Proof.
  revert i. induction l as [|c l IH]; intros [|i] Hl; simpl in *; try discriminate.
  - injection Hl as ->. lia.
  - specialize (IH i Hl). lia.
Qed.

Lemma count_where_insert {A} (f : A -> bool) (l : list A) i a b :
  l !! i = Some a ->
  (count_where f (<[i := b]> l) + (if f a then 1 else 0)
   = count_where f l + (if f b then 1 else 0))%nat.
Proof. apply sum_list_with_insert. Qed.

Lemma sum_list_with_replicate {A} (f : A -> nat) n a :
  sum_list_with f (replicate n a) = (n * f a)%nat.
Proof. induction n as [|n IH]; simpl; [reflexivity|]. rewrite IH. lia. Qed.

Lemma Coordinated_initially n : Coordinated (after_disconnect n).
Proof.
  split; simpl.
  - unfold count_where. rewrite sum_list_with_replicate. simpl. lia.
  - apply Forall_replicate. exact I.
  - rewrite sum_list_with_replicate, length_replicate.
    simpl. unfold MAX_RECONNECTION_RETRIES. lia.
Qed.

Lemma Settling_initially n : Settling (after_disconnect n).
Proof.
  split; simpl.
  - intros _. unfold count_where. rewrite sum_list_with_replicate. simpl. lia.
  - rewrite sum_list_with_replicate. simpl. unfold MAX_RECONNECTION_RETRIES. lia.
Qed.

(** The sums over the callers after caller [i] has moved. *)
Ltac account Hlook :=
  match goal with
  | |- context [<[?i := ?pc']> ?l] =>
      pose proof (count_where_insert in_sequence l i _ pc' Hlook);
      pose proof (count_where_insert is_rejected l i _ pc' Hlook);
      pose proof (count_where_insert is_enabling l i _ pc' Hlook);
      pose proof (sum_list_with_insert credit l i _ pc' Hlook);
      pose proof (sum_list_with_insert remaining l i _ pc' Hlook)
  end;
  simpl in *; unfold MAX_RECONNECTION_RETRIES in *.

Ltac coordinated :=
  split; simpl; unfold MAX_RECONNECTION_RETRIES;
  [lia
  |apply Forall_insert; simpl; unfold MAX_RECONNECTION_RETRIES; auto; lia
  |rewrite length_insert; lia].

Lemma lookup_in_range (l : list Pc) i pc :
  Forall attempt_in_range l -> l !! i = Some pc -> attempt_in_range pc.
Proof. intros Hall Hl. eapply Forall_lookup_1; eauto. Qed.

Lemma step_Coordinated m s s' :
  Coordinated s -> step m s = Some s' -> Coordinated s'.
Proof.
  intros [Hone Hrange Hcredit] Hstep. unfold MAX_RECONNECTION_RETRIES in *.
  destruct m as [ms|i|i ok|i ok|]; simpl in Hstep.
  - injection Hstep as <-. split; assumption.
  - destruct (callers s !! i) as [pc|] eqn:Hlook; [|discriminate].
    pose proof (lookup_in_range _ _ _ Hrange Hlook) as Hpc.
    unfold attempt_in_range, MAX_RECONNECTION_RETRIES in Hpc.
    destruct pc as [|wake| | |attempt wake| |]; try discriminate.
    + injection Hstep as <-. unfold enter.
      destruct (sys_client s), (sys_reconnecting s); simpl in *;
        account Hlook; coordinated.
    + destruct (wake <=? sys_clock s); [|discriminate].
      injection Hstep as <-. unfold enter.
      destruct (sys_client s), (sys_reconnecting s); simpl in *;
        account Hlook; coordinated.
    + destruct (wake <=? sys_clock s); [|discriminate].
      injection Hstep as <-. simpl in *. account Hlook. coordinated.
  - destruct (callers s !! i) as [pc|] eqn:Hlook; [|discriminate].
    pose proof (lookup_in_range _ _ _ Hrange Hlook) as Hpc.
    unfold attempt_in_range, MAX_RECONNECTION_RETRIES in Hpc.
    destruct pc as [|wake|attempt| |attempt wake| |]; try discriminate.
    destruct ok.
    + injection Hstep as <-. simpl in *. account Hlook. coordinated.
    + injection Hstep as <-. unfold attempt_failed, MAX_RECONNECTION_RETRIES.
      destruct (attempt <? 5)%nat eqn:Hlt;
        [apply Nat.ltb_lt in Hlt|apply Nat.ltb_ge in Hlt];
        destruct (sys_reconnecting s); simpl in *;
        account Hlook; coordinated.
  - destruct (callers s !! i) as [pc|] eqn:Hlook; [|discriminate].
    pose proof (lookup_in_range _ _ _ Hrange Hlook) as Hpc.
    unfold attempt_in_range, MAX_RECONNECTION_RETRIES in Hpc.
    destruct pc as [|wake| |attempt|attempt wake| |]; try discriminate.
    destruct ok.
    + injection Hstep as <-. destruct (sys_reconnecting s); simpl in *;
        account Hlook; coordinated.
    + injection Hstep as <-. unfold attempt_failed, MAX_RECONNECTION_RETRIES.
      destruct (attempt <? 5)%nat eqn:Hlt;
        [apply Nat.ltb_lt in Hlt|apply Nat.ltb_ge in Hlt];
        destruct (sys_reconnecting s); simpl in *;
        account Hlook; coordinated.
  - destruct (sys_client s); [|discriminate].
    injection Hstep as <-. split; assumption.
Qed.

Lemma remaining_only_in_sequence (l : list Pc) :
  (sum_list_with remaining l <= MAX_RECONNECTION_RETRIES * count_where in_sequence l)%nat.
Proof.
  unfold count_where, MAX_RECONNECTION_RETRIES.
  induction l as [|pc l IH]; simpl; [lia|].
  destruct pc; simpl; unfold MAX_RECONNECTION_RETRIES; lia.
Qed.

Ltac settling :=
  split; simpl; unfold MAX_RECONNECTION_RETRIES;
  [try discriminate; try (intros _); lia|lia].

Lemma step_Settling m s s' :
  Coordinated s -> Settling s -> is_disconnect m = false ->
  step m s = Some s' -> Settling s'.
Proof.
  intros [Hone Hrange _] [Henab Hbudget] Hm Hstep.
  pose proof (remaining_only_in_sequence (callers s)) as Hrem.
  unfold MAX_RECONNECTION_RETRIES in *.
  destruct m as [ms|i|i ok|i ok|]; simpl in Hstep; [| | | |discriminate].
  - injection Hstep as <-. split; assumption.
  - destruct (callers s !! i) as [pc|] eqn:Hlook; [|discriminate].
    pose proof (lookup_in_range _ _ _ Hrange Hlook) as Hpc.
    unfold attempt_in_range, MAX_RECONNECTION_RETRIES in Hpc.
    destruct pc as [|wake| | |attempt wake| |]; try discriminate.
    + injection Hstep as <-. unfold enter.
      destruct (sys_client s), (sys_reconnecting s); simpl in *;
        try specialize (Henab eq_refl); account Hlook; settling.
    + destruct (wake <=? sys_clock s); [|discriminate].
      injection Hstep as <-. unfold enter.
      destruct (sys_client s), (sys_reconnecting s); simpl in *;
        try specialize (Henab eq_refl); account Hlook; settling.
    + destruct (wake <=? sys_clock s); [|discriminate].
      injection Hstep as <-.
      destruct (sys_client s), (sys_reconnecting s); simpl in *;
        try specialize (Henab eq_refl); account Hlook; settling.
  - destruct (callers s !! i) as [pc|] eqn:Hlook; [|discriminate].
    pose proof (lookup_in_range _ _ _ Hrange Hlook) as Hpc.
    unfold attempt_in_range, MAX_RECONNECTION_RETRIES in Hpc.
    destruct pc as [|wake|attempt| |attempt wake| |]; try discriminate.
    destruct ok.
    + injection Hstep as <-.
      destruct (sys_client s), (sys_reconnecting s); simpl in *;
        try specialize (Henab eq_refl); account Hlook; settling.
    + injection Hstep as <-. unfold attempt_failed, MAX_RECONNECTION_RETRIES.
      destruct (attempt <? 5)%nat eqn:Hlt;
        [apply Nat.ltb_lt in Hlt|apply Nat.ltb_ge in Hlt];
        destruct (sys_client s), (sys_reconnecting s); simpl in *;
        try specialize (Henab eq_refl); account Hlook; settling.
  - destruct (callers s !! i) as [pc|] eqn:Hlook; [|discriminate].
    pose proof (lookup_in_range _ _ _ Hrange Hlook) as Hpc.
    unfold attempt_in_range, MAX_RECONNECTION_RETRIES in Hpc.
    destruct pc as [|wake| |attempt|attempt wake| |]; try discriminate.
    destruct ok.
    + injection Hstep as <-.
      destruct (sys_client s), (sys_reconnecting s); simpl in *;
        try specialize (Henab eq_refl); account Hlook; settling.
    + injection Hstep as <-. unfold attempt_failed, MAX_RECONNECTION_RETRIES.
      destruct (attempt <? 5)%nat eqn:Hlt;
        [apply Nat.ltb_lt in Hlt|apply Nat.ltb_ge in Hlt];
        destruct (sys_client s), (sys_reconnecting s); simpl in *;
        try specialize (Henab eq_refl); account Hlook; settling.
Qed.

Lemma play_Coordinated schedule : forall s s',
  Coordinated s -> play schedule s = Some s' -> Coordinated s'.
Proof.
  induction schedule as [|m schedule IH]; intros s s' Hs Hplay; simpl in Hplay.
  - injection Hplay as <-. exact Hs.
  - destruct (step m s) as [s1|] eqn:Hstep; [|discriminate].
    eapply IH; [eapply step_Coordinated; eauto|exact Hplay].
Qed.

Lemma play_Settling schedule : forall s s',
  Coordinated s -> Settling s ->
  forallb (fun m => negb (is_disconnect m)) schedule = true ->
  play schedule s = Some s' -> Settling s'.
Proof.
  induction schedule as [|m schedule IH]; intros s s' Hc Hs Hnone Hplay;
    simpl in Hplay, Hnone.
  - injection Hplay as <-. exact Hs.
  - destruct (step m s) as [s1|] eqn:Hstep; [|discriminate].
    apply andb_prop in Hnone as [Hm Hnone]. apply negb_true_iff in Hm.
    eapply (IH s1); [eapply step_Coordinated; eauto
                    |eapply step_Settling; eauto|exact Hnone|exact Hplay].
Qed.

Lemma play_length schedule : forall s s',
  play schedule s = Some s' -> length (callers s') = length (callers s).
Proof.
  induction schedule as [|m schedule IH]; intros s s' Hplay; simpl in Hplay.
  - injection Hplay as <-. reflexivity.
  - destruct (step m s) as [s1|] eqn:Hstep; [|discriminate].
    rewrite (IH _ _ Hplay). clear IH Hplay.
    destruct m as [ms|i|i ok|i ok|]; simpl in Hstep.
    + injection Hstep as <-. reflexivity.
    + destruct (callers s !! i) as [[|wake| | |attempt wake| |]|]; try discriminate;
        try (destruct (wake <=? sys_clock s); [|discriminate]);
        injection Hstep as <-; unfold enter;
        try (destruct (sys_client s), (sys_reconnecting s)); simpl;
        apply length_insert.
    + destruct (callers s !! i) as [[|wake|attempt| |attempt wake| |]|];
        try discriminate.
      destruct ok; injection Hstep as <-; unfold attempt_failed;
        try destruct (attempt <? MAX_RECONNECTION_RETRIES)%nat; simpl;
        apply length_insert.
    + destruct (callers s !! i) as [[|wake| |attempt|attempt wake| |]|];
        try discriminate.
      destruct ok; injection Hstep as <-; unfold attempt_failed;
        try destruct (attempt <? MAX_RECONNECTION_RETRIES)%nat; simpl;
        apply length_insert.
    + destruct (sys_client s); [|discriminate]. injection Hstep as <-. reflexivity.
Qed.

(** C2, as stated, fails: two concurrent callers after a single disconnect
    (no further disconnect happens) make ten invocations of [connect], five
    each, when all attempts fail. *)
Lemma two_callers_make_ten_connects :
  forallb (fun m => negb (is_disconnect m)) both_exhaust = true /\
  exists s,
    play both_exhaust (after_disconnect 2) = Some s /\
    sys_connects s = 10%nat /\
    callers s = [Rejected; Rejected].
Proof. split; [reflexivity|]. eexists. vm_compute. repeat split; reflexivity. Qed.

(** C2, amended. In every state that [n] concurrent callers of
    [ensureConnected] can reach after a disconnect, at most one caller is
    inside an attempt sequence, and exactly one when [this.reconnecting] is
    set: a caller that finds the flag set waits and starts no [connect] of
    its own. But the flag is cleared when a sequence gives up, and the next
    caller to look starts a sequence of its own: as long as no further
    disconnect happens, the invocations of [connect] number at most 5 for
    the first sequence plus 5 for every caller that has given up (so at
    most 5 while none has), and in any case at most 5 per caller. *)
Theorem ensureConnected_one_sequence_at_a_time (n : nat) (schedule : list Move)
    (s : System) :
  play schedule (after_disconnect n) = Some s ->
  count_where in_sequence (callers s)
    = (if sys_reconnecting s then 1%nat else 0%nat) /\
  (sys_connects s <= 5 * n)%nat /\
  (forallb (fun m => negb (is_disconnect m)) schedule = true ->
   (sys_connects s <= 5 * (1 + count_where is_rejected (callers s)))%nat).
Proof.
  intros Hplay.
  pose proof (play_Coordinated _ _ _ (Coordinated_initially n) Hplay)
    as [Hone _ Hcredit].
  pose proof (play_length _ _ _ Hplay) as Hlen. simpl in Hlen.
  rewrite length_replicate in Hlen. rewrite Hlen in Hcredit.
  unfold MAX_RECONNECTION_RETRIES in *.
  split; [exact Hone|]. split; [lia|].
  intros Hnone.
  pose proof (play_Settling _ _ _ (Coordinated_initially n) (Settling_initially n)
                Hnone Hplay) as [_ Hbudget].
  unfold MAX_RECONNECTION_RETRIES in *.
  destruct (sys_reconnecting s || sys_client s); lia.
Qed.

(** The theorem at work: three callers, the browser back at the second
    attempt. *)
Lemma ensureConnected_one_sequence_at_a_time_witness :
  exists s,
    play shared_success (after_disconnect 3) = Some s /\
    count_where in_sequence (callers s)
      = (if sys_reconnecting s then 1%nat else 0%nat) /\
    (sys_connects s <= 5 * 3)%nat /\
    (forallb (fun m => negb (is_disconnect m)) shared_success = true ->
     (sys_connects s <= 5 * (1 + count_where is_rejected (callers s)))%nat).
Proof.
  eexists. split; [vm_compute; reflexivity|].
  apply (ensureConnected_one_sequence_at_a_time 3 shared_success). reflexivity.
Defined.

(** When the sequence succeeds, the callers that waited return without an
    invocation of [connect] of their own. *)
Example waiting_callers_share_the_sequence :
  exists s,
    play shared_success (after_disconnect 3) = Some s /\
    callers s = [Resolved; Resolved; Resolved] /\
    sys_connects s = 2%nat /\
    sys_reconnecting s = false.
Proof. eexists. vm_compute. repeat split; reflexivity. Qed.

(** *** The two readings of [ensureConnected] agree for a lone caller

    Against a scripted browser, the function run on its own and the system
    of callers run with one caller make the same invocations of [connect]
    and leave the same handle and the same flag; the function returns where
    the caller is resolved and throws where it is rejected. *)

Lemma connects_of_app j1 j2 :
  connects_of (j1 ++ j2) = (connects_of j1 + connects_of j2)%nat.
Proof. unfold connects_of. rewrite List.filter_app, length_app. reflexivity. Qed.

(** The function's side, one iteration of the loop. *)
Ltac function_side :=
  unfold bind, try_catch, connect, note, turn, set_client, set_reconnecting,
    throw, backoff, ret; simpl.

Lemma timer_expired t :
  (t + RECONNECTION_RETRY_DELAY_MS - TIMER_EARLY_MS <=? t + 2000) = true.
Proof. apply Z.leb_le. unfold RECONNECTION_RETRY_DELAY_MS, TIMER_EARLY_MS. lia. Qed.

(** The system's side, the moves of that iteration. *)
Ltac system_side Hlt :=
  simpl; unfold attempt_failed, MAX_RECONNECTION_RETRIES; rewrite ?Hlt; simpl;
  rewrite ?timer_expired.

Lemma solo_loop_agrees left : forall attempt b clock0 live j t connects,
  (attempt + left = S MAX_RECONNECTION_RETRIES)%nat ->
  (1 <= left)%nat ->
  exists returned s' m',
    reconnectLoop scripted_chrome left attempt (mkSession b clock0 live true j)
      = Some (Normal returned, s') /\
    play (solo_attempts left attempt b)
         (mkSystem live true t (S connects) [Attaching attempt]) = Some m' /\
    (sys_connects m' + connects_of j = connects + connects_of (journal s'))%nat /\
    sys_client m' = this_client s' /\
    sys_reconnecting m' = false /\
    this_reconnecting s' = negb returned /\
    callers m' = [if returned then Resolved else Rejected].
Proof.
  unfold MAX_RECONNECTION_RETRIES.
  induction left as [|left IH]; intros attempt b clock0 live j t connects Hsum Hleft;
    [lia|].
  assert ((attempt <? 5)%nat = false -> left = 0%nat) as Hlast
    by (intros Hge; apply Nat.ltb_ge in Hge; lia).
  assert ((attempt <? 5)%nat = true ->
          (S attempt + left = 6)%nat /\ (1 <= left)%nat) as Hmore
    by (intros Hlt; apply Nat.ltb_lt in Hlt; lia).
  destruct b as [|[|] b']; [| destruct b' as [|[|] b'] |];
    cbn [solo_attempts reconnectLoop]; unfold MAX_RECONNECTION_RETRIES.
  - (* the script is used up: the attachment fails *)
    destruct (attempt <? 5)%nat eqn:Hlt.
    + destruct (Hmore eq_refl) as [Hsum' Hleft'].
      edestruct (IH (S attempt)) as (returned & s' & m' & Hrun & Hplay & Hc & Hrest);
        [exact Hsum'|exact Hleft'|].
      exists returned, s', m'.
      split; [function_side; exact Hrun|].
      split; [system_side Hlt; exact Hplay|].
      split; [|exact Hrest].
      rewrite !connects_of_app in Hc. unfold connects_of in *. simpl in Hc. lia.
    + rewrite (Hlast eq_refl). eexists false, _, _.
      split; [function_side; reflexivity|].
      split; [system_side Hlt; reflexivity|].
      simpl. rewrite !connects_of_app. unfold connects_of. simpl.
      repeat split; lia.
  - (* attached, and the script is used up: the enables fail *)
    destruct (attempt <? 5)%nat eqn:Hlt.
    + destruct (Hmore eq_refl) as [Hsum' Hleft'].
      edestruct (IH (S attempt)) as (returned & s' & m' & Hrun & Hplay & Hc & Hrest);
        [exact Hsum'|exact Hleft'|].
      exists returned, s', m'.
      split; [function_side; exact Hrun|].
      split; [system_side Hlt; exact Hplay|].
      split; [|exact Hrest].
      rewrite !connects_of_app in Hc. unfold connects_of in *. simpl in Hc. lia.
    + rewrite (Hlast eq_refl). eexists false, _, _.
      split; [function_side; reflexivity|].
      split; [system_side Hlt; reflexivity|].
      simpl. rewrite !connects_of_app. unfold connects_of. simpl.
      repeat split; lia.
  - (* attached and enabled *)
    eexists true, _, _.
    split; [function_side; reflexivity|].
    split; [system_side I; reflexivity|].
    simpl. rewrite !connects_of_app. unfold connects_of. simpl.
    repeat split; lia.
  - (* attached, the enables fail *)
    destruct (attempt <? 5)%nat eqn:Hlt.
    + destruct (Hmore eq_refl) as [Hsum' Hleft'].
      edestruct (IH (S attempt)) as (returned & s' & m' & Hrun & Hplay & Hc & Hrest);
        [exact Hsum'|exact Hleft'|].
      exists returned, s', m'.
      split; [function_side; exact Hrun|].
      split; [system_side Hlt; exact Hplay|].
      split; [|exact Hrest].
      rewrite !connects_of_app in Hc. unfold connects_of in *. simpl in Hc. lia.
    + rewrite (Hlast eq_refl). eexists false, _, _.
      split; [function_side; reflexivity|].
      split; [system_side Hlt; reflexivity|].
      simpl. rewrite !connects_of_app. unfold connects_of. simpl.
      repeat split; lia.
  - (* the attachment fails *)
    destruct (attempt <? 5)%nat eqn:Hlt.
    + destruct (Hmore eq_refl) as [Hsum' Hleft'].
      edestruct (IH (S attempt)) as (returned & s' & m' & Hrun & Hplay & Hc & Hrest);
        [exact Hsum'|exact Hleft'|].
      exists returned, s', m'.
      split; [function_side; exact Hrun|].
      split; [system_side Hlt; exact Hplay|].
      split; [|exact Hrest].
      rewrite !connects_of_app in Hc. unfold connects_of in *. simpl in Hc. lia.
    + rewrite (Hlast eq_refl). eexists false, _, _.
      split; [function_side; reflexivity|].
      split; [system_side Hlt; reflexivity|].
      simpl. rewrite !connects_of_app. unfold connects_of. simpl.
      repeat split; lia.
Qed.

(** A lone call: same invocations of [connect], same handle, same flag, and
    the function returns exactly where the caller ends resolved. *)
Theorem solo_call_agrees (b : list bool) :
  exists r s' m,
    ensureConnected scripted_chrome 0 (session_at b) = Some (r, s') /\
    play (solo_call b) (after_disconnect 1) = Some m /\
    sys_connects m = connects_of (journal s') /\
    sys_client m = this_client s' /\
    sys_reconnecting m = this_reconnecting s' /\
    callers m = [match r with Normal _ => Resolved | Thrown _ => Rejected end].
Proof.
  destruct (solo_loop_agrees MAX_RECONNECTION_RETRIES 1 b 0 false
              [SayReconnecting] 0 0 ltac:(reflexivity)
              ltac:(unfold MAX_RECONNECTION_RETRIES; lia))
    as (returned & s' & m & Hrun & Hplay & Hc & Hclient & Hflag & Hseq & Hpc).
  assert (ensureConnected scripted_chrome 0 (session_at b) =
          (returned <- reconnectLoop scripted_chrome MAX_RECONNECTION_RETRIES 1 ;;
           if returned then ret tt
           else
             set_reconnecting false ;;;
             throw (Error "Failed to reconnect to Chromium after maximum retries"))
            (mkSession b 0 false true [SayReconnecting])) as -> by reflexivity.
  erewrite bind_normal by exact Hrun.
  assert (play (solo_call b) (after_disconnect 1) = Some m) as Hsolo
    by (unfold solo_call; simpl; exact Hplay).
  unfold connects_of in *. simpl in Hc.
  destruct returned; simpl in *.
  - exists (Normal tt), s', m. repeat split; auto; try lia. congruence.
  - eexists (Thrown _), _, m. split; [reflexivity|]. simpl.
    repeat split; auto; lia.
Qed.

(** * Further properties of the services

    ** ElementReadinessService: waiting for readiness *)

Section ReadinessWaitingFacts.
Context {P : Type} (client : Driver P).
Implicit Types w : World P.

Lemma checkStability_timing selector initialBox w :
  runs (checkStability client selector initialBox) w
       (fun r tr w' =>
          only is_probe tr /\ now w + STABILITY_CHECK_MS - TIMER_EARLY_MS <= now w' /\
          exists b, r = Normal b).
Proof.
  eapply runs_mono; [apply checkStability_runs|].
  intros r tr w' _ (-> & Hnow & ->). split; [reflexivity|]. split; [exact Hnow|eauto].
Qed.

(** [checkElementState] only probes the page, never throws, and reports a
    stable element only after the stability window. *)
Lemma checkElementState_timing selector w :
  runs (checkElementState client selector) w
       (fun r tr w' =>
          only is_probe tr /\
          exists state, r = Normal state /\
            (stable state = true -> now w + STABILITY_CHECK_MS - TIMER_EARLY_MS <= now w')).
Proof.
  unfold checkElementState. run_step. run_step. run_step.
  destruct (settled (DOM_getDocument client (page w))) as [root|e1];
    [|run; split; [reflexivity|]; eexists; split; [reflexivity|discriminate]].
  run_step. run_step.
  destruct (settled (DOM_querySelector client root selector (page w')))
    as [nodeId|e2];
    [|run; split; [reflexivity|]; eexists; split; [reflexivity|discriminate]].
  destruct (no_node nodeId);
    [run; split; [reflexivity|]; eexists; split; [reflexivity|discriminate]|].
  run_step. run_step.
  destruct (settled (Runtime_evaluate client (ReadinessProbe selector) (page w'0)))
    as [result|e3];
    [|run; split; [reflexivity|]; eexists; split; [reflexivity|discriminate]].
  destruct (exceptionDetails result);
    [run; split; [reflexivity|]; eexists; split; [reflexivity|discriminate]|].
  destruct (value result) as [probe|];
    [|run; split; [reflexivity|]; eexists; split; [reflexivity|discriminate]].
  run_step. eapply runs_mono; [apply checkStability_timing|].
  intros r tr w3 _ (Htr & Hnow & b & ->). run.
  split; [trace_class|]. eexists; split; [reflexivity|]. simpl. intros _. lia.
Qed.

Lemma pollReady_S fuel selector startTime timeout :
  pollReady client (S fuel) selector startTime timeout =
  (t <- Date_now ;;
   if t - startTime <? timeout then
     state <- checkElementState client selector ;;
     if isReady state then
       t <- Date_now ;;
       ret {| ready := true; state := state;
              readiness_timeElapsed := t - startTime |}
     else
       sleep client POLL_INTERVAL_MS ;;;
       pollReady client fuel selector startTime timeout
   else
     finalState <- checkElementState client selector ;;
     t <- Date_now ;;
     ret {| ready := false; state := finalState;
            readiness_timeElapsed := t - startTime |}).
Proof. reflexivity. Qed.

Lemma isReady_stable st : isReady st = true -> stable st = true.
Proof. unfold isReady. intros H. apply andb_prop in H as [_ H]. exact H. Qed.

Lemma pollReady_runs fuel : forall selector startTime timeout w,
  startTime <= now w ->
  timeout - (now w - startTime) <= 49 * Z.of_nat fuel ->
  runs (pollReady client (S fuel) selector startTime timeout) w
       (fun r tr w' =>
          only is_probe tr /\
          exists result, r = Normal result /\ verdict startTime timeout w' result).
Proof.
  unfold POLL_INTERVAL_MS, TIMER_EARLY_MS.
  induction fuel as [|fuel IH]; intros selector startTime timeout w Hstart Hfuel;
    rewrite pollReady_S; run_step; run_step;
    destruct (now w - startTime <? timeout) eqn:Ht;
    try (apply Z.ltb_lt in Ht; lia).
  - apply Z.ltb_ge in Ht. run_step.
    eapply runs_mono; [apply checkElementState_timing|].
    intros r tr w1 Hev (Htr & st & -> & _). run.
    split; [trace_class|]. eexists. split; [reflexivity|].
    assert (now w <= now w1) by apply Hev.
    unfold verdict; simpl. split; [reflexivity|]. split; [discriminate|]. intros _. lia.
  - run_step. eapply runs_mono; [apply checkElementState_timing|].
    intros r tr w1 Hev (Htr & st & -> & Hstable).
    assert (now w <= now w1) by apply Hev.
    destruct (isReady st) eqn:Hready.
    + run. split; [trace_class|]. eexists. split; [reflexivity|].
      unfold verdict; simpl. split; [reflexivity|]. split; [|discriminate].
      intros _. split; [exact Hready|].
      specialize (Hstable (isReady_stable _ Hready)). lia.
    + run_step. run_step.
      eapply runs_mono; [apply IH; unfold POLL_INTERVAL_MS, TIMER_EARLY_MS in *; lia|].
      intros r tr2 w2 _ (Htr2 & result & -> & Hv).
      split; [trace_class|]. eauto.
  - apply Z.ltb_ge in Ht. run_step.
    eapply runs_mono; [apply checkElementState_timing|].
    intros r tr w1 Hev (Htr & st & -> & _). run.
    split; [trace_class|]. eexists. split; [reflexivity|].
    assert (now w <= now w1) by apply Hev.
    unfold verdict; simpl. split; [reflexivity|]. split; [discriminate|]. intros _. lia.
Qed.

Lemma pollReady_bound_S timeout :
  pollReady_bound timeout = S (S (Z.to_nat (timeout / (POLL_INTERVAL_MS - TIMER_EARLY_MS)))).
Proof. unfold pollReady_bound. lia. Qed.

Lemma pollReady_bound_enough timeout elapsed :
  0 <= elapsed ->
  timeout - elapsed
  <= 49 * Z.of_nat (S (Z.to_nat (timeout / (POLL_INTERVAL_MS - TIMER_EARLY_MS)))).
Proof.
  unfold POLL_INTERVAL_MS, TIMER_EARLY_MS. change (50 - 1) with 49. intros He.
  destruct (Z.le_gt_cases timeout 0) as [Hneg|Hpos]; [lia|].
  pose proof (Z.div_pos timeout 49 ltac:(lia) ltac:(lia)).
  pose proof (Z.mul_succ_div_gt timeout 49 ltac:(lia)). lia.
Qed.

Lemma waitForReady_runs selector timeout w :
  runs (waitForReady client selector timeout) w
       (fun r tr w' =>
          only is_probe tr /\
          exists result,
            r = Normal result /\
            verdict (now w) (default DEFAULT_TIMEOUT_MS timeout) w' result).
Proof.
  unfold waitForReady, waitForReady_fuel. run_step. run_step. run_step.
  eapply runs_mono; [apply checkElementState_timing|].
  intros r tr w1 Hev (Htr & st & -> & Hstable).
  assert (now w <= now w1) by apply Hev.
  destruct (isReady st) eqn:Hready.
  - run. split; [trace_class|]. eexists. split; [reflexivity|].
    unfold verdict; simpl. split; [reflexivity|]. split; [|discriminate].
    intros _. split; [exact Hready|].
    specialize (Hstable (isReady_stable _ Hready)). lia.
  - rewrite pollReady_bound_S.
    eapply runs_mono;
      [apply pollReady_runs; [lia|apply pollReady_bound_enough; lia]|].
    intros r tr2 w2 _ (Htr2 & result & -> & Hv).
    split; [trace_class|]. eauto.
Qed.

End ReadinessWaitingFacts.

(** Each reason is listed exactly when its flag is false, so the list is
    empty exactly for a ready state. *)
(** X1. [getBlockingReasons] lists a reason exactly when the flag it speaks
    of is false: the visibility reason iff [visible] is false, the
    enablement reason iff [enabled] is false, the stability reason iff
    [stable] is false. The list is empty exactly for the states [isReady]
    accepts. *)
Theorem getBlockingReasons_complete (st : ElementState) :
  (getBlockingReasons st = [] <-> isReady st = true) /\
  (In "element not visible (hidden or zero size)" (getBlockingReasons st)
   <-> visible st = false) /\
  (In "element disabled or readonly" (getBlockingReasons st)
   <-> enabled st = false) /\
  (In "element position unstable (still animating)" (getBlockingReasons st)
   <-> stable st = false).
Proof.
  unfold getBlockingReasons, isReady.
  destruct (visible st), (enabled st), (stable st); simpl;
    repeat split; intros; try reflexivity; try discriminate;
    try tauto; intuition discriminate.
Qed.

(** X2. [waitForReady] always returns a result and never throws, whatever
    the driver does, and it only probes the page and sleeps. A result with
    [ready] true carries a state that [isReady] accepts; a result with
    [ready] false is returned only once the timeout (5000 ms when left out)
    has passed; [timeElapsed] is the time the call took. *)
Theorem waitForReady_verdict {P} (client : Driver P) (selector : string)
    (timeout : option Z) (w : World P) :
  exists result w',
    waitForReady client selector timeout w = Some (Normal result, w') /\
    only is_probe (drop (length (trace w)) (trace w')) /\
    readiness_timeElapsed result = now w' - now w /\
    (ready result = true -> isReady (state result) = true) /\
    (ready result = false ->
       default DEFAULT_TIMEOUT_MS timeout <= readiness_timeElapsed result).
Proof.
  destruct (waitForReady_runs client selector timeout w)
    as (r & w' & tr & Hrun & Hev & Htr & result & -> & Hv).
  exists result, w'. split; [exact Hrun|].
  destruct Hev as (Htrace & _). rewrite Htrace, drop_app_length.
  destruct Hv as (He & Hr & Hn). split; [exact Htr|]. split; [exact He|].
  split; [intros H; apply Hr, H|exact Hn].
Qed.

(** X3. A positive answer of [waitForReady] is never immediate: the state
    it carries has [stable] true, which [checkElementState] only reports
    after the timer of the stability window. A timer of 100 ms takes 99 ms
    at least on [Date.now()], so [timeElapsed] is at least 99, on the fast
    path too. *)
Theorem waitForReady_ready_after_stability_window {P} (client : Driver P)
    (selector : string) (timeout : option Z) (w : World P) :
  exists result w',
    waitForReady client selector timeout w = Some (Normal result, w') /\
    (ready result = true ->
       stable (state result) = true /\
       STABILITY_CHECK_MS - TIMER_EARLY_MS <= readiness_timeElapsed result).
Proof.
  destruct (waitForReady_runs client selector timeout w)
    as (r & w' & tr & Hrun & Hev & Htr & result & -> & Hv).
  exists result, w'. split; [exact Hrun|].
  destruct Hv as (He & Hr & Hn). intros H. destruct (Hr H) as [Hready Hms].
  split; [apply isReady_stable, Hready|exact Hms].
Qed.

(** The bound is met: on a page that answers at once, with a timer that
    fires a millisecond early, the answer comes after 99 ms. *)
Example waitForReady_ready_after_99_ms :
  exists result w',
    waitForReady early_timers "#btn" None (world_at [quick_button_page] 0)
    = Some (Normal result, w') /\
    ready result = true /\ readiness_timeElapsed result = 99.
Proof. eexists _, _. vm_compute. repeat split; reflexivity. Qed.

(** X4. When the first check of [waitForReady] does not find the element
    ready and takes the whole timeout (in particular for a timeout of 0 or
    less), the loop is not entered: the state is checked once more, and the
    result is [ready: false] with that last state, whatever it shows. *)
Theorem waitForReady_deadline_in_first_check {P} (client : Driver P)
    (selector : string) (timeout : option Z) (w : World P)
    (initialState : ElementState) (w1 : World P) :
  checkElementState client selector w = Some (Normal initialState, w1) ->
  isReady initialState = false ->
  default DEFAULT_TIMEOUT_MS timeout <= now w1 - now w ->
  exists finalState w2,
    checkElementState client selector w1 = Some (Normal finalState, w2) /\
    waitForReady client selector timeout w
    = Some (Normal {| ready := false; state := finalState;
                      readiness_timeElapsed := now w2 - now w |}, w2).
Proof.
  intros Hfirst Hnot Hlate.
  destruct (checkElementState_timing client selector w1)
    as (r & w2 & tr & Hrun & _ & _ & finalState & -> & _).
  exists finalState, w2. split; [exact Hrun|].
  unfold waitForReady, waitForReady_fuel, bind at 1 2, Date_now. cbv zeta.
  rewrite Hfirst, Hnot, pollReady_bound_S, pollReady_S.
  unfold bind, Date_now, ret.
  apply Z.ltb_ge in Hlate. rewrite Hlate, Hrun. reflexivity.
Qed.

(** The theorem at work: the button appears between the two checks of a call
    with timeout 0. *)
Lemma waitForReady_deadline_in_first_check_witness :
  exists finalState w2,
    checkElementState scripted "#btn" button_appeared
    = Some (Normal finalState, w2) /\
    waitForReady scripted "#btn" (Some 0) (world_at button_appears 0)
    = Some (Normal {| ready := false; state := finalState;
                      readiness_timeElapsed :=
                        now w2 - now (world_at button_appears 0) |}, w2).
Proof.
  apply (waitForReady_deadline_in_first_check scripted "#btn" (Some 0)
           (world_at button_appears 0) notFound button_appeared);
    [reflexivity|reflexivity|vm_compute; discriminate].
Defined.

(** On that page the call answers [ready: false] with a state that is
    ready, for which [getBlockingReasons] has nothing to say. *)
Example waitForReady_not_ready_with_a_ready_state :
  exists result w',
    waitForReady scripted "#btn" (Some 0) (world_at button_appears 0)
    = Some (Normal result, w') /\
    ready result = false /\ isReady (state result) = true /\
    getBlockingReasons (state result) = [].
Proof. eexists _, _. vm_compute. repeat split; reflexivity. Qed.


(** X5. [isImmediatelyReady] never throws. It answers [true] exactly when
    the first probe shows the element visible and enabled and the stability
    probe, taken after the timer of 100 ms, shows a box within the
    tolerance; a timer of 100 ms takes 99 ms at least on [Date.now()], so a
    [true] answer comes no sooner than 99 ms after the call. *)
Theorem isImmediatelyReady_answer {P} (client : Driver P) (selector : string)
    (w : World P) :
  exists answer w',
    isImmediatelyReady client selector w = Some (Normal answer, w') /\
    answer = match first_sample client selector (page w) with
             | None => false
             | Some (probe, p) =>
                 probe_visible probe && probe_enabled probe &&
                 match second_sample client selector p with
                 | Some newBox => within_1px newBox (probe_boundingBox probe)
                 | None => false
                 end
             end /\
    (answer = true -> now w + STABILITY_CHECK_MS - TIMER_EARLY_MS <= now w').
Proof.
  destruct (runs_conj _ _ _ _ (checkElementState_runs client selector w)
              (checkElementState_timing client selector w))
    as (r & w' & tr & Hrun & _ & -> & _ & st & Hst & Hstable).
  injection Hst as <-.
  unfold isImmediatelyReady, bind, ret. rewrite Hrun.
  eexists _, w'. split; [reflexivity|]. split.
  - destruct (first_sample client selector (page w)) as [[probe p]|]; reflexivity.
  - intros H. apply Hstable, isReady_stable, H.
Qed.

(** ** WaitService: the state reported and the number of polls *)

Section ActualState.
Context {P : Type} (client : Driver P).
Implicit Types w : World P.

Lemma getActualState_spec o w :
  runs (getActualState client o) w
       (fun r tr _ =>
          never is_sleep tr /\
          match r with
          | Normal st =>
              (truthy (element o) = false -> elementFound st = false) /\
              (textFound st = Some false \/
               truthy (text o) = true /\ text_scan_value client o (textFound st))
          | Thrown error =>
              href_read_rejected client error \/ text_scan_rejected client o error
          end).
Proof.
  unfold getActualState. run_step. run_step.
  destruct (settled (Runtime_evaluate client LocationHref (page w)))
    as [urlResult|e] eqn:Hread.
  - run_step.
    assert (runs (if truthy (element o)
                  then try_catch (queryElement client (js_string (element o)))
                                 (fun _ => ret false)
                  else ret false) w'
                 (fun r tr _ =>
                    never is_sleep tr /\
                    exists b, r = Normal b /\ (truthy (element o) = false -> b = false)))
      as Hquery.
    { destruct (truthy (element o)).
      - eapply runs_mono; [apply guarded_query_runs|]. intros r tr w1 _ [Hq [b ->]].
        split; [trace_class|]. exists b. split; [reflexivity|discriminate].
      - run. split; [reflexivity|]. eauto. }
    eapply runs_mono; [exact Hquery|].
    intros r tr1 w1 _ (Hs1 & found & -> & Hfound). run_step.
    destruct (truthy (text o)) eqn:Htext.
    + run_step. run_step.
      destruct (settled (Runtime_evaluate client (TextScan (js_string (text o)))
                           (page w1))) as [result|e] eqn:Hscan.
      * destruct (exceptionDetails result) as [details|] eqn:Hdetails; run.
        -- split; [trace_class|]. split; [exact Hfound|]. left. reflexivity.
        -- split; [trace_class|]. split; [exact Hfound|]. right.
           split; [reflexivity|]. exists (page w1), result. auto.
      * split; [trace_class|]. right. split; [exact Htext|]. exists (page w1). exact Hscan.
    + run. split; [trace_class|]. split; [exact Hfound|]. left. reflexivity.
  - split; [reflexivity|]. left. exists (page w). exact Hread.
Qed.

End ActualState.

(** X6. [getActualState] never sleeps. When it returns, [elementFound] is
    false unless an element was requested, and [textFound] is either false
    or the value of a text probe that ran without raising: a script
    exception in the text probe is reported as [textFound: false], not
    thrown. It throws only what the read of the URL or the text probe was
    rejected with; a failing element lookup never makes it throw. *)
Theorem getActualState_outcome {P} (client : Driver P) (o : WaitOptions)
    (w : World P) :
  exists r w',
    getActualState client o w = Some (r, w') /\
    never is_sleep (drop (length (trace w)) (trace w')) /\
    match r with
    | Normal st =>
        (truthy (element o) = false -> elementFound st = false) /\
        (textFound st = Some false \/
         truthy (text o) = true /\ text_scan_value client o (textFound st))
    | Thrown error =>
        href_read_rejected client error \/ text_scan_rejected client o error
    end.
Proof.
  destruct (getActualState_spec client o w) as (r & w' & tr & Hrun & Hev & Hs & Hr).
  exists r, w'. split; [exact Hrun|].
  destruct Hev as (Htrace & _). rewrite Htrace, drop_app_length. auto.
Qed.

Section PollingBound.
Context {P : Type} (client : Driver P).
Variable RegExp_test : string -> string -> Completion bool.
Implicit Types w : World P.

Lemma monitorNetwork_no_sleep o w :
  runs (monitorNetwork client o) w (fun _ tr _ => never is_sleep tr).
Proof.
  unfold monitorNetwork. run_step. run_step. run_step. run_step.
  destruct (networkIdle o).
  - run_step. run_step. destruct (settled _) as [[]|e]; [run|]; reflexivity.
  - run. reflexivity.
Qed.

Lemma cleanup_no_sleep o w :
  runs (cleanup client o) w (fun _ tr _ => never is_sleep tr).
Proof.
  unfold cleanup. destruct (networkIdle o); run; reflexivity.
Qed.

Lemma sleeps_app tr1 tr2 n1 n2 :
  (count_effects is_sleep tr1 <= n1)%nat -> (count_effects is_sleep tr2 <= n2)%nat ->
  (count_effects is_sleep (tr1 ++ tr2) <= n1 + n2)%nat.
Proof. rewrite count_effects_app. lia. Qed.

Lemma no_sleeps tr : never is_sleep tr -> (count_effects is_sleep tr <= 0)%nat.
Proof. intros H. rewrite (never_count _ _ H). lia. Qed.

Lemma poll_sleeps fuel : forall n o startTime timeout cell c w,
  timeout - (now w - startTime) <= 99 * Z.of_nat fuel ->
  timeout - (now w - startTime) <= 99 * Z.of_nat n ->
  runs (poll client RegExp_test (S fuel) o startTime timeout cell c) w
       (fun _ tr _ => (count_effects is_sleep tr <= n)%nat).
Proof.
  induction fuel as [|fuel IH]; intros n o startTime timeout cell c w Hfuel Hn;
    rewrite poll_S; run_step; run_step;
    destruct (now w - startTime <? timeout) eqn:Ht;
    try (apply Z.ltb_lt in Ht; lia).
  - eapply runs_mono; [apply report_runs|].
    intros r tr w' _ (_ & Hs & _). simpl. rewrite (never_count _ _ Hs). lia.
  - apply Z.ltb_lt in Ht. destruct n as [|n]; [lia|].
    run_step. eapply runs_mono; [apply checkConditions_runs|].
    intros r1 tr1 w1 Hev1 (_ & Hs1 & _).
    assert (now w <= now w1) as Hnow1 by apply Hev1.
    destruct r1 as [c1|e1]; [|simpl; rewrite (never_count _ _ Hs1); lia].
    destruct (allConditionsMet c1).
    + eapply runs_mono; [apply report_runs|].
      intros r tr w' _ (_ & Hs & _). simpl.
      rewrite count_effects_app, (never_count _ _ Hs1), (never_count _ _ Hs). lia.
    + run_step. run_step.
      eapply runs_mono;
        [apply (IH n); unfold WAIT_CHECK_INTERVAL_MS, TIMER_EARLY_MS in *; lia|].
      intros r tr w2 _ Hcount. cbv beta in Hcount. simpl.
      rewrite !count_effects_app, (never_count _ _ Hs1). simpl.
      change (count_effects is_sleep (Sleep WAIT_CHECK_INTERVAL_MS :: tr))
        with (S (count_effects is_sleep tr)). lia.
  - eapply runs_mono; [apply report_runs|].
    intros r tr w' _ (_ & Hs & _). simpl. rewrite (never_count _ _ Hs). lia.
Qed.

Lemma waitFor_sleeps o w n :
  effective_timeout o <= 99 * Z.of_nat n ->
  runs (waitFor client RegExp_test o) w
       (fun _ tr _ => (count_effects is_sleep tr <= n)%nat).
Proof.
  intros Hn. unfold waitFor, waitFor_fuel. run_step. run_step.
  run_step. run_step. run_step.
  eapply runs_mono; [apply monitorNetwork_no_sleep|].
  intros r0 tr0 w0 Hev0 Hs0.
  assert (now w <= now w0) as Hnow0 by apply Hev0.
  destruct r0 as [cell|e0].
  - rewrite poll_bound_S.
    eapply runs_mono;
      [apply (poll_sleeps _ n o (now w) (effective_timeout o) cell
                (initial_conditions o) w0); [apply poll_bound_enough|]; lia|].
    intros r1 tr1 w1 _ Hs1. cbv beta in Hs1.
    destruct r1 as [out|e1].
    + eapply runs_mono; [apply cleanup_no_sleep|].
      intros r2 tr2 w2 _ Hs2. simpl. rewrite ?app_nil_r.
      rewrite !count_effects_app, (never_count _ _ Hs0), (never_count _ _ Hs2).
      destruct r2; cbv beta iota; lia.
    + run_step. eapply runs_mono; [apply cleanup_no_sleep|].
      intros r2 tr2 w2 _ Hs2. simpl. rewrite ?app_nil_r.
      rewrite !count_effects_app, (never_count _ _ Hs0), (never_count _ _ Hs2).
      destruct r2; cbv beta iota; lia.
  - run_step. eapply runs_mono; [apply cleanup_no_sleep|].
    intros r2 tr2 w2 _ Hs2. simpl. rewrite ?app_nil_r.
    rewrite !count_effects_app, (never_count _ _ Hs0), (never_count _ _ Hs2).
    destruct r2; cbv beta iota; lia.
Qed.

End PollingBound.

(** X7. [waitFor] sleeps between two passes and nowhere else, and a timer
    of 100 ms takes 99 ms at least on [Date.now()]; so a call whose
    effective timeout is at most [99 * n] ms sleeps at most [n] times,
    whether it succeeds, times out or throws. *)
Theorem waitFor_polls_boundedly {P} (client : Driver P)
    (RegExp_test : string -> string -> Completion bool) (o : WaitOptions)
    (w : World P) (n : nat) :
  effective_timeout o <= 99 * Z.of_nat n ->
  exists r w',
    waitFor client RegExp_test o w = Some (r, w') /\
    (count_effects is_sleep (drop (length (trace w)) (trace w')) <= n)%nat.
Proof.
  intros Hn.
  destruct (waitFor_sleeps client RegExp_test o w n Hn)
    as (r & w' & tr & Hrun & Hev & Hcount).
  exists r, w'. split; [exact Hrun|].
  destruct Hev as (Htrace & _). rewrite Htrace, drop_app_length. exact Hcount.
Qed.

(** The theorem at work: a one second wait on a page that never shows the
    text sleeps at most eleven times. *)
Lemma waitFor_polls_boundedly_witness :
  exists r w',
    waitFor scripted literal_pattern text_Saved (world_at [blank] 0) = Some (r, w') /\
    (count_effects is_sleep
       (drop (length (trace (world_at [blank] 0))) (trace w')) <= 11)%nat.
Proof.
  apply (waitFor_polls_boundedly scripted literal_pattern text_Saved
           (world_at [blank] 0) 11).
  vm_compute. discriminate.
Defined.

(** The bound is met: with timers that fire a millisecond early, a call
    with a timeout of 100 ms sleeps twice. *)
Example waitFor_sleeps_twice_in_100_ms :
  exists r w',
    waitFor early_timers literal_pattern
      (mkWaitOptions None (Some "Saved") None None (Some 100))
      (world_at [mkScene "" "about:blank" [] None None 0 []] 0) = Some (r, w') /\
    count_effects is_sleep (trace w') = 2%nat.
Proof. eexists _, _. vm_compute. split; reflexivity. Qed.

(** ** ValidationService *)

Lemma trimStart_empty s : trimStart s = "" <-> every is_white_space s = true.
Proof.
  induction s as [|c s IH]; simpl; [tauto|].
  destruct (is_white_space c); simpl; [exact IH|]. split; discriminate.
Qed.

Lemma trimEnd_empty s : trimEnd s = "" <-> every is_white_space s = true.
Proof.
  induction s as [|c s IH]; simpl; [tauto|].
  destruct (trimEnd s) eqn:E.
  - destruct (is_white_space c); simpl.
    + split; [intros _; apply IH; reflexivity|reflexivity].
    + split; discriminate.
  - split; [discriminate|]. intros H. apply andb_prop in H as [_ H].
    apply IH in H. discriminate.
Qed.

Lemma trimStart_head s :
  trimStart s = "" \/ exists c rest, trimStart s = String c rest /\ is_white_space c = false.
Proof.
  induction s as [|c s IH]; simpl; [auto|].
  destruct (is_white_space c) eqn:E; [exact IH|]. right. eauto.
Qed.

Lemma trim_empty s : trim s = "" <-> every is_white_space s = true.
Proof.
  unfold trim. rewrite trimEnd_empty.
  destruct (trimStart_head s) as [E|(c & rest & E & Hc)]; rewrite E; simpl.
  - split; [intros _; apply trimStart_empty, E|reflexivity].
  - rewrite Hc. simpl. split; [discriminate|].
    intros H. apply trimStart_empty in H. congruence.
Qed.

(** [!s || s.trim() === '']: the string is made of white space only. *)
Lemma is_blank_spec s : is_blank s = every is_white_space s.
Proof.
  unfold is_blank. destruct (every is_white_space s) eqn:E.
  - apply trim_empty in E. rewrite E. apply orb_true_r.
  - destruct s as [|c s]; [discriminate|]. simpl String.eqb at 1. simpl orb.
    apply String.eqb_neq. intros H. apply trim_empty in H. congruence.
Qed.

Lemma depth_cons c s : depth (String c s) = step_depth c 0 + depth s.
Proof.
  unfold depth, step_depth. simpl.
  destruct (Ascii.eqb_spec c "["), (Ascii.eqb_spec c "]"); subst;
    try discriminate; lia.
Qed.

Lemma step_depth_shift c k : step_depth c k = k + step_depth c 0.
Proof.
  unfold step_depth. destruct (Ascii.eqb c "["), (Ascii.eqb c "]"); lia.
Qed.

Lemma bracketLoop_cons c s k :
  bracketLoop k (String c s) =
  if step_depth c k <? 0 then None else bracketLoop (step_depth c k) s.
Proof. reflexivity. Qed.

Lemma bracketLoop_sound s : forall k k',
  0 <= k -> bracketLoop k s = Some k' ->
  k' = k + depth s /\ forall p q, s = p +:+ q -> 0 <= k + depth p.
Proof.
  induction s as [|c s IH]; intros k k' Hk.
  - simpl. intros [= <-]. split; [unfold depth; simpl; lia|].
    intros [|c p] q E; [unfold depth; simpl; lia|discriminate].
  - rewrite bracketLoop_cons. destruct (step_depth c k <? 0) eqn:Hneg; [discriminate|].
    apply Z.ltb_ge in Hneg. intros H. destruct (IH _ _ Hneg H) as [-> Hp].
    rewrite depth_cons, (step_depth_shift c k). split; [lia|].
    intros [|c' p] q E; [unfold depth; simpl; lia|].
    injection E as <- E. specialize (Hp p q E).
    rewrite depth_cons. rewrite (step_depth_shift c k) in Hp. lia.
Qed.

Lemma bracketLoop_complete s : forall k,
  (forall p q, s = p +:+ q -> 0 <= k + depth p) ->
  bracketLoop k s = Some (k + depth s).
Proof.
  induction s as [|c s IH]; intros k Hp.
  - simpl. f_equal. unfold depth; simpl; lia.
  - rewrite bracketLoop_cons.
    pose proof (Hp (String c "") s eq_refl) as H1.
    rewrite depth_cons in H1. unfold depth at 1 in H1. simpl in H1.
    rewrite (step_depth_shift c k).
    destruct (k + step_depth c 0 <? 0) eqn:Hneg; [apply Z.ltb_lt in Hneg; lia|].
    rewrite IH.
    + f_equal. rewrite depth_cons. lia.
    + intros p q E. specialize (Hp (String c p) q). rewrite depth_cons in Hp.
      simpl in Hp. rewrite E in Hp. specialize (Hp eq_refl). lia.
Qed.

(** X8. [validateSelector] accepts a selector exactly when it is not made
    of white space only (in particular not empty), has at most 1000
    characters, and its square brackets are balanced: no prefix closes more
    brackets than it opens, and all are closed at the end. Nothing else
    about the selector is checked. *)
Theorem validateSelector_accepts (selector : string) :
  validateSelector selector = Normal tt <->
  every is_white_space selector = false /\
  (String.length selector <= 1000)%nat /\
  brackets_balanced selector.
Proof.
  unfold validateSelector, brackets_balanced. rewrite is_blank_spec.
  destruct (every is_white_space selector); [split; [discriminate|intros [? _]; discriminate]|].
  destruct (1000 <? String.length selector)%nat eqn:Hlen.
  - apply Nat.ltb_lt in Hlen. split; [discriminate|]. intros (_ & H & _). lia.
  - apply Nat.ltb_ge in Hlen.
    destruct (bracketLoop 0 selector) as [k|] eqn:Hloop.
    + destruct (bracketLoop_sound _ _ _ (Z.le_refl 0) Hloop) as [-> Hp].
      destruct (0 + depth selector =? 0) eqn:Hz.
      * apply Z.eqb_eq in Hz. split; [|reflexivity]. intros _.
        split; [reflexivity|]. split; [exact Hlen|]. split.
        -- intros p q E. specialize (Hp p q E). unfold depth in Hp. lia.
        -- unfold depth in Hz. lia.
      * apply Z.eqb_neq in Hz. split; [discriminate|].
        intros (_ & _ & _ & Heq). unfold depth in Hz. lia.
    + split; [discriminate|]. intros (_ & _ & Hp & _).
      rewrite bracketLoop_complete in Hloop; [discriminate|].
      intros p q E. specialize (Hp p q E). unfold depth. lia.
Qed.

Lemma waitFor_deadline {P} (client : Driver P) RegExp_test o (w : World P) :
  runs (waitFor client RegExp_test o) w
       (fun r _ _ =>
          forall out, r = Normal out -> success out = false ->
                      effective_timeout o <= timeElapsed out).
Proof.
  unfold waitFor, waitFor_fuel. run_step. run_step.
  run_step. run_step. run_step.
  eapply runs_mono; [apply monitorNetwork_runs|].
  intros r0 tr0 w0 Hev0 (_ & Hm).
  assert (now w <= now w0) as Hnow0 by apply Hev0.
  destruct r0 as [cell|e0].
  - rewrite poll_bound_S.
    eapply runs_mono;
      [apply (poll_deadline client RegExp_test _ o (now w) (effective_timeout o) cell
                (initial_conditions o) w0); apply poll_bound_enough; lia|].
    intros r1 tr1 w1 _ Hlate.
    destruct r1 as [out|e1].
    + eapply runs_mono; [apply cleanup_runs|].
      intros r2 tr2 w2 _ (-> & _). intros out' [= <-]. apply (Hlate out eq_refl).
    + run_step. eapply runs_mono; [apply cleanup_runs|].
      intros r2 tr2 w2 _ (-> & _). discriminate.
  - run_step. eapply runs_mono; [apply cleanup_runs|].
    intros r2 tr2 w2 _ (-> & _). discriminate.
Qed.

(** X9. [validateTimeout] accepts a timeout that is left out and every
    number from 0 to 30000, whole or not; it refuses [NaN], the infinities
    and every number outside the range. [validateDimension] does the same
    with the range from 100 to 10000. *)
Theorem validateTimeout_and_validateDimension_accept
    (number_text : JsNumber -> string) (timeout dimension : option JsNumber)
    (fieldName : string) :
  (validateTimeout number_text timeout fieldName = Normal tt <->
   timeout = None \/
   exists q, timeout = Some (Finite q) /\ (0 <= q <= 30000)%Q) /\
  (validateDimension number_text dimension = Normal tt <->
   dimension = None \/
   exists q, dimension = Some (Finite q) /\ (100 <= q <= 10000)%Q).
Proof.
  assert (forall low high q,
            outside low high (Finite q) = false <->
            (inject_Z low <= q <= inject_Z high)%Q) as Hrange.
  { intros low high q. unfold outside. rewrite orb_false_iff, !not_Qltb. tauto. }
  split.
  - unfold validateTimeout. destruct timeout as [[|negative|q]|].
    + split; [discriminate|]. intros [H|(q & H & _)]; discriminate.
    + split; [discriminate|]. intros [H|(q & H & _)]; discriminate.
    + destruct (outside 0 30000 (Finite q)) eqn:Hout.
      * split; [discriminate|]. intros [H|(q' & [= <-] & Hq)]; [discriminate|].
        apply (Hrange 0 30000 q) in Hq. congruence.
      * split; [|reflexivity]. intros _. right. exists q. split; [reflexivity|].
        apply (Hrange 0 30000 q), Hout.
    + split; auto.
  - unfold validateDimension. destruct dimension as [[|negative|q]|].
    + split; [discriminate|]. intros [H|(q & H & _)]; discriminate.
    + split; [discriminate|]. intros [H|(q & H & _)]; discriminate.
    + destruct (outside 100 10000 (Finite q)) eqn:Hout.
      * split; [discriminate|]. intros [H|(q' & [= <-] & Hq)]; [discriminate|].
        apply (Hrange 100 10000 q) in Hq. congruence.
      * split; [|reflexivity]. intros _. right. exists q. split; [reflexivity|].
        apply (Hrange 100 10000 q), Hout.
    + split; auto.
Qed.

Lemma name_unit_not_white_space c : is_name_unit c = true -> is_white_space c = false.
Proof.
  destruct c as [[] [] [] [] [] [] [] []]; vm_compute; congruence.
Qed.

Lemma name_unit_not_escaped c : is_name_unit c = true -> escape_unit c = String c "".
Proof.
  destruct c as [[] [] [] [] [] [] [] []]; vm_compute; congruence.
Qed.

Lemma name_not_escaped s : every is_name_unit s = true -> escape s = s.
Proof.
  induction s as [|c s IH]; simpl; [reflexivity|].
  intros H. apply andb_prop in H as [Hc Hs].
  rewrite (name_unit_not_escaped c Hc), (IH Hs). reflexivity.
Qed.

(** X10. [validatePropertyName] accepts exactly the non-empty names made of
    ASCII letters, digits, underscores and hyphens. For an accepted name
    [JSON.stringify] has nothing to escape, so the function [getProperty]
    sends to the page reads this["<name>"], with the name as it was
    given. *)
Theorem validatePropertyName_accepts (property : string) :
  (validatePropertyName property = Normal tt <->
   property <> "" /\ every is_name_unit property = true) /\
  (validatePropertyName property = Normal tt ->
   property_reader property =
   "function() { return this[" +:+ (double_quote +:+ property +:+ double_quote)
   +:+ "]; }").
Proof.
  assert (validatePropertyName property = Normal tt <->
          property <> "" /\ every is_name_unit property = true) as Hiff.
  { unfold validatePropertyName, validPattern_test. rewrite is_blank_spec.
    destruct property as [|c s]; [simpl; split; [discriminate|intros [H _]; congruence]|].
    simpl every. simpl String.eqb. simpl negb at 2.
    destruct (is_name_unit c) eqn:Hc.
    - rewrite (name_unit_not_white_space c Hc). simpl.
      destruct (every is_name_unit s); simpl.
      + split; [intros _; split; [discriminate|reflexivity]|reflexivity].
      + split; [discriminate|intros [_ H]; discriminate].
    - simpl. destruct (is_white_space c && every is_white_space s);
        (split; [discriminate|intros [_ H]; discriminate]). }
  split; [exact Hiff|].
  intros H. apply Hiff in H as [_ H].
  unfold property_reader, quoted. rewrite (name_not_escaped _ H). reflexivity.
Qed.

(** ** Screenshot dimensions *)

Lemma Math_round_le_integer (v : Q) (m : Z) :
  (v <= inject_Z m)%Q -> (Math_round v <= inject_Z m)%Q.
Proof.
  intros Hv. unfold Math_round. rewrite <- Zle_Qle.
  destruct (Z.le_gt_cases (Qfloor (v + (1#2))) m) as [H|H]; [exact H|].
  exfalso. pose proof (Qfloor_le (v + (1#2))) as H1.
  assert (inject_Z (m + 1) <= inject_Z (Qfloor (v + (1#2))))%Q as H2
    by (rewrite <- Zle_Qle; lia).
  rewrite inject_Z_plus in H2. change (inject_Z 1) with 1%Q in H2. lra.
Qed.

Lemma Math_round_nonneg (v : Q) : (0 <= v)%Q -> (0 <= Math_round v)%Q.
Proof.
  intros Hv. unfold Math_round. change 0%Q with (inject_Z 0). rewrite <- Zle_Qle.
  change 0%Z with (Qfloor 0). apply Qfloor_resp_le. lra.
Qed.

Lemma scaled_down (m a b : Q) :
  (0 < m)%Q -> (0 < a)%Q -> (a <= b)%Q ->
  (0 <= m * (a / b) /\ m * (a / b) <= m)%Q.
Proof.
  intros Hm Ha Hab.
  assert (0 < b)%Q as Hb by lra.
  assert (0 < a / b)%Q as Hpos by (apply Qlt_shift_div_l; lra).
  assert (a / b <= 1)%Q as Hle by (apply Qle_shift_div_r; lra).
  split.
  - apply Qmult_le_0_compat; lra.
  - assert (m * (a / b) <= m * 1)%Q as H by (apply Qmult_le_l; assumption).
    rewrite Qmult_1_r in H. exact H.
Qed.

Lemma over_ratio (m w h : Q) :
  (0 < w)%Q -> (0 < h)%Q -> (m / (w / h) == m * (h / w))%Q.
Proof. intros Hw Hh. field. split; lra. Qed.

Lemma dimensions_fit (width height : Q) (maxDimension : Z) :
  (0 < width)%Q -> (0 < height)%Q -> (0 < maxDimension)%Z ->
  (0 <= dim_width (calculateOptimalDimensions width height (inject_Z maxDimension))
   <= inject_Z maxDimension)%Q /\
  (0 <= dim_height (calculateOptimalDimensions width height (inject_Z maxDimension))
   <= inject_Z maxDimension)%Q.
Proof.
  intros Hw Hh Hm. unfold calculateOptimalDimensions.
  assert (0 < inject_Z maxDimension)%Q as Hm'
    by (change 0%Q with (inject_Z 0); rewrite <- Zlt_Qlt; exact Hm).
  destruct (Qle_bool width (inject_Z maxDimension)) eqn:Hfw;
    [destruct (Qle_bool height (inject_Z maxDimension)) eqn:Hfh|]; simpl andb; cbv iota.
  - apply Qle_bool_iff in Hfw, Hfh. simpl. split; split; lra.
  - destruct (Qltb height width) eqn:Hlt; simpl.
    + apply Qltb_lt in Hlt.
      assert (Hx := scaled_down (inject_Z maxDimension) height width Hm' Hh ltac:(lra)).
      rewrite <- over_ratio in Hx by assumption.
      split; [split; lra|]. split.
      * apply Math_round_nonneg. lra.
      * apply Math_round_le_integer. lra.
    + assert (width <= height)%Q as Hle.
      { destruct (Qlt_le_dec height width) as [H|H]; [|exact H].
        apply Qltb_lt in H. congruence. }
      assert (Hx := scaled_down (inject_Z maxDimension) width height Hm' Hw Hle).
      split; [|split; lra]. split.
      * apply Math_round_nonneg. lra.
      * apply Math_round_le_integer. lra.
  - destruct (Qltb height width) eqn:Hlt; simpl.
    + apply Qltb_lt in Hlt.
      assert (Hx := scaled_down (inject_Z maxDimension) height width Hm' Hh ltac:(lra)).
      rewrite <- over_ratio in Hx by assumption.
      split; [split; lra|]. split.
      * apply Math_round_nonneg. lra.
      * apply Math_round_le_integer. lra.
    + assert (width <= height)%Q as Hle.
      { destruct (Qlt_le_dec height width) as [H|H]; [|exact H].
        apply Qltb_lt in H. congruence. }
      assert (Hx := scaled_down (inject_Z maxDimension) width height Hm' Hw Hle).
      split; [|split; lra]. split.
      * apply Math_round_nonneg. lra.
      * apply Math_round_le_integer. lra.
Qed.

(** X11. For a limit [validateDimension] accepts and a viewport of positive
    width and height, both dimensions [calculateOptimalDimensions] returns
    lie between 0 and the limit. *)
Theorem calculateOptimalDimensions_fits (number_text : JsNumber -> string)
    (width height : Q) (maxDimension : Z) :
  (0 < width)%Q -> (0 < height)%Q ->
  validateDimension number_text (Some (Finite (inject_Z maxDimension))) = Normal tt ->
  (0 <= dim_width (calculateOptimalDimensions width height (inject_Z maxDimension))
   <= inject_Z maxDimension)%Q /\
  (0 <= dim_height (calculateOptimalDimensions width height (inject_Z maxDimension))
   <= inject_Z maxDimension)%Q.
Proof.
  intros Hw Hh Hvalid. apply dimensions_fit; [exact Hw|exact Hh|].
  unfold validateDimension, outside in Hvalid.
  destruct (Qltb (inject_Z maxDimension) (inject_Z 100)
            || Qltb (inject_Z 10000) (inject_Z maxDimension)) eqn:Hout;
    [discriminate|].
  apply orb_false_elim in Hout as [H1 _]. apply not_Qltb in H1.
  rewrite <- Zle_Qle in H1. lia.
Qed.

(** The theorem at work: a viewport of 3000 by 1500 under the limit 2000. *)
Lemma calculateOptimalDimensions_fits_witness :
  (0 <= dim_width (calculateOptimalDimensions 3000 1500 (inject_Z 2000))
   <= inject_Z 2000)%Q /\
  (0 <= dim_height (calculateOptimalDimensions 3000 1500 (inject_Z 2000))
   <= inject_Z 2000)%Q.
Proof.
  apply (calculateOptimalDimensions_fits whole_number_text 3000 1500 2000);
    reflexivity.
Defined.

(** ** Sensitive fields and the browser binary *)

Lemma prefix_app (k s : string) :
  String.prefix k s = true <-> exists rest, s = k +:+ rest.
Proof.
  revert s. induction k as [|c k IH]; intros s.
  - destruct s; simpl; split; eauto.
  - destruct s as [|c' s]; simpl.
    + split; [discriminate|intros [rest H]; discriminate].
    + destruct (Ascii.ascii_dec c c') as [->|Hne].
      * rewrite IH. split; intros [rest H]; exists rest; [rewrite H; reflexivity|].
        injection H as H. exact H.
      * split; [discriminate|]. intros [rest H]. injection H as H1 H2. congruence.
Qed.

Lemma string_app_cons c (a b : string) : String c a +:+ b = String c (a +:+ b).
Proof. reflexivity. Qed.

Lemma string_app_assoc (a b c : string) : (a +:+ b) +:+ c = a +:+ (b +:+ c).
Proof.
  induction a as [|x a IH]; [reflexivity|].
  rewrite !string_app_cons, IH. reflexivity.
Qed.

(** [includes]: the needle occurs somewhere in the subject. *)
Lemma includes_spec (needle hay : string) :
  includes needle hay = true <-> exists before after, hay = before +:+ needle +:+ after.
Proof.
  induction hay as [|c hay IH].
  - cbn [includes]. rewrite orb_false_r, prefix_app. split.
    + intros [rest H]. exists "", rest. exact H.
    + intros ([|c before] & after & H); [eauto|discriminate].
  - cbn [includes]. rewrite orb_true_iff, prefix_app, IH. split.
    + intros [[rest H]|(before & after & H)].
      * exists "", rest. exact H.
      * exists (String c before), after. simpl. rewrite H. reflexivity.
    + intros ([|c' before] & after & H).
      * left. eauto.
      * right. injection H as -> H. eauto.
Qed.

Lemma includes_app_l needle a b :
  includes needle a = true -> includes needle (a +:+ b) = true.
Proof.
  rewrite !includes_spec. intros (before & after & ->).
  exists before, (after +:+ b). rewrite !string_app_assoc. reflexivity.
Qed.

Lemma includes_app_r needle a b :
  includes needle b = true -> includes needle (a +:+ b) = true.
Proof.
  rewrite !includes_spec. intros (before & after & ->).
  exists (a +:+ before), after. rewrite !string_app_assoc. reflexivity.
Qed.

Lemma lowerCase_app a b : lowerCase (a +:+ b) = lowerCase a +:+ lowerCase b.
Proof.
  induction a as [|c a IH]; [reflexivity|].
  rewrite string_app_cons. cbn [lowerCase]. rewrite IH, string_app_cons. reflexivity.
Qed.

Lemma test_alternatives_true alternatives subject :
  test_alternatives alternatives subject = true <->
  exists word, In word alternatives /\ includes word subject = true.
Proof. unfold test_alternatives. apply existsb_exists. Qed.

(** X14. [isSensitiveField] flags every field of type password, every field
    whose name or whose id contains, in any letter case, one of ssn, social,
    cvv, pin, password, and every field whose autocomplete attribute
    contains one of cc-number, cc-csc, cvv, credit-card as written. It flags
    nothing else, up to one point: the name and the id are searched
    together, as one string. *)
Theorem isSensitiveField_redacts (field : FormField) :
  (field_type field = "password" -> isSensitiveField field = true) /\
  (forall word,
     In word sensitive_names ->
     includes word (lowerCase (or_empty (field_name field))) = true \/
     includes word (lowerCase (or_empty (field_id field))) = true ->
     isSensitiveField field = true) /\
  (forall word,
     In word sensitive_autocompletes ->
     includes word (or_empty (field_autocomplete field)) = true ->
     isSensitiveField field = true) /\
  (isSensitiveField field = true ->
   field_type field = "password" \/
   (exists word, In word sensitive_names /\
      includes word (lowerCase (or_empty (field_name field)
                                +:+ or_empty (field_id field))) = true) \/
   (exists word, In word sensitive_autocompletes /\
      includes word (or_empty (field_autocomplete field)) = true)).
Proof.
  unfold isSensitiveField. split; [|split; [|split]].
  - intros ->. reflexivity.
  - intros word Hin Hword. destruct (String.eqb _ "password"); [reflexivity|].
    cbv zeta. rewrite lowerCase_app.
    rewrite (proj2 (test_alternatives_true _ _)); [reflexivity|].
    exists word. split; [exact Hin|].
    destruct Hword; [apply includes_app_l|apply includes_app_r]; assumption.
  - intros word Hin Hword. destruct (String.eqb _ "password"); [reflexivity|].
    cbv zeta. destruct (test_alternatives sensitive_names _); [reflexivity|].
    assert (truthy (field_autocomplete field) = true) as ->.
    { destruct (field_autocomplete field) as [[|c s]|]; simpl in *; try reflexivity.
      - destruct Hin as [<-|[<-|[<-|[<-|[]]]]]; discriminate.
      - destruct Hin as [<-|[<-|[<-|[<-|[]]]]]; discriminate. }
    rewrite (proj2 (test_alternatives_true _ _)); [reflexivity|]. eauto.
  - destruct (String.eqb_spec (field_type field) "password") as [E|_]; [auto|].
    cbv zeta.
    destruct (test_alternatives sensitive_names _) eqn:Hn.
    + intros _. right. left. apply test_alternatives_true in Hn. exact Hn.
    + destruct (truthy _ && test_alternatives _ _) eqn:Ha; [|discriminate].
      intros _. right. right. apply andb_prop in Ha as [_ Ha].
      apply test_alternatives_true in Ha. exact Ha.
Qed.

(** X15. A path [findChromiumPath] returns is not empty, exists on disk, and
    is the CHROMIUM_PATH variable or one of the standard paths of the
    platform. A CHROMIUM_PATH that is set and exists is returned, whatever
    else is installed. When nothing is returned, none of the standard paths
    exists. *)
Theorem findChromiumPath_exists (host : Host) :
  (forall path, findChromiumPath host = Some path ->
     path <> "" /\ existsSync host path = true /\
     (env host "CHROMIUM_PATH" = Some path \/ In path (chromiumPaths host))) /\
  (forall path, env host "CHROMIUM_PATH" = Some path -> path <> "" ->
     existsSync host path = true -> findChromiumPath host = Some path) /\
  (findChromiumPath host = None ->
     forall path, In path (chromiumPaths host) -> path <> "" ->
                  existsSync host path = false).
Proof.
  unfold findChromiumPath. split; [|split].
  - intros path.
    destruct (env host "CHROMIUM_PATH") as [override|] eqn:Henv; simpl.
    + destruct (negb (String.eqb override "") && existsSync host override) eqn:Hok.
      * intros [= <-]. apply andb_prop in Hok as [Hne Hex].
        apply negb_true_iff, String.eqb_neq in Hne. auto.
      * intros H. apply find_some in H as [Hin H].
        apply andb_prop in H as [Hne Hex].
        apply negb_true_iff, String.eqb_neq in Hne. auto.
    + intros H. apply find_some in H as [Hin H].
      apply andb_prop in H as [Hne Hex].
      apply negb_true_iff, String.eqb_neq in Hne. auto.
  - intros path -> Hne Hex. simpl.
    apply String.eqb_neq in Hne. rewrite Hne, Hex. reflexivity.
  - destruct (truthy _ && existsSync _ _) eqn:Hok.
    + destruct (env host "CHROMIUM_PATH"); [discriminate|]. simpl in Hok. discriminate.
    + intros H path Hin Hne. pose proof (find_none _ _ H path Hin) as Hp.
      cbv beta in Hp. apply String.eqb_neq in Hne. rewrite Hne in Hp. exact Hp.
Qed.

(** ** ChromeController: the handle a reconnection leaves *)

Section ConnectionHandle.
Context {B : Type} (chrome : Launcher B).
Implicit Types s : Session B.

(** What [connect] leaves in [this.client]. *)
Lemma connect_handle s :
  exists r s1,
    connect chrome s = Some (r, s1) /\
    this_reconnecting s1 = this_reconnecting s /\
    match outcome (attach chrome (browser s)) with
    | Thrown cause =>
        r = Thrown (Error ("Failed to connect to Chrome: " +:+ render cause)) /\
        this_client s1 = (if dropped (attach chrome (browser s)) then false
                          else this_client s)
    | Normal _ =>
        let enabling :=
          enable_domains chrome (browser_after (attach chrome (browser s))) in
        this_client s1 = negb (dropped enabling) /\
        match outcome enabling with
        | Normal _ => r = Normal tt
        | Thrown cause =>
            r = Thrown (Error ("Failed to connect to Chrome: " +:+ render cause))
        end
    end.
Proof.
  unfold connect, note, turn, set_client, bind, try_catch, throw. simpl.
  destruct (outcome (attach chrome (browser s))) as [[]|e1]; simpl.
  - destruct (outcome (enable_domains chrome _)) as [[]|e2]; simpl;
      eexists _, _; (split; [reflexivity|]); simpl;
      (split; [reflexivity|]); (split; [|reflexivity]);
      destruct (dropped (enable_domains chrome _)); reflexivity.
  - eexists _, _. split; [reflexivity|]. simpl. split; [reflexivity|].
    split; reflexivity.
Qed.

Lemma reconnectLoop_S left attempt :
  reconnectLoop chrome (S left) attempt =
  (returned <- attempt_body chrome attempt ;;
   if returned then ret true else reconnectLoop chrome left (S attempt)).
Proof. reflexivity. Qed.

Hypothesis no_drop_while_enabling :
  forall b, dropped (enable_domains chrome b) = false.

Lemma attempt_body_live attempt s s1 :
  attempt_body chrome attempt s = Some (Normal true, s1) -> this_client s1 = true.
Proof.
  unfold attempt_body.
  destruct (connect_handle s) as (r & s0 & Hc & _ & Hh).
  destruct r as [[]|e].
  - erewrite try_catch_normal by (erewrite bind_normal by exact Hc; reflexivity).
    intros [= <-]. simpl.
    destruct (outcome (attach chrome (browser s))) as [[]|e1].
    + destruct Hh as [Hh _]. rewrite Hh, no_drop_while_enabling. reflexivity.
    + destruct Hh as [Hh _]. discriminate.
  - erewrite try_catch_thrown by (erewrite bind_thrown by exact Hc; reflexivity).
    unfold bind, note, backoff, turn, ret.
    destruct (attempt <? MAX_RECONNECTION_RETRIES)%nat; simpl; discriminate.
Qed.

Lemma attempt_body_returns attempt s :
  exists returned s1, attempt_body chrome attempt s = Some (Normal returned, s1).
Proof.
  destruct (attempt_spec chrome attempt s) as (returned & s1 & added & H & _).
  exists returned, s1. exact H.
Qed.

Lemma reconnectLoop_live left : forall attempt s s',
  reconnectLoop chrome left attempt s = Some (Normal true, s') ->
  this_client s' = true.
Proof.
  induction left as [|left IH]; intros attempt s s'; [discriminate|].
  rewrite reconnectLoop_S.
  destruct (attempt_body_returns attempt s) as (returned & s1 & Hbody).
  erewrite bind_normal by exact Hbody.
  destruct returned.
  - intros [= <-]. eapply attempt_body_live, Hbody.
  - apply IH.
Qed.

Lemma ensureConnected_live fuel : forall s s',
  ensureConnected chrome fuel s = Some (Normal tt, s') -> this_client s' = true.
Proof.
  induction fuel as [|fuel IH]; intros s s';
    cbn [ensureConnected]; unfold bind at 1, get_client;
    destruct (this_client s) eqn:Hlive;
    try (intros [= <-]; exact Hlive);
    unfold bind at 1, get_reconnecting; destruct (this_reconnecting s) eqn:Hbusy.
  - discriminate.
  - unfold bind at 1, set_reconnecting. unfold bind at 1, note.
    match goal with |- bind (reconnectLoop chrome ?l ?a) _ ?st = _ -> _ =>
      destruct (reconnectLoop chrome l a st) as [[[[]|e] s1]|] eqn:Hloop end;
      [ erewrite bind_normal by exact Hloop; intros [= <-];
        eapply reconnectLoop_live, Hloop
      | erewrite bind_normal by exact Hloop;
        unfold bind, set_reconnecting, throw; discriminate
      | erewrite bind_thrown by exact Hloop; discriminate
      | unfold bind; rewrite Hloop; discriminate ].
  - unfold bind at 1, backoff, turn. apply IH.
  - unfold bind at 1, set_reconnecting. unfold bind at 1, note.
    match goal with |- bind (reconnectLoop chrome ?l ?a) _ ?st = _ -> _ =>
      destruct (reconnectLoop chrome l a st) as [[[[]|e] s1]|] eqn:Hloop end;
      [ erewrite bind_normal by exact Hloop; intros [= <-];
        eapply reconnectLoop_live, Hloop
      | erewrite bind_normal by exact Hloop;
        unfold bind, set_reconnecting, throw; discriminate
      | erewrite bind_thrown by exact Hloop; discriminate
      | unfold bind; rewrite Hloop; discriminate ].
Qed.

Hypothesis attach_resolves :
  forall b, outcome (attach chrome b) = Normal tt.
Hypothesis enable_rejects :
  forall b, exists cause, outcome (enable_domains chrome b) = Thrown cause.

Lemma attempt_body_half_open attempt s :
  exists s1,
    attempt_body chrome attempt s = Some (Normal false, s1) /\
    ((attempt <? MAX_RECONNECTION_RETRIES)%nat = false -> this_client s1 = true) /\
    this_reconnecting s1 = this_reconnecting s.
Proof.
  unfold attempt_body.
  destruct (connect_handle s) as (r & s0 & Hc & Hflag & Hh).
  rewrite attach_resolves in Hh. cbv zeta in Hh. destruct Hh as [Hclient Hr].
  destruct (enable_rejects (browser_after (attach chrome (browser s)))) as [cause Hcause].
  rewrite Hcause in Hr. subst r. rewrite no_drop_while_enabling in Hclient.
  erewrite try_catch_thrown by (erewrite bind_thrown by exact Hc; reflexivity).
  unfold bind, note, backoff, turn, ret.
  destruct (attempt <? MAX_RECONNECTION_RETRIES)%nat; simpl;
    eexists; (split; [reflexivity|]); simpl; (split; [|exact Hflag]).
  - discriminate.
  - intros _. exact Hclient.
Qed.

Lemma reconnectLoop_half_open left : forall attempt s,
  (1 <= left)%nat ->
  (attempt + left = S MAX_RECONNECTION_RETRIES)%nat ->
  exists s',
    reconnectLoop chrome left attempt s = Some (Normal false, s') /\
    this_client s' = true /\
    this_reconnecting s' = this_reconnecting s.
Proof.
  induction left as [|left IH]; intros attempt s Hleft Hsum; [lia|].
  rewrite reconnectLoop_S.
  destruct (attempt_body_half_open attempt s) as (s1 & Hbody & Hclient & Hflag).
  erewrite bind_normal by exact Hbody.
  destruct left as [|left].
  - exists s1. split; [reflexivity|]. split; [|exact Hflag].
    apply Hclient, Nat.ltb_ge. lia.
  - destruct (IH (S attempt) s1 ltac:(lia) ltac:(lia)) as (s' & Hrun & Hc & Hf).
    exists s'. split; [exact Hrun|]. split; [exact Hc|]. congruence.
Qed.

End ConnectionHandle.

(** X16. A call of [ensureConnected] that finds no reconnection in flight
    completes, and when no disconnect event fires while the domains are
    being enabled, a normal return leaves a client handle: the code that
    dereferences [this.client] right after it finds one. *)
Theorem ensureConnected_returns_connected {B} (chrome : Launcher B) (fuel : nat)
    (s : Session B) :
  (forall b, dropped (enable_domains chrome b) = false) ->
  this_reconnecting s = false ->
  exists r s',
    ensureConnected chrome fuel s = Some (r, s') /\
    (r = Normal tt -> this_client s' = true).
Proof.
  intros Hquiet Hflag. destruct (this_client s) eqn:Hclient.
  - exists (Normal tt), s. split; [|intros _; exact Hclient].
    destruct fuel; cbn [ensureConnected]; unfold bind, get_client;
      rewrite Hclient; reflexivity.
  - destruct (ensureConnected_sequence chrome fuel s Hclient Hflag)
      as (r & s' & added & Hrun & _).
    exists r, s'. split; [exact Hrun|]. intros ->.
    exact (ensureConnected_live chrome Hquiet fuel s s' Hrun).
Qed.

(** The theorem at work: a browser that accepts the first attempt. *)
Lemma ensureConnected_returns_connected_witness :
  exists r s',
    ensureConnected scripted_chrome 0 (session_at [true; true]) = Some (r, s') /\
    (r = Normal tt -> this_client s' = true).
Proof.
  apply (ensureConnected_returns_connected scripted_chrome 0 (session_at [true; true])).
  - intros b. destruct b as [|[|] b]; reflexivity.
  - reflexivity.
Defined.

(** Without the hypothesis the handle can be lost: when the browser drops
    the connection while the last domain is enabled, the call still
    returns normally. *)
Example ensureConnected_returns_without_handle :
  exists s',
    ensureConnected
      {| attach := fun b => mkTurn (Normal tt) b 1 false;
         enable_domains := fun b => mkTurn (Normal tt) b 1 true;
         pause := fun _ b => mkTurn (Normal tt) b 0 false |}
      0 (mkSession tt 0 false false [])
    = Some (Normal tt, s') /\
    this_client s' = false.
Proof. eexists. split; reflexivity. Qed.


(** X17. [connect] assigns [this.client] before it enables the domains, and
    nothing clears it when enabling fails. Against a browser that accepts
    the connection and refuses the domains, [ensureConnected] called with no
    handle gives up after its five attempts with "Failed to reconnect to
    Chromium after maximum retries" and leaves the handle set; every later
    call then returns at once, without a new attempt. *)
Theorem ensureConnected_keeps_half_open_handle {B} (chrome : Launcher B)
    (fuel : nat) (s : Session B) :
  this_client s = false ->
  this_reconnecting s = false ->
  (forall b, outcome (attach chrome b) = Normal tt) ->
  (forall b, exists cause, outcome (enable_domains chrome b) = Thrown cause) ->
  (forall b, dropped (enable_domains chrome b) = false) ->
  exists s',
    ensureConnected chrome fuel s
    = Some (Thrown (Error "Failed to reconnect to Chromium after maximum retries"), s') /\
    this_client s' = true /\
    this_reconnecting s' = false /\
    forall fuel', ensureConnected chrome fuel' s' = Some (Normal tt, s').
Proof.
  intros Hclient Hflag Hattach Henable Hquiet.
  set (s0 := mkSession (browser s) (clock s) (this_client s) true
                       (journal s ++ [SayReconnecting])).
  destruct (reconnectLoop_half_open chrome Hquiet Hattach Henable
              MAX_RECONNECTION_RETRIES 1%nat s0)
    as (s1 & Hloop & Hc1 & Hf1); [unfold MAX_RECONNECTION_RETRIES; lia..|].
  exists (mkSession (browser s1) (clock s1) (this_client s1) false (journal s1)).
  split; [|split; [exact Hc1|split; [reflexivity|]]].
  - destruct fuel; cbn [ensureConnected]; unfold bind at 1, get_client;
      rewrite Hclient; unfold bind at 1, get_reconnecting; rewrite Hflag;
      unfold bind at 1, set_reconnecting; unfold bind at 1, note;
      fold s0; erewrite bind_normal by exact Hloop; reflexivity.
  - intros fuel'. destruct fuel'; cbn [ensureConnected]; unfold bind, get_client;
      simpl; rewrite Hc1; reflexivity.
Qed.

(** The theorem at work. *)
Lemma ensureConnected_keeps_half_open_handle_witness :
  exists s',
    ensureConnected half_open_chrome 0 (mkSession tt 0 false false [])
    = Some (Thrown (Error "Failed to reconnect to Chromium after maximum retries"), s') /\
    this_client s' = true /\
    this_reconnecting s' = false /\
    forall fuel', ensureConnected half_open_chrome fuel' s' = Some (Normal tt, s').
Proof.
  apply (ensureConnected_keeps_half_open_handle half_open_chrome 0
           (mkSession tt 0 false false []));
    [reflexivity|reflexivity|reflexivity| |reflexivity].
  intros b. exists (Error "Target closed"). reflexivity.
Defined.

(** ** MessageDetectionService *)

Lemma duration_nonneg {P A} (r : Reply P A) : 0 <= duration r.
Proof. unfold duration. lia. Qed.

Lemma find_first {A} (f : A -> bool) (l : list A) (x : A) :
  List.find f l = Some x ->
  f x = true /\
  exists before after,
    l = before ++ x :: after /\ forall y, In y before -> f y = false.
Proof.
  induction l as [|a l IH]; simpl; [discriminate|].
  destruct (f a) eqn:Ha.
  - intros [= <-]. split; [exact Ha|]. exists [], l. split; [reflexivity|].
    intros y [].
  - intros H. destruct (IH H) as (Hx & before & after & -> & Hb).
    split; [exact Hx|]. exists (a :: before), after. split; [reflexivity|].
    intros y [<-|Hy]; [exact Ha|apply Hb, Hy].
Qed.

Lemma matches_spec options msg :
  matches options msg = true <->
  (truthy (wanted_text options) = true ->
   includes (lowerCase (or_empty (wanted_text options)))
            (lowerCase (message_text msg)) = true) /\
  (forall type, wanted_type options = Some type -> message_type msg = type) /\
  (forall severity, wanted_severity options = Some severity ->
                    message_severity msg = severity).
Proof.
  unfold matches.
  destruct (truthy (wanted_text options)); simpl.
  - destruct (includes _ _); simpl.
    + destruct (wanted_type options) as [t|], (wanted_severity options) as [sv|];
        destruct msg as [mt mtext ms msel mts]; simpl;
        try destruct t; try destruct sv; try destruct mt; try destruct ms; simpl;
        split; try discriminate; try (intros _; repeat split; congruence);
        try (intros (_ & H1 & H2); try specialize (H1 _ eq_refl);
             try specialize (H2 _ eq_refl); congruence).
    + split; [discriminate|]. intros (H & _). specialize (H eq_refl). discriminate.
  - destruct (wanted_type options) as [t|], (wanted_severity options) as [sv|];
      destruct msg as [mt mtext ms msel mts]; simpl;
      try destruct t; try destruct sv; try destruct mt; try destruct ms; simpl;
      split; try discriminate; try (intros _; repeat split; congruence);
      try (intros (_ & H1 & H2); try specialize (H1 _ eq_refl);
           try specialize (H2 _ eq_refl); congruence).
Qed.

Section MessageDetectionFacts.
Context {P : Type} (client : MessageClient P).
Implicit Types d : Desk P.

Lemma extractConsoleErrors_returns d :
  exists d',
    extractConsoleErrors client d = Some (Normal (console_part client (desk_page d)), d') /\
    desk_now d <= desk_now d' /\
    desk_calls d' = desk_calls d ++ [ConsoleScript].
Proof.
  unfold extractConsoleErrors, console_part, try_catch, bind, evaluate, ret.
  pose proof (duration_nonneg (evaluate_messages client ConsoleScript (desk_page d))).
  destruct (settled _); eexists; (split; [reflexivity|]); simpl; split; (lia || reflexivity).
Qed.

Lemma extractMessages_spec d :
  exists r d',
    extractMessages client d = Some (r, d') /\
    desk_now d <= desk_now d' /\
    match settled (evaluate_messages client ExtractScript (desk_page d)) with
    | Thrown cause =>
        r = Thrown (Error ("Message extraction failed: " +:+ render cause)) /\
        desk_calls d' = desk_calls d ++ [ExtractScript]
    | Normal result =>
        match exceptionDetails result with
        | Some details =>
            r = Thrown (Error ("Message extraction failed: Error: Failed to extract messages: "
                               +:+ details)) /\
            desk_calls d' = desk_calls d ++ [ExtractScript]
        | None =>
            r = Normal (default [] (value result) ++
                        console_part client (page_after (evaluate_messages client ExtractScript
                                                    (desk_page d)))) /\
            desk_calls d' = desk_calls d ++ [ExtractScript; ConsoleScript]
        end
    end.
Proof.
  unfold extractMessages, try_catch, bind at 1, evaluate at 1.
  pose proof (duration_nonneg (evaluate_messages client ExtractScript (desk_page d))).
  destruct (settled (evaluate_messages client ExtractScript (desk_page d)))
    as [result|cause].
  - destruct (exceptionDetails result) as [details|].
    + eexists _, _. split; [reflexivity|]. simpl. split; [lia|]. split; reflexivity.
    + match goal with |- context [bind (extractConsoleErrors client) _ ?d1] =>
        destruct (extractConsoleErrors_returns d1) as (d2 & Hc & Hnow & Hcalls) end.
      unfold bind. rewrite Hc. eexists _, _. split; [reflexivity|].
      simpl in *. split; [lia|]. split; [reflexivity|].
      rewrite Hcalls, <- app_assoc. reflexivity.
  - eexists _, _. split; [reflexivity|]. simpl. split; [lia|]. split; reflexivity.
Qed.

Lemma extractMessages_total d :
  exists r d',
    extractMessages client d = Some (r, d') /\
    desk_now d <= desk_now d' /\
    forall error, r = Thrown error ->
      exists cause, error = Error ("Message extraction failed: " +:+ cause).
Proof.
  destruct (extractMessages_spec d) as (r & d' & Hrun & Hnow & Hr).
  exists r, d'. split; [exact Hrun|]. split; [exact Hnow|].
  destruct (settled _) as [result|cause].
  - destruct (exceptionDetails result) as [details|].
    + destruct Hr as [-> _]. intros error [= <-]. eexists. reflexivity.
    + destruct Hr as [-> _]. discriminate.
  - destruct Hr as [-> _]. intros error [= <-]. eexists. reflexivity.
Qed.

Lemma pollMessages_S fuel options startTime timeout :
  pollMessages client (S fuel) options startTime timeout =
  (t <- desk_clock ;;
   if t - startTime <? timeout then
     messages <- extractMessages client ;;
     match List.find (matches options) messages with
     | Some found => ret (Some found)
     | None =>
         pause_for client 100 ;;;
         pollMessages client fuel options startTime timeout
     end
   else ret None).
Proof. reflexivity. Qed.

Lemma pollMessages_runs fuel : forall options startTime timeout d,
  timeout - (desk_now d - startTime) <= 99 * Z.of_nat fuel ->
  exists r d',
    pollMessages client (S fuel) options startTime timeout d = Some (r, d') /\
    desk_now d <= desk_now d' /\
    message_verdict client options startTime timeout r d'.
Proof.
  induction fuel as [|fuel IH]; intros options startTime timeout d Hfuel;
    rewrite pollMessages_S; unfold bind at 1, desk_clock;
    destruct (desk_now d - startTime <? timeout) eqn:Ht;
    try (apply Z.ltb_lt in Ht; lia).
  - apply Z.ltb_ge in Ht. exists (Normal None), d. split; [reflexivity|].
    split; [lia|exact Ht].
  - destruct (extractMessages_total d) as (r & d1 & Hrun & Hnow & Hthrown).
    destruct r as [messages|error].
    + erewrite bind_normal by exact Hrun.
      destruct (List.find (matches options) messages) as [found|] eqn:Hfind.
      * exists (Normal (Some found)), d1. split; [reflexivity|]. split; [exact Hnow|].
        exists d, messages. split; [exact Hrun|exact Hfind].
      * unfold bind at 1, pause_for.
        match goal with |- context [pollMessages client (S fuel) _ _ _ ?d2] =>
          destruct (IH options startTime timeout d2) as (r & d' & Hr & Hn & Hv) end.
        { simpl. unfold TIMER_EARLY_MS. lia. }
        exists r, d'. split; [exact Hr|].
        split; [simpl in Hn; unfold TIMER_EARLY_MS in Hn; lia|exact Hv].
    + erewrite bind_thrown by exact Hrun. exists (Thrown error), d1.
      split; [reflexivity|]. split; [exact Hnow|]. apply Hthrown. reflexivity.
  - apply Z.ltb_ge in Ht. exists (Normal None), d. split; [reflexivity|].
    split; [lia|exact Ht].
Qed.

End MessageDetectionFacts.

(** X18. [extractMessages] evaluates the extraction script, and the console
    script only after it. When the extraction is rejected it throws
    "Message extraction failed: <cause>"; when the script raises, the error
    is wrapped twice: "Message extraction failed: Error: Failed to extract
    messages: <text>". Otherwise it returns the messages of the page (none
    when the script has no value) followed by the console messages, and a
    console script that cannot be run contributes nothing. *)
Theorem extractMessages_outcome {P} (client : MessageClient P) (d : Desk P) :
  exists r d',
    extractMessages client d = Some (r, d') /\
    match settled (evaluate_messages client ExtractScript (desk_page d)) with
    | Thrown cause =>
        r = Thrown (Error ("Message extraction failed: " +:+ render cause)) /\
        desk_calls d' = desk_calls d ++ [ExtractScript]
    | Normal result =>
        match exceptionDetails result with
        | Some details =>
            r = Thrown (Error ("Message extraction failed: Error: Failed to extract messages: "
                               +:+ details)) /\
            desk_calls d' = desk_calls d ++ [ExtractScript]
        | None =>
            r = Normal (default [] (value result) ++
                        console_part client
                          (page_after (evaluate_messages client ExtractScript
                                         (desk_page d)))) /\
            desk_calls d' = desk_calls d ++ [ExtractScript; ConsoleScript]
        end
    end.
Proof.
  destruct (extractMessages_spec client d) as (r & d' & Hrun & _ & Hr). eauto.
Qed.

(** X19. [waitForMessage] always completes. A message it returns passes
    every filter of the request: it contains the text up to letter case
    (when a non-empty text is asked for), and has the type and the severity
    asked for; it is the first such message of the extraction the call
    ended with. It returns [null] only once the timeout (5000 ms when left
    out) has passed, and it throws only what [extractMessages] throws. *)
Theorem waitForMessage_result {P} (client : MessageClient P)
    (options : MessageOptions) (d : Desk P) :
  exists r d',
    waitForMessage client options d = Some (r, d') /\
    match r with
    | Normal (Some found) =>
        (truthy (wanted_text options) = true ->
         includes (lowerCase (or_empty (wanted_text options)))
                  (lowerCase (message_text found)) = true) /\
        (forall type, wanted_type options = Some type -> message_type found = type) /\
        (forall severity, wanted_severity options = Some severity ->
                          message_severity found = severity) /\
        exists d0 before after,
          extractMessages client d0 = Some (Normal (before ++ found :: after), d') /\
          forall earlier, In earlier before -> matches options earlier = false
    | Normal None =>
        default 5000 (wanted_timeout options) <= desk_now d' - desk_now d
    | Thrown error =>
        exists cause, error = Error ("Message extraction failed: " +:+ cause)
    end.
Proof.
  unfold waitForMessage, pollMessages_bound. cbv zeta.
  unfold bind at 1, desk_clock.
  set (timeout := default 5000 (wanted_timeout options)).
  replace (Z.to_nat (timeout / 99) + 2)%nat
    with (S (S (Z.to_nat (timeout / 99)))) by lia.
  destruct (pollMessages_runs client (S (Z.to_nat (timeout / 99)))
              options (desk_now d) timeout d)
    as (r & d' & Hrun & _ & Hv).
  { destruct (Z.le_gt_cases timeout 0) as [Hneg|Hpos]; [lia|].
    pose proof (Z.div_pos timeout 99 ltac:(lia) ltac:(lia)).
    pose proof (Z.mul_succ_div_gt timeout 99 ltac:(lia)). lia. }
  exists r, d'. split; [exact Hrun|].
  destruct r as [[found|]|error]; simpl in Hv; [|exact Hv|exact Hv].
  destruct Hv as (d0 & messages & Hextract & Hfind).
  destruct (find_first _ _ _ Hfind) as (Hfound & before & after & -> & Hearlier).
  apply matches_spec in Hfound as (Htext & Htype & Hseverity).
  split; [exact Htext|]. split; [exact Htype|]. split; [exact Hseverity|].
  exists d0, before, after. split; [exact Hextract|exact Hearlier].
Qed.

(** X20. The default of [waitForMessage] replaces a missing timeout only: a
    timeout of 0 or less is taken as given, and the call returns [null] at
    once, without evaluating anything in the page. *)
Theorem waitForMessage_expired_timeout {P} (client : MessageClient P)
    (options : MessageOptions) (d : Desk P) (t : Z) :
  wanted_timeout options = Some t ->
  t <= 0 ->
  waitForMessage client options d = Some (Normal None, d).
Proof.
  intros Ht Hneg. unfold waitForMessage, pollMessages_bound. rewrite Ht. cbv zeta.
  unfold bind at 1, desk_clock. simpl default.
  replace (Z.to_nat (t / 99) + 2)%nat with (S (S (Z.to_nat (t / 99)))) by lia.
  rewrite pollMessages_S. unfold bind at 1, desk_clock.
  replace (desk_now d - desk_now d <? t) with false
    by (symmetry; apply Z.ltb_ge; lia).
  reflexivity.
Qed.

(** The theorem at work: the toast is on the page, and a request with
    timeout 0 does not see it. *)
Lemma waitForMessage_expired_timeout_witness :
  waitForMessage toast_client saved_at_once (desk_at 0)
  = Some (Normal None, desk_at 0).
Proof.
  apply (waitForMessage_expired_timeout toast_client saved_at_once (desk_at 0) 0);
    [reflexivity|lia].
Defined.

(** With a timeout the same request finds it, letter case apart. *)
Example waitForMessage_finds_the_toast :
  exists d',
    waitForMessage toast_client (mkMessageOptions (Some "saved") None None (Some 500))
                   (desk_at 0)
    = Some (Normal (Some saved_toast), d') /\
    desk_calls d' = [ExtractScript; ConsoleScript].
Proof. eexists. vm_compute. split; reflexivity. Qed.

(** ** More of the validators, and the load of a readiness check *)

(** X21. [validateText] accepts a text exactly when it is not made of white
    space only and has at most 1000 characters; [validateRole] accepts a
    role that is left out, and otherwise exactly the twelve role names of
    its list, as written. *)
Theorem validateText_and_validateRole_accept (text : string) (role : option string) :
  (validateText text = Normal tt <->
   every is_white_space text = false /\ (String.length text <= 1000)%nat) /\
  (validateRole role = Normal tt <->
   role = None \/ exists name, role = Some name /\ In name validRoles).
Proof.
  split.
  - unfold validateText. rewrite is_blank_spec.
    destruct (every is_white_space text);
      [split; [discriminate|intros [? _]; discriminate]|].
    destruct (1000 <? String.length text)%nat eqn:Hlen.
    + apply Nat.ltb_lt in Hlen. split; [discriminate|]. intros [_ H]. lia.
    + apply Nat.ltb_ge in Hlen. split; [auto|reflexivity].
  - unfold validateRole. destruct role as [name|]; [|split; auto].
    destruct (existsb (String.eqb name) validRoles) eqn:Hin.
    + split; [|reflexivity]. intros _. right. exists name. split; [reflexivity|].
      apply existsb_exists in Hin as (r & Hr & E). apply String.eqb_eq in E.
      subst. exact Hr.
    + split; [discriminate|]. intros [H|(r & [= <-] & Hr)]; [discriminate|].
      assert (existsb (String.eqb name) validRoles = true) as E
        by (apply existsb_exists; exists name; split; [exact Hr|apply String.eqb_refl]).
      congruence.
Qed.

(** X22. [validateUrl] accepts a URL exactly when it is not blank, the
    runtime's [URL] constructor parses it, and the protocol is http: or
    https: up to letter case. The list of dangerous schemes only chooses
    the message: javascript:, data:, file: and every other scheme are
    refused alike. *)
Theorem validateUrl_accepts (URL_protocol : string -> option string) (url : string) :
  validateUrl URL_protocol url = Normal tt <->
  every is_white_space url = false /\
  exists protocol,
    URL_protocol url = Some protocol /\
    (lowerCase protocol = "http:" \/ lowerCase protocol = "https:").
Proof.
  unfold validateUrl. rewrite is_blank_spec.
  destruct (every is_white_space url);
    [split; [discriminate|intros [? _]; discriminate]|].
  destruct (URL_protocol url) as [protocol|];
    [|split; [discriminate|intros (_ & p & H & _); discriminate]].
  cbv zeta.
  destruct (existsb (String.eqb (lowerCase protocol)) dangerousSchemes) eqn:Hd.
  - split; [discriminate|]. intros (_ & p & [= <-] & [E|E]); rewrite E in Hd;
      discriminate.
  - destruct (existsb (String.eqb (lowerCase protocol)) allowedSchemes) eqn:Ha; simpl.
    + split; [|reflexivity]. intros _. split; [reflexivity|]. exists protocol.
      split; [reflexivity|]. apply existsb_exists in Ha as (s & Hs & E).
      apply String.eqb_eq in E. rewrite E.
      destruct Hs as [<-|[<-|[]]]; auto.
    + split; [discriminate|]. intros (_ & p & [= <-] & [E|E]); rewrite E in Ha;
        discriminate.
Qed.

Section ReadinessLoad.
Context {P : Type} (client : Driver P).
Implicit Types w : World P.

Lemma checkElementState_effects selector w :
  runs (checkElementState client selector) w
       (fun r tr _ =>
          count_effects is_document_read tr = 1%nat /\
          count_effects is_sleep tr =
            match first_sample client selector (page w) with
            | Some _ => 1%nat
            | None => 0%nat
            end /\
          (length tr <= 5)%nat /\
          exists state, r = Normal state).
Proof.
  unfold checkElementState, first_sample. run_step. run_step. run_step.
  destruct (settled (DOM_getDocument client (page w))) as [root|e1];
    [|run; repeat split; simpl; eauto; lia].
  run_step. run_step. rewrite <- H.
  destruct (settled (DOM_querySelector client root selector (page w')))
    as [nodeId|e2]; [|run; repeat split; simpl; eauto; lia].
  destruct (no_node nodeId); [run; repeat split; simpl; eauto; lia|].
  run_step. run_step. rewrite <- H2.
  destruct (settled (Runtime_evaluate client (ReadinessProbe selector) (page w'0)))
    as [result|e3]; [|run; repeat split; simpl; eauto; lia].
  destruct (exceptionDetails result); [run; repeat split; simpl; eauto; lia|].
  destruct (value result) as [probe|]; [|run; repeat split; simpl; eauto; lia].
  run_step. eapply runs_mono; [apply checkStability_runs|].
  intros r tr w3 _ (-> & _ & ->). run. repeat split; simpl; eauto; lia.
Qed.

Lemma pollReady_checks fuel : forall n selector startTime timeout w,
  timeout - (now w - startTime) <= 49 * Z.of_nat fuel ->
  timeout - (now w - startTime) <= 49 * Z.of_nat n ->
  runs (pollReady client (S fuel) selector startTime timeout) w
       (fun _ tr _ => (count_effects is_document_read tr <= n + 1)%nat).
Proof.
  unfold POLL_INTERVAL_MS, TIMER_EARLY_MS.
  induction fuel as [|fuel IH]; intros n selector startTime timeout w Hfuel Hn;
    rewrite pollReady_S; run_step; run_step;
    destruct (now w - startTime <? timeout) eqn:Ht;
    try (apply Z.ltb_lt in Ht; lia).
  - run_step. eapply runs_mono; [apply checkElementState_effects|].
    intros r tr w1 _ (Hc & _ & _ & st & ->). run. simpl.
    rewrite app_nil_r, Hc. lia.
  - apply Z.ltb_lt in Ht. destruct n as [|n]; [lia|].
    run_step. eapply runs_mono; [apply checkElementState_effects|].
    intros r tr w1 Hev (Hc & _ & _ & st & ->).
    assert (now w <= now w1) by apply Hev.
    destruct (isReady st).
    + run. simpl. rewrite app_nil_r, Hc. lia.
    + run_step. run_step.
      eapply runs_mono; [apply (IH n); unfold POLL_INTERVAL_MS, TIMER_EARLY_MS in *; lia|].
      intros r tr2 w2 _ Hcount. cbv beta in Hcount. simpl.
      rewrite count_effects_app, Hc.
      change (count_effects is_document_read (Sleep POLL_INTERVAL_MS :: tr2))
        with (count_effects is_document_read tr2). lia.
  - run_step. eapply runs_mono; [apply checkElementState_effects|].
    intros r tr w1 _ (Hc & _ & _ & st & ->). run. simpl.
    rewrite app_nil_r, Hc. lia.
Qed.

Lemma waitForReady_checks selector timeout w n :
  default DEFAULT_TIMEOUT_MS timeout <= 49 * Z.of_nat n ->
  runs (waitForReady client selector timeout) w
       (fun _ tr _ => (count_effects is_document_read tr <= n + 2)%nat).
Proof.
  intros Hn. unfold waitForReady, waitForReady_fuel. run_step. run_step. run_step.
  eapply runs_mono; [apply checkElementState_effects|].
  intros r tr w1 Hev (Hc & _ & _ & st & ->).
  assert (now w <= now w1) by apply Hev.
  destruct (isReady st).
  - run. simpl. rewrite app_nil_r, Hc. lia.
  - rewrite pollReady_bound_S.
    eapply runs_mono;
      [apply (pollReady_checks _ n); [apply pollReady_bound_enough|]; lia|].
    intros r tr2 w2 _ Hcount. cbv beta in Hcount. simpl.
    rewrite count_effects_app, Hc. lia.
Qed.

End ReadinessLoad.

(** X23. [checkElementState] waits for the stability window exactly when
    its first probe shows the element: an element that is missing, or whose
    probe fails, is reported without any sleep. A check makes at most five
    calls, the sleep included. *)
Theorem checkElementState_waits_only_for_found_elements {P} (client : Driver P)
    (selector : string) (w : World P) :
  exists state w',
    checkElementState client selector w = Some (Normal state, w') /\
    count_effects is_sleep (drop (length (trace w)) (trace w')) =
      match first_sample client selector (page w) with
      | Some _ => 1%nat
      | None => 0%nat
      end /\
    (length (drop (length (trace w)) (trace w')) <= 5)%nat.
Proof.
  destruct (checkElementState_effects client selector w)
    as (r & w' & tr & Hrun & Hev & _ & Hs & Hl & st & ->).
  exists st, w'. split; [exact Hrun|].
  destruct Hev as (Htrace & _). rewrite Htrace, drop_app_length. auto.
Qed.

(** X24. [waitForReady] checks the element once before the loop, once per
    pass and once after the deadline, and the timer of 50 ms between two
    passes takes 49 ms at least on [Date.now()]: with a timeout of at most
    [49 * n] ms it makes at most [n + 2] checks. *)
Theorem waitForReady_checks_boundedly {P} (client : Driver P) (selector : string)
    (timeout : option Z) (w : World P) (n : nat) :
  default DEFAULT_TIMEOUT_MS timeout <= 49 * Z.of_nat n ->
  exists result w',
    waitForReady client selector timeout w = Some (Normal result, w') /\
    (count_effects is_document_read (drop (length (trace w)) (trace w')) <= n + 2)%nat.
Proof.
  intros Hn.
  destruct (runs_conj _ _ _ _ (waitForReady_runs client selector timeout w)
              (waitForReady_checks client selector timeout w n Hn))
    as (r & w' & tr & Hrun & Hev & (_ & result & -> & _) & Hcount).
  exists result, w'. split; [exact Hrun|].
  destruct Hev as (Htrace & _). rewrite Htrace, drop_app_length. exact Hcount.
Qed.

(** The theorem at work: with a timeout of 100 ms, at most five checks. *)
Lemma waitForReady_checks_boundedly_witness :
  exists result w',
    waitForReady scripted "#btn" (Some 100) (world_at [blank] 0)
    = Some (Normal result, w') /\
    (count_effects is_document_read
       (drop (length (trace (world_at [blank] 0))) (trace w')) <= 3 + 2)%nat.
Proof.
  apply (waitForReady_checks_boundedly scripted "#btn" (Some 100)
           (world_at [blank] 0) 3).
  vm_compute. discriminate.
Defined.

(** The bound is met: with timers that fire a millisecond early, a call
    with a timeout of 50 ms checks the element four times. *)
Example waitForReady_four_checks_in_50_ms :
  exists result w',
    waitForReady early_timers "#btn" (Some 50)
      (world_at [mkScene "" "about:blank" [] None None 0 []] 0)
    = Some (Normal result, w') /\
    count_effects is_document_read (trace w') = 4%nat.
Proof. eexists _, _. vm_compute. split; reflexivity. Qed.

(** ** WaitService: what the flags stand for *)

Lemma fire_keeps ls ev t cs startTime cell :
  startTime <= t ->
  (exists last, cs !! cell = Some last /\ startTime <= last) ->
  exists last, fire ls ev t cs !! cell = Some last /\ startTime <= last.
Proof.
  intros Ht. unfold fire. revert cs.
  induction ls as [|l ls IH]; intros cs Hcell; simpl; [exact Hcell|].
  apply IH. destruct (NetEvent_eqb (fst l) ev); [|exact Hcell].
  destruct Hcell as (last & Hlast & Hle).
  destruct (decide (snd l = cell)) as [->|Hne].
  - exists t. split; [|exact Ht].
    apply list_lookup_insert_eq. eapply lookup_lt_Some, Hlast.
  - exists last. rewrite list_lookup_insert_ne by exact Hne. auto.
Qed.

Lemma deliver_keeps ls evs : forall t cs startTime cell,
  startTime <= t ->
  (exists last, cs !! cell = Some last /\ startTime <= last) ->
  exists last, snd (deliver ls t evs cs) !! cell = Some last /\ startTime <= last.
Proof.
  induction evs as [|[gap ev] evs IH]; intros t cs startTime cell Ht Hcell; simpl;
    [exact Hcell|].
  apply IH; [lia|]. apply fire_keeps; [lia|exact Hcell].
Qed.

Section Ensures.
Context {P : Type}.
Implicit Types w : World P.

Lemma later_refl w : later w w.
Proof. split; [lia|auto]. Qed.

Lemma later_trans w1 w2 w3 : later w1 w2 -> later w2 w3 -> later w1 w3.
Proof. intros [H1 K1] [H2 K2]. split; [lia|auto]. Qed.

Lemma ensures_mono {A} (m : Task P A) w (post post' : _ -> _ -> Prop) :
  ensures m w post -> (forall r w', post r w' -> post' r w') -> ensures m w post'.
Proof. intros H Hi r w' Hm. apply Hi, H, Hm. Qed.

Lemma ensures_ret {A} (a : A) w (post : _ -> _ -> Prop) :
  post (Normal a) w -> ensures (ret a) w post.
Proof. intros Hp r w' [= <- <-]. exact Hp. Qed.

Lemma ensures_throw {A} e w (post : Completion A -> _ -> Prop) :
  post (Thrown e) w -> ensures (throw e) w post.
Proof. intros Hp r w' [= <- <-]. exact Hp. Qed.

Lemma ensures_bind {A B} (m : Task P A) (k : A -> Task P B) w
    (post : Completion B -> _ -> Prop) :
  ensures m w (fun r w1 =>
                 match r with
                 | Normal a => ensures (k a) w1 post
                 | Thrown e => post (Thrown e) w1
                 end) ->
  ensures (bind m k) w post.
Proof.
  intros H r w'. unfold bind. destruct (m w) as [[[a|e] w1]|] eqn:Hm; [| |discriminate].
  - apply (H _ _ Hm).
  - intros [= <- <-]. apply (H _ _ Hm).
Qed.

Lemma ensures_try_catch {A} (m : Task P A) handler w (post : _ -> _ -> Prop) :
  ensures m w (fun r w1 =>
                 match r with
                 | Normal a => post (Normal a) w1
                 | Thrown e => ensures (handler e) w1 post
                 end) ->
  ensures (try_catch m handler) w post.
Proof.
  intros H r w'. unfold try_catch.
  destruct (m w) as [[[a|e] w1]|] eqn:Hm; [| |discriminate].
  - intros [= <- <-]. apply (H _ _ Hm).
  - apply (H _ _ Hm).
Qed.

Lemma ensures_try_finally {A} (m : Task P A) cleanup w (post : _ -> _ -> Prop) :
  ensures m w (fun r w1 =>
                 ensures cleanup w1 (fun r2 w2 =>
                   match r2 with
                   | Normal _ => post r w2
                   | Thrown e => post (Thrown e) w2
                   end)) ->
  ensures (try_finally m cleanup) w post.
Proof.
  intros H r w'. unfold try_finally.
  destruct (m w) as [[c w1]|] eqn:Hm; [|discriminate].
  destruct (cleanup w1) as [[[u|e] w2]|] eqn:Hc; [| |discriminate];
    intros [= <- <-]; apply (H _ _ Hm _ _ Hc).
Qed.

Lemma ensures_Date_now w (post : _ -> _ -> Prop) :
  post (Normal (now w)) w -> ensures Date_now w post.
Proof. intros Hp r w' [= <- <-]. exact Hp. Qed.

Lemma ensures_read_cell c w (post : _ -> _ -> Prop) :
  post (Normal (default 0 (cells w !! c))) w -> ensures (read_cell c) w post.
Proof. intros Hp r w' [= <- <-]. exact Hp. Qed.

Lemma ensures_new_cell t w (post : _ -> _ -> Prop) :
  (forall w', later w w' -> now w' = now w ->
              cells w' !! length (cells w) = Some t ->
              post (Normal (length (cells w))) w') ->
  ensures (new_cell t) w post.
Proof.
  intros Hp r w' [= <- <-]. apply Hp; simpl.
  - split; [simpl; lia|]. intros startTime cell (Ht & last & Hl & Hle).
    split; [exact Ht|]. exists last. simpl. split; [|exact Hle].
    apply lookup_app_l_Some, Hl.
  - reflexivity.
  - rewrite lookup_app_r by lia. rewrite Nat.sub_diag. reflexivity.
Qed.

Lemma ensures_subscribe ev c w (post : _ -> _ -> Prop) :
  (forall w', later w w' -> post (Normal tt) w') -> ensures (subscribe ev c) w post.
Proof.
  intros Hp r w' [= <- <-]. apply Hp. split; [simpl; lia|].
  intros startTime cell H. exact H.
Qed.

Lemma ensures_log e w (post : _ -> _ -> Prop) :
  (forall w', later w w' -> post (Normal tt) w') -> ensures (log e) w post.
Proof.
  intros Hp r w' [= <- <-]. apply Hp. split; [simpl; lia|].
  intros startTime cell H. exact H.
Qed.

Lemma ensures_await {A} what (call : P -> Reply P A) w (post : _ -> _ -> Prop) :
  (forall w', later w w' -> post (settled (call (page w))) w') ->
  ensures (await what call) w post.
Proof.
  intros Hp r w'. unfold await.
  destruct (deliver (listeners w) (now w) (heard (call (page w))) (cells w))
    as [t cs] eqn:Hd.
  intros [= <- <-]. apply Hp.
  pose proof (deliver_spec (listeners w) (now w) (heard (call (page w))) (cells w))
    as [Ht _]. rewrite Hd in Ht. simpl in Ht.
  split; [simpl; lia|].
  intros startTime cell (Hs & Hcell). split; [simpl; lia|]. simpl.
  pose proof (deliver_keeps (listeners w) (heard (call (page w))) (now w) (cells w)
                startTime cell Hs Hcell) as H.
  rewrite Hd in H. exact H.
Qed.

Lemma ensures_sleep (client : Driver P) ms w (post : _ -> _ -> Prop) :
  (forall w', later w w' -> post (Normal tt) w') -> ensures (sleep client ms) w post.
Proof.
  intros Hp r w'. unfold sleep, await.
  destruct (deliver (listeners w) (now w) (heard (idle client ms (page w))) (cells w))
    as [t cs] eqn:Hd.
  intros [= <- <-]. apply Hp.
  pose proof (deliver_spec (listeners w) (now w) (heard (idle client ms (page w)))
                (cells w)) as [Ht _]. rewrite Hd in Ht. simpl in Ht.
  split; [simpl; lia|].
  intros startTime cell (Hs & Hcell). split; [simpl; lia|]. simpl.
  pose proof (deliver_keeps (listeners w) (heard (idle client ms (page w))) (now w)
                (cells w) startTime cell Hs Hcell) as H.
  rewrite Hd in H. exact H.
Qed.

End Ensures.

(** One step of a task, for [ensures]. *)
Ltac ensure_step :=
  lazymatch goal with
  | |- ensures (bind _ _) _ _ => apply ensures_bind
  | |- ensures (ret _) _ _ => apply ensures_ret
  | |- ensures (throw _) _ _ => apply ensures_throw
  | |- ensures (try_catch _ _) _ _ => apply ensures_try_catch
  | |- ensures (try_finally _ _) _ _ => apply ensures_try_finally
  | |- ensures Date_now _ _ => apply ensures_Date_now
  | |- ensures (read_cell _) _ _ => apply ensures_read_cell
  | |- ensures (new_cell _) _ _ => apply ensures_new_cell; intros ? ? ? ?
  | |- ensures (subscribe _ _) _ _ => apply ensures_subscribe; intros ? ?
  | |- ensures (log _) _ _ => apply ensures_log; intros ? ?
  | |- ensures (sleep _ _) _ _ => apply ensures_sleep; intros ? ?
  | |- ensures (await _ _) _ _ => apply ensures_await; intros ? ?
  end.

Ltac ensure :=
  repeat first
    [ ensure_step
    | progress cbv beta
    | match goal with
      | |- match ?c with Normal _ => _ | Thrown _ => _ end => destruct c
      end ].

(** A variable that held a recent time still holds one. *)
Ltac carry :=
  first
    [ assumption
    | match goal with
      | H : later ?a ?b |- activity_since _ _ ?b => apply (proj2 H); carry
      end ].

Ltac later_chain :=
  repeat match goal with
    | H1 : later ?a ?b, H2 : later ?b ?c |- _ =>
        lazymatch goal with
        | H3 : later a c |- _ => fail
        | _ => pose proof (later_trans _ _ _ H1 H2)
        end
    end;
  try assumption; try apply later_refl.

Section NetworkIdleness.
Context {P : Type} (client : Driver P).
Variable RegExp_test : string -> string -> Completion bool.
Implicit Types w : World P.

Lemma guarded_query_later selector w0 w :
  later w0 w ->
  ensures (try_catch (queryElement client selector) (fun _ => ret false)) w
          (fun r w' => later w0 w' /\ exists found, r = Normal found).
Proof.
  intros H0. unfold queryElement. ensure; (split; [later_chain|eauto]).
Qed.

Lemma checkElement_later o c w0 w :
  later w0 w ->
  ensures (checkElement client o c) w
          (fun r w' => later w0 w' /\
                       exists c', r = Normal c' /\ c_networkIdle c' = c_networkIdle c).
Proof.
  intros H0. unfold checkElement.
  destruct (truthy (element o) && unmet (c_element c)).
  - ensure_step. eapply ensures_mono; [apply guarded_query_later, H0|].
    intros r w1 (H1 & found & ->). ensure. split; [exact H1|]. eauto.
  - ensure. split; [exact H0|]. eauto.
Qed.

Lemma checkText_later o c w0 w :
  later w0 w ->
  ensures (checkText client o c) w
          (fun r w' => later w0 w' /\
                       forall c', r = Normal c' -> c_networkIdle c' = c_networkIdle c).
Proof.
  intros H0. unfold checkText.
  destruct (truthy (text o) && unmet (c_text c)).
  - ensure_step. ensure_step.
    destruct (settled _) as [result|e].
    + destruct (exceptionDetails result); [ensure; split; [later_chain|discriminate]|].
      destruct (value result) as [[|]|]; ensure;
        (split; [later_chain|intros c' [= <-]; reflexivity]).
    + split; [later_chain|discriminate].
  - ensure. split; [exact H0|]. intros c' [= <-]. reflexivity.
Qed.

Lemma checkUrl_later o c w0 w :
  later w0 w ->
  ensures (checkUrl client RegExp_test o c) w
          (fun r w' => later w0 w' /\
                       forall c', r = Normal c' -> c_networkIdle c' = c_networkIdle c).
Proof.
  intros H0. unfold checkUrl.
  destruct (truthy (url o) && unmet (c_url c)).
  - ensure_step. ensure_step.
    destruct (settled _) as [result|e].
    + destruct (RegExp_test _ _) as [[|]|e]; ensure;
        (split; [later_chain|try discriminate; intros c' [= <-]; reflexivity]).
    + split; [later_chain|discriminate].
  - ensure. split; [exact H0|]. intros c' [= <-]. reflexivity.
Qed.

Lemma idle_is_earned_later idleFor startTime c c' w w' :
  later w w' -> c_networkIdle c' = c_networkIdle c ->
  idle_is_earned idleFor startTime c w -> idle_is_earned idleFor startTime c' w'.
Proof.
  unfold idle_is_earned. intros [Hnow _] -> H Hflag. specialize (H Hflag). lia.
Qed.

Lemma checkNetworkIdle_earned o idleFor startTime cell c w :
  networkIdle o = Some idleFor ->
  activity_since startTime cell w ->
  idle_is_earned idleFor startTime c w ->
  ensures (checkNetworkIdle o cell c) w
          (fun r w' => w' = w /\
                       exists c', r = Normal c' /\ idle_is_earned idleFor startTime c' w).
Proof.
  intros Ho (Hs & last & Hcell & Hlast) Hc. unfold checkNetworkIdle. rewrite Ho.
  destruct (unmet (c_networkIdle c)).
  - ensure_step. ensure_step. ensure_step. ensure_step.
    rewrite Hcell. simpl default.
    destruct (idleFor <=? now w - last) eqn:Hidle; ensure.
    + split; [reflexivity|]. eexists. split; [reflexivity|].
      intros _. apply Z.leb_le in Hidle. lia.
    + split; [reflexivity|]. eauto.
  - ensure. split; [reflexivity|]. eauto.
Qed.

Lemma checkConditions_earned o idleFor startTime cell c w :
  networkIdle o = Some idleFor ->
  activity_since startTime cell w ->
  idle_is_earned idleFor startTime c w ->
  ensures (checkConditions client RegExp_test o cell c) w
          (fun r w' => later w w' /\
                       forall c', r = Normal c' -> idle_is_earned idleFor startTime c' w').
Proof.
  intros Ho Hs Hc. unfold checkConditions. ensure_step.
  eapply ensures_mono; [apply checkElement_later, later_refl|].
  intros r1 w1 (H1 & c1 & -> & Hf1). ensure_step.
  eapply ensures_mono; [apply checkText_later, H1|].
  intros r2 w2 (H2 & Hf2). destruct r2 as [c2|e2]; [|split; [exact H2|discriminate]].
  ensure_step. eapply ensures_mono; [apply checkUrl_later, H2|].
  intros r3 w3 (H3 & Hf3). destruct r3 as [c3|e3]; [|split; [exact H3|discriminate]].
  eapply ensures_mono;
    [apply (checkNetworkIdle_earned o idleFor startTime cell c3 w3 Ho)|].
  - apply H3, Hs.
  - eapply idle_is_earned_later; [exact H3| |exact Hc].
    rewrite (Hf3 _ eq_refl), (Hf2 _ eq_refl), Hf1. reflexivity.
  - intros r4 w4 (-> & c4 & -> & H4). split; [exact H3|].
    intros c' [= <-]. exact H4.
Qed.

Lemma getActualState_later o w0 w :
  later w0 w ->
  ensures (getActualState client o) w (fun _ w' => later w0 w').
Proof.
  intros H0. unfold getActualState. ensure_step. ensure_step.
  destruct (settled _) as [urlResult|e]; [|later_chain].
  ensure_step.
  assert (ensures (if truthy (element o)
                   then try_catch (queryElement client (js_string (element o)))
                                  (fun _ => ret false)
                   else ret false) w'
                  (fun r w1 => later w0 w1 /\ exists found, r = Normal found)) as Hq.
  { destruct (truthy (element o)).
    - apply guarded_query_later. later_chain.
    - ensure. split; [later_chain|eauto]. }
  eapply ensures_mono; [exact Hq|].
  intros r w1 (H1 & found & ->). ensure_step.
  destruct (truthy (text o)).
  - ensure_step. ensure_step. destruct (settled _) as [result|e]; [|later_chain].
    destruct (exceptionDetails result); ensure; later_chain.
  - ensure. later_chain.
Qed.

Lemma report_later o startTime ok c w :
  ensures (report client o startTime ok c) w
          (fun r w' => forall out, r = Normal out ->
                         conditions out = c /\ now w - startTime <= timeElapsed out).
Proof.
  unfold report. ensure_step.
  eapply ensures_mono; [apply getActualState_later, later_refl|].
  intros r w1 [Hnow _]. destruct r as [st|e]; [|discriminate].
  ensure. intros out [= <-]. simpl. split; [reflexivity|lia].
Qed.

Lemma poll_earned o idleFor startTime timeout cell fuel : forall c w,
  networkIdle o = Some idleFor ->
  activity_since startTime cell w ->
  idle_is_earned idleFor startTime c w ->
  ensures (poll client RegExp_test fuel o startTime timeout cell c) w
          (fun r _ => forall out, r = Normal out ->
                        c_networkIdle (conditions out) = Some true ->
                        idleFor <= timeElapsed out).
Proof.
  induction fuel as [|fuel IH]; intros c w Ho Hs Hc; [intros r w' [=]|].
  cbn [poll]. ensure_step. ensure_step.
  destruct (now w - startTime <? timeout).
  - ensure_step.
    eapply ensures_mono; [apply (checkConditions_earned o idleFor startTime cell c w Ho Hs Hc)|].
    intros r1 w1 (H1 & Hc1). destruct r1 as [c1|e1]; [|discriminate].
    specialize (Hc1 c1 eq_refl).
    destruct (allConditionsMet c1).
    + eapply ensures_mono; [apply report_later|].
      intros r w2 Hout out E Hflag. destruct (Hout out E) as [Hcond Helapsed].
      rewrite Hcond in Hflag. specialize (Hc1 Hflag). lia.
    + ensure_step. ensure_step.
      apply IH; [exact Ho|apply H, H1, Hs|].
      eapply idle_is_earned_later; [exact H|reflexivity|exact Hc1].
  - eapply ensures_mono; [apply report_later|].
    intros r w2 Hout out E Hflag. destruct (Hout out E) as [Hcond Helapsed].
    rewrite Hcond in Hflag. specialize (Hc Hflag). lia.
Qed.

Lemma monitorNetwork_starts o w :
  ensures (monitorNetwork client o) w
          (fun r w' => forall cell, r = Normal cell -> activity_since (now w) cell w').
Proof.
  unfold monitorNetwork. ensure_step. ensure_step. ensure_step. ensure_step.
  assert (activity_since (now w) (length (cells w)) w') as Hs.
  { split; [lia|]. exists (now w). split; [assumption|lia]. }
  destruct (networkIdle o).
  - ensure_step. ensure_step. destruct (settled _) as [[]|e]; [|discriminate].
    ensure. intros cell [= <-]. carry.
  - ensure. intros cell [= <-]. exact Hs.
Qed.

Lemma cleanup_returns o w :
  ensures (cleanup client o) w (fun r _ => r = Normal tt).
Proof.
  unfold cleanup. destruct (networkIdle o); ensure; try reflexivity.
  destruct a. reflexivity.
Qed.

Lemma waitFor_earned o idleFor w :
  networkIdle o = Some idleFor ->
  ensures (waitFor client RegExp_test o) w
          (fun r _ => forall out, r = Normal out ->
                        c_networkIdle (conditions out) = Some true ->
                        idleFor <= timeElapsed out).
Proof.
  intros Ho. unfold waitFor, waitFor_fuel. ensure_step. ensure_step.
  ensure_step. ensure_step. ensure_step.
  eapply ensures_mono; [apply monitorNetwork_starts|].
  intros r0 w0 Hs. destruct r0 as [cell|e0].
  - eapply ensures_mono;
      [apply (poll_earned o idleFor (now w) (effective_timeout o) cell _
                (initial_conditions o) w0 Ho (Hs cell eq_refl))|].
    + unfold idle_is_earned, initial_conditions. simpl. rewrite Ho. discriminate.
    + intros r1 w1 Hout. destruct r1 as [out|e1].
      * eapply ensures_mono; [apply cleanup_returns|].
        intros r2 w2 ->. exact Hout.
      * ensure_step. eapply ensures_mono; [apply cleanup_returns|].
        intros r2 w2 ->. discriminate.
  - ensure_step. eapply ensures_mono; [apply cleanup_returns|].
    intros r2 w2 ->. discriminate.
Qed.

End NetworkIdleness.

(** X25. [waitFor] never reports network idleness early: the variable the
    callbacks write starts at the time of the call and only ever receives
    later times, so an outcome whose [networkIdle] flag is true comes at
    least [networkIdle] ms after the call began. *)
Theorem waitFor_idle_is_earned {P} (client : Driver P)
    (RegExp_test : string -> string -> Completion bool) (o : WaitOptions)
    (w : World P) (idleFor : Z) :
  networkIdle o = Some idleFor ->
  exists r w',
    waitFor client RegExp_test o w = Some (r, w') /\
    forall out, r = Normal out ->
      c_networkIdle (conditions out) = Some true -> idleFor <= timeElapsed out.
Proof.
  intros Ho.
  destruct (waitFor_deadline client RegExp_test o w) as (r & w' & tr & Hrun & _).
  exists r, w'. split; [exact Hrun|].
  apply (waitFor_earned client RegExp_test o idleFor w Ho r w' Hrun).
Qed.

(** The theorem at work: half a second of idleness asked of a quiet page. *)
Lemma waitFor_idle_is_earned_witness :
  exists r w',
    waitFor scripted literal_pattern network_idle_only (world_at [app_page] 0)
    = Some (r, w') /\
    forall out, r = Normal out ->
      c_networkIdle (conditions out) = Some true -> 500 <= timeElapsed out.
Proof.
  apply (waitFor_idle_is_earned scripted literal_pattern network_idle_only
           (world_at [app_page] 0) 500).
  reflexivity.
Defined.


(** ** WaitService: what a call touches *)

Lemma probe_not_enable e : is_probe e = true -> is_enable e = false.
Proof. destruct e; simpl; congruence. Qed.

Lemma within_request_nil o : within_request o [].
Proof. split; reflexivity. Qed.

Lemma within_request_app o tr1 tr2 :
  within_request o tr1 -> within_request o tr2 -> within_request o (tr1 ++ tr2).
Proof.
  intros [H1 K1] [H2 K2]. split; intros H; apply never_app; auto.
Qed.

(** The class of a trace, for [within_request]. *)
Ltac within :=
  repeat apply within_request_app;
  first [ assumption | apply within_request_nil | split; intros _; reflexivity ].

Section RequestedProbes.
Context {P : Type} (client : Driver P).
Variable RegExp_test : string -> string -> Completion bool.
Implicit Types w : World P.

Lemma checkElement_within o c w :
  runs (checkElement client o c) w
       (fun r tr _ => within_request o tr /\ only is_probe tr /\
                      exists c', r = Normal c').
Proof.
  unfold checkElement. destruct (truthy (element o)) eqn:He; simpl.
  - destruct (unmet (c_element c)).
    + run_step. eapply runs_mono; [apply guarded_query_runs|].
      intros r tr w' _ [Hq [found ->]]. run. rewrite app_nil_r.
      split; [split; [intros E; congruence|intros _; trace_class]|].
      split; [trace_class|eauto].
    + run. split; [apply within_request_nil|]. split; [reflexivity|eauto].
  - run. split; [apply within_request_nil|]. split; [reflexivity|eauto].
Qed.

Lemma checkText_within o c w :
  runs (checkText client o c) w
       (fun _ tr _ => within_request o tr /\ only is_probe tr).
Proof.
  unfold checkText. destruct (truthy (text o)) eqn:He; simpl.
  - destruct (unmet (c_text c)).
    + run_step. run_step.
      assert (within_request o [CallEvaluate (TextScan (js_string (text o)))]) as Hw
        by (split; [intros _; reflexivity|intros E; congruence]).
      destruct (settled _) as [result|e]; [|split; [exact Hw|reflexivity]].
      destruct (exceptionDetails result); [run; split; [exact Hw|reflexivity]|].
      destruct (value result) as [[|]|]; run; (split; [exact Hw|reflexivity]).
    + run. split; [apply within_request_nil|reflexivity].
  - run. split; [apply within_request_nil|reflexivity].
Qed.

Lemma checkUrl_within o c w :
  runs (checkUrl client RegExp_test o c) w
       (fun _ tr _ => within_request o tr /\ only is_probe tr).
Proof.
  eapply runs_mono; [apply checkUrl_runs|].
  intros r tr w' _ (Hq & _). split; [split; intros _|]; trace_class.
Qed.

Lemma checkConditions_within o cell c w :
  runs (checkConditions client RegExp_test o cell c) w
       (fun _ tr _ => within_request o tr /\ only is_probe tr).
Proof.
  unfold checkConditions. run_step.
  eapply runs_mono; [apply checkElement_within|].
  intros r1 tr1 w1 _ (H1 & K1 & c1 & ->). run_step.
  eapply runs_mono; [apply checkText_within|].
  intros r2 tr2 w2 _ (H2 & K2).
  destruct r2 as [c2|e2];
    [|split; [within|trace_class]].
  run_step. eapply runs_mono; [apply checkUrl_within|].
  intros r3 tr3 w3 _ (H3 & K3).
  destruct r3 as [c3|e3];
    [|split; [within|trace_class]].
  eapply runs_mono; [apply checkNetworkIdle_runs|].
  intros r4 tr4 w4 _ (-> & _).
  split; [within|].
  trace_class.
Qed.

Lemma getActualState_within o w :
  runs (getActualState client o) w
       (fun _ tr _ => within_request o tr /\ only is_probe tr).
Proof.
  unfold getActualState. run_step. run_step.
  assert (within_request o [CallEvaluate LocationHref]) as Hhref
    by (split; intros _; reflexivity).
  destruct (settled _) as [urlResult|e]; [|split; [exact Hhref|reflexivity]].
  run_step.
  assert (runs (if truthy (element o)
                then try_catch (queryElement client (js_string (element o)))
                               (fun _ => ret false)
                else ret false) w'
               (fun r tr _ => within_request o tr /\ only is_probe tr /\
                              exists b, r = Normal b)) as Hquery.
  { destruct (truthy (element o)) eqn:He.
    - eapply runs_mono; [apply guarded_query_runs|].
      intros r tr w1 _ [Hq Hb].
      split; [split; [intros E; congruence|intros _; trace_class]|]. split; [trace_class|exact Hb].
    - run. split; [apply within_request_nil|]. split; [reflexivity|eauto]. }
  eapply runs_mono; [exact Hquery|].
  intros r tr1 w1 _ (Hq1 & Kq1 & found & ->). run_step.
  destruct (truthy (text o)) eqn:Ht.
  - run_step. run_step.
    assert (within_request o [CallEvaluate (TextScan (js_string (text o)))]) as Hw
      by (split; [intros _; reflexivity|intros E; congruence]).
    destruct (settled _) as [result|e].
    + destruct (exceptionDetails result); run;
        (split; [within|trace_class]).
    + split; [within|trace_class].
  - run. split; [within|trace_class].
Qed.

Lemma report_within o startTime ok c w :
  runs (report client o startTime ok c) w
       (fun _ tr _ => within_request o tr /\ only is_probe tr).
Proof.
  unfold report. run_step. eapply runs_mono; [apply getActualState_within|].
  intros r tr w' _ [H K]. destruct r as [st|e]; [|split; assumption].
  run. rewrite !app_nil_r. split; assumption.
Qed.

Lemma poll_within fuel : forall o startTime timeout cell c w,
  timeout - (now w - startTime) <= 99 * Z.of_nat fuel ->
  runs (poll client RegExp_test (S fuel) o startTime timeout cell c) w
       (fun _ tr _ => within_request o tr /\ only is_probe tr).
Proof.
  induction fuel as [|fuel IH]; intros o startTime timeout cell c w Hfuel;
    rewrite poll_S; run_step; run_step;
    destruct (now w - startTime <? timeout) eqn:Ht;
    try (apply Z.ltb_lt in Ht; lia).
  - apply report_within.
  - run_step. eapply runs_mono; [apply checkConditions_within|].
    intros r1 tr1 w1 Hev1 [H1 K1].
    destruct r1 as [c1|e1]; [|split; assumption].
    destruct (allConditionsMet c1).
    + eapply runs_mono; [apply report_within|].
      intros r tr w' _ [Hr Kr].
      split; [within|trace_class].
    + run_step. run_step. destruct Hev1 as (_ & _ & Hnow1 & _).
      eapply runs_mono; [apply IH; unfold WAIT_CHECK_INTERVAL_MS, TIMER_EARLY_MS in *; lia|].
      intros r tr w2 _ [Hr Kr].
      split; [|trace_class].
      change (tr1 ++ Sleep WAIT_CHECK_INTERVAL_MS :: tr)
        with (tr1 ++ [Sleep WAIT_CHECK_INTERVAL_MS] ++ tr).
      within.
  - apply report_within.
Qed.

Lemma monitorNetwork_trace o w :
  runs (monitorNetwork client o) w
       (fun _ tr _ =>
          within_request o tr /\
          count_effects is_enable tr =
            match networkIdle o with Some _ => 1%nat | None => 0%nat end).
Proof.
  unfold monitorNetwork. run_step. run_step. run_step. run_step.
  destruct (networkIdle o).
  - run_step. run_step. destruct (settled _) as [[]|e]; [run|];
      (split; [split; intros _; reflexivity|reflexivity]).
  - run. split; [apply within_request_nil|reflexivity].
Qed.

Lemma cleanup_trace o w :
  runs (cleanup client o) w
       (fun _ tr _ => within_request o tr /\ never is_enable tr).
Proof.
  unfold cleanup. destruct (networkIdle o); run;
    (split; [split; intros _; reflexivity|reflexivity]).
Qed.

Lemma waitFor_within o w :
  runs (waitFor client RegExp_test o) w
       (fun _ tr _ =>
          within_request o tr /\
          count_effects is_enable tr =
            match networkIdle o with Some _ => 1%nat | None => 0%nat end).
Proof.
  unfold waitFor, waitFor_fuel. run_step. run_step.
  run_step. run_step. run_step.
  eapply runs_mono; [apply monitorNetwork_trace|].
  intros r0 tr0 w0 Hev0 [H0 N0].
  assert (now w <= now w0) as Hnow0 by apply Hev0.
  destruct r0 as [cell|e0].
  - rewrite poll_bound_S.
    eapply runs_mono; [apply poll_within; apply poll_bound_enough; lia|].
    intros r1 tr1 w1 _ [H1 K1].
    assert (count_effects is_enable tr1 = 0%nat) as N1.
    { apply never_count. eapply only_never; [|exact K1]. apply probe_not_enable. }
    destruct r1 as [out|e1].
    + eapply runs_mono; [apply cleanup_trace|].
      intros r2 tr2 w2 _ [H2 K2].
      assert (within_request o (([] ++ tr0 ++ tr1) ++ tr2)) as Hall
        by within.
      assert (count_effects is_enable (([] ++ tr0 ++ tr1) ++ tr2)
              = match networkIdle o with Some _ => 1%nat | None => 0%nat end) as Nall.
      { simpl. rewrite ?app_nil_r, !count_effects_app, N0, N1, (never_count _ _ K2). lia. }
      destruct r2; split; assumption.
    + run_step. eapply runs_mono; [apply cleanup_trace|].
      intros r2 tr2 w2 _ [H2 K2].
      assert (within_request o (([] ++ (tr0 ++ tr1) ++ []) ++ tr2)) as Hall
        by within.
      assert (count_effects is_enable (([] ++ (tr0 ++ tr1) ++ []) ++ tr2)
              = match networkIdle o with Some _ => 1%nat | None => 0%nat end) as Nall.
      { simpl. rewrite ?app_nil_r, !count_effects_app, N0, N1, (never_count _ _ K2). lia. }
      destruct r2; split; assumption.
  - run_step. eapply runs_mono; [apply cleanup_trace|].
    intros r2 tr2 w2 _ [H2 K2].
    assert (within_request o (([] ++ tr0 ++ []) ++ tr2)) as Hall
      by within.
    assert (count_effects is_enable (([] ++ tr0 ++ []) ++ tr2)
            = match networkIdle o with Some _ => 1%nat | None => 0%nat end) as Nall.
    { simpl. rewrite ?app_nil_r, !count_effects_app, N0, (never_count _ _ K2). lia. }
    destruct r2; split; assumption.
Qed.

End RequestedProbes.

(** X27. [waitFor] touches only what the request asks for: it calls
    [Network.enable] once when [networkIdle] is requested and never
    otherwise, it makes no DOM query unless an element is requested, and it
    runs no text probe unless a text is requested, in the loop and in the
    final report alike. *)
Theorem waitFor_touches_what_is_requested {P} (client : Driver P)
    (RegExp_test : string -> string -> Completion bool) (o : WaitOptions)
    (w : World P) :
  exists r w',
    waitFor client RegExp_test o w = Some (r, w') /\
    count_effects is_enable (drop (length (trace w)) (trace w')) =
      match networkIdle o with Some _ => 1%nat | None => 0%nat end /\
    (truthy (element o) = false ->
     never is_dom_query (drop (length (trace w)) (trace w'))) /\
    (truthy (text o) = false ->
     never is_text_scan (drop (length (trace w)) (trace w'))).
Proof.
  destruct (waitFor_within client RegExp_test o w)
    as (r & w' & tr & Hrun & Hev & [He Ht] & Hn).
  exists r, w'. split; [exact Hrun|].
  destruct Hev as (Htrace & _). rewrite Htrace, drop_app_length. auto.
Qed.

(** ** WaitService: what the flags stand for, and what a success means *)

(** Lists of effects, appended to the right. *)
Ltac flat :=
  repeat match goal with
    | H : context [(_ ++ _) ++ _] |- _ => rewrite <- app_assoc in H
    end;
  rewrite <- ?app_assoc.

Section PagesShown.
Context {P : Type} (client : Driver P).
Variable RegExp_test : string -> string -> Completion bool.
Implicit Types w : World P.

Lemma replay_app tr1 tr2 (p : P) :
  replay client (tr1 ++ tr2) p = replay client tr2 (replay client tr1 p).
Proof. apply fold_left_app. Qed.

Lemma visited_now (p0 : P) hist tr : visited client p0 (hist ++ tr) (replay client hist p0).
Proof. exists hist, tr. auto. Qed.

Lemma visited_more (p0 : P) hist tr p :
  visited client p0 hist p -> visited client p0 (hist ++ tr) p.
Proof.
  intros (before & after & -> & ->). exists before, (after ++ tr).
  rewrite app_assoc. auto.
Qed.

Lemma observed_more o (p0 : P) hist tr c :
  observed client RegExp_test o p0 hist c ->
  observed client RegExp_test o p0 (hist ++ tr) c.
Proof.
  intros (He & Ht & Hu). split; [|split].
  - intros H. destruct (He H) as (root & p & nodeId & Hs & Hq).
    exists root, p, nodeId. split; [apply visited_more, Hs|exact Hq].
  - intros H. destruct (Ht H) as (p & result & Hs & Hq).
    exists p, result. split; [apply visited_more, Hs|exact Hq].
  - intros H. destruct (Hu H) as (p & result & Hs & Hq).
    exists p, result. split; [apply visited_more, Hs|exact Hq].
Qed.

Lemma guarded_query_tracked selector (p0 : P) hist w :
  page w = replay client hist p0 ->
  runs (try_catch (queryElement client selector) (fun _ => ret false)) w
       (tracked client p0 hist (fun r tr =>
          exists found, r = Normal found /\
            (found = true ->
             exists root p nodeId,
               visited client p0 tr p /\
               settled (DOM_querySelector client root selector p) = Normal nodeId /\
               node_found nodeId = true))).
Proof.
  intros Hw. unfold queryElement, tracked. run_step. run_step. run_step.
  destruct (settled (DOM_getDocument client (page w))) as [root|e].
  - run_step. run_step.
    assert (page w' = replay client (hist ++ [CallGetDocument]) p0) as Hw'.
    { rewrite replay_app, <- Hw. assumption. }
    assert (page w'0 = replay client (hist ++ [CallGetDocument] ++
                                        [CallQuerySelector root selector] ++ []) p0) as Hw2.
    { rewrite app_assoc, replay_app, <- Hw'. assumption. }
    destruct (settled (DOM_querySelector client root selector (page w'))) as [nodeId|e]
      eqn:Hq; run.
    + split; [exact Hw2|]. eexists. split; [reflexivity|]. intros Hfound.
      exists root, (page w'), nodeId. split; [|auto].
      rewrite Hw', app_assoc. apply visited_now.
    + rewrite app_nil_r. split; [simpl in Hw2; exact Hw2|].
      eexists. split; [reflexivity|discriminate].
  - run. rewrite app_nil_r. split.
    + rewrite replay_app, <- Hw. assumption.
    + eexists. split; [reflexivity|discriminate].
Qed.

Lemma checkElement_tracked o c (p0 : P) hist w :
  page w = replay client hist p0 ->
  observed client RegExp_test o p0 hist c ->
  runs (checkElement client o c) w
       (tracked client p0 hist (fun r tr =>
          exists c', r = Normal c' /\ observed client RegExp_test o p0 tr c')).
Proof.
  intros Hw Hc. unfold checkElement.
  destruct (truthy (element o) && unmet (c_element c)).
  - run_step. eapply runs_mono; [apply guarded_query_tracked, Hw|].
    intros r tr w' _ (Hw' & found & -> & Hfound). run. unfold tracked.
    rewrite app_nil_r. split; [exact Hw'|]. eexists. split; [reflexivity|].
    destruct (observed_more o p0 hist tr c Hc) as (He & Ht & Hu).
    split; [|split; assumption]. simpl. intros [= E]. apply Hfound, E.
  - run. unfold tracked. rewrite app_nil_r. split; [exact Hw|]. eauto.
Qed.

Lemma checkText_tracked o c (p0 : P) hist w :
  page w = replay client hist p0 ->
  observed client RegExp_test o p0 hist c ->
  runs (checkText client o c) w
       (tracked client p0 hist (fun r tr =>
          forall c', r = Normal c' -> observed client RegExp_test o p0 tr c')).
Proof.
  intros Hw Hc. unfold checkText, tracked.
  destruct (truthy (text o) && unmet (c_text c)).
  - run_step. run_step.
    assert (page w' = replay client
                        (hist ++ [CallEvaluate (TextScan (js_string (text o)))]) p0)
      as Hw' by (rewrite replay_app, <- Hw; assumption).
    pose proof (observed_more o p0 hist
                  [CallEvaluate (TextScan (js_string (text o)))] c Hc) as Hc'.
    destruct (settled (Runtime_evaluate client (TextScan (js_string (text o))) (page w)))
      as [result|e] eqn:Hscan; [|split; [exact Hw'|discriminate]].
    destruct (exceptionDetails result) eqn:Hx;
      [run; rewrite app_nil_r; split; [exact Hw'|discriminate]|].
    destruct (value result) as [[|]|] eqn:Hv; run; rewrite app_nil_r;
      (split; [exact Hw'|]); intros c' [= <-]; try exact Hc'.
    destruct Hc' as (He & Ht & Hu).
    split; [exact He|]. split; [|exact Hu]. intros _.
    exists (page w), result. split; [rewrite Hw; apply visited_now|auto].
  - run. rewrite app_nil_r. split; [exact Hw|]. intros c' [= <-]. exact Hc.
Qed.

Lemma checkUrl_tracked o c (p0 : P) hist w :
  page w = replay client hist p0 ->
  observed client RegExp_test o p0 hist c ->
  runs (checkUrl client RegExp_test o c) w
       (tracked client p0 hist (fun r tr =>
          forall c', r = Normal c' -> observed client RegExp_test o p0 tr c')).
Proof.
  intros Hw Hc. unfold checkUrl, tracked.
  destruct (truthy (url o) && unmet (c_url c)).
  - run_step. run_step.
    assert (page w' = replay client (hist ++ [CallEvaluate LocationHref]) p0)
      as Hw' by (rewrite replay_app, <- Hw; assumption).
    pose proof (observed_more o p0 hist [CallEvaluate LocationHref] c Hc) as Hc'.
    destruct (settled (Runtime_evaluate client LocationHref (page w)))
      as [result|e] eqn:Hread; [|split; [exact Hw'|discriminate]].
    destruct (RegExp_test (js_string (url o)) (js_string (value result)))
      as [[|]|e] eqn:Htest; run; rewrite app_nil_r;
      (split; [exact Hw'|]); try discriminate; intros c' [= <-]; try exact Hc'.
    destruct Hc' as (He & Ht & Hu).
    split; [exact He|]. split; [exact Ht|]. intros _.
    exists (page w), result. split; [rewrite Hw; apply visited_now|auto].
  - run. rewrite app_nil_r. split; [exact Hw|]. intros c' [= <-]. exact Hc.
Qed.

Lemma checkNetworkIdle_tracked o cell c (p0 : P) hist w :
  page w = replay client hist p0 ->
  observed client RegExp_test o p0 hist c ->
  runs (checkNetworkIdle o cell c) w
       (tracked client p0 hist (fun r tr =>
          forall c', r = Normal c' -> observed client RegExp_test o p0 tr c')).
Proof.
  intros Hw Hc. unfold checkNetworkIdle, tracked.
  destruct (networkIdle o) as [idleFor|];
    [|run; rewrite app_nil_r; split; [exact Hw|]; intros c' [= <-]; exact Hc].
  destruct (unmet (c_networkIdle c));
    [|run; rewrite app_nil_r; split; [exact Hw|]; intros c' [= <-]; exact Hc].
  run_step. run_step. run_step. run_step.
  destruct (idleFor <=? _); run; rewrite app_nil_r; (split; [exact Hw|]);
    intros c' [= <-]; exact Hc.
Qed.

Lemma checkConditions_tracked o cell c (p0 : P) hist w :
  page w = replay client hist p0 ->
  observed client RegExp_test o p0 hist c ->
  runs (checkConditions client RegExp_test o cell c) w
       (tracked client p0 hist (fun r tr =>
          forall c', r = Normal c' -> observed client RegExp_test o p0 tr c')).
Proof.
  intros Hw Hc. unfold checkConditions. run_step.
  eapply runs_mono; [apply (checkElement_tracked o c p0 hist w Hw Hc)|].
  intros r1 tr1 w1 _ (Hw1 & c1 & -> & H1). run_step.
  eapply runs_mono; [apply (checkText_tracked o c1 p0 _ w1 Hw1 H1)|].
  intros r2 tr2 w2 _ (Hw2 & H2). unfold tracked. flat.
  destruct r2 as [c2|e2]; [|split; [exact Hw2|discriminate]]. run_step.
  eapply runs_mono; [apply (checkUrl_tracked o c2 p0 _ w2 Hw2 (H2 _ eq_refl))|].
  intros r3 tr3 w3 _ (Hw3 & H3). flat.
  destruct r3 as [c3|e3]; [|split; [exact Hw3|discriminate]].
  eapply runs_mono; [apply (checkNetworkIdle_tracked o cell c3 p0 _ w3 Hw3 (H3 _ eq_refl))|].
  intros r4 tr4 w4 _ (Hw4 & H4). flat. split; assumption.
Qed.

Lemma getActualState_tracked o (p0 : P) hist w :
  page w = replay client hist p0 ->
  runs (getActualState client o) w (tracked client p0 hist (fun _ _ => True)).
Proof.
  intros Hw. unfold getActualState, tracked. run_step. run_step.
  assert (page w' = replay client (hist ++ [CallEvaluate LocationHref]) p0)
    as Hw' by (rewrite replay_app, <- Hw; assumption).
  destruct (settled _) as [urlResult|e]; [|split; [exact Hw'|exact I]].
  run_step.
  assert (runs (if truthy (element o)
                then try_catch (queryElement client (js_string (element o)))
                               (fun _ => ret false)
                else ret false) w'
               (fun r tr w1 =>
                  page w1 = replay client ((hist ++ [CallEvaluate LocationHref]) ++ tr) p0 /\
                  exists b, r = Normal b)) as Hquery.
  { destruct (truthy (element o)).
    - eapply runs_mono; [apply guarded_query_tracked, Hw'|].
      intros r tr w1 _ (Hw1 & found & -> & _). split; [exact Hw1|eauto].
    - run. rewrite app_nil_r. split; [exact Hw'|eauto]. }
  eapply runs_mono; [exact Hquery|].
  intros r tr1 w1 _ (Hw1 & found & ->). flat. run_step.
  destruct (truthy (text o)).
  - run_step. run_step.
    assert (page w'0 = replay client
              (hist ++ [CallEvaluate LocationHref] ++ tr1 ++
               [CallEvaluate (TextScan (js_string (text o)))]) p0) as Hw2.
    { rewrite !app_assoc, replay_app. flat. rewrite <- Hw1. assumption. }
    destruct (settled _) as [result|e].
    + destruct (exceptionDetails result); run; rewrite !app_nil_r;
        (split; [exact Hw2|exact I]).
    + split; [exact Hw2|exact I].
  - run. rewrite !app_nil_r. split; [exact Hw1|exact I].
Qed.

Lemma report_tracked o startTime ok c (p0 : P) hist w :
  page w = replay client hist p0 ->
  runs (report client o startTime ok c) w
       (tracked client p0 hist (fun r _ => forall out, r = Normal out -> conditions out = c)).
Proof.
  intros Hw. unfold report. run_step.
  eapply runs_mono; [apply getActualState_tracked, Hw|].
  intros r tr w' _ [Hw' _]. unfold tracked.
  destruct r as [st|e]; [|split; [exact Hw'|discriminate]].
  run. rewrite !app_nil_r. split; [exact Hw'|]. intros out [= <-]. reflexivity.
Qed.

Lemma poll_tracked fuel : forall o startTime timeout cell c (p0 : P) hist w,
  timeout - (now w - startTime) <= 99 * Z.of_nat fuel ->
  page w = replay client hist p0 ->
  observed client RegExp_test o p0 hist c ->
  runs (poll client RegExp_test (S fuel) o startTime timeout cell c) w
       (tracked client p0 hist (fun r tr =>
          forall out, r = Normal out ->
                      observed client RegExp_test o p0 tr (conditions out))).
Proof.
  assert (forall o startTime ok c (p0 : P) hist w,
            page w = replay client hist p0 ->
            observed client RegExp_test o p0 hist c ->
            runs (report client o startTime ok c) w
                 (tracked client p0 hist (fun r tr =>
                    forall out, r = Normal out ->
                                observed client RegExp_test o p0 tr (conditions out))))
    as Hreport.
  { intros o startTime ok c p0 hist w Hw Hc.
    eapply runs_mono; [apply report_tracked, Hw|].
    intros r tr w' _ [Hw' Hout]. split; [exact Hw'|].
    intros out E. rewrite (Hout out E). apply observed_more, Hc. }
  induction fuel as [|fuel IH]; intros o startTime timeout cell c p0 hist w Hfuel Hw Hc;
    rewrite poll_S; run_step; run_step;
    destruct (now w - startTime <? timeout) eqn:Ht;
    try (apply Z.ltb_lt in Ht; lia).
  - apply Hreport; assumption.
  - run_step.
    eapply runs_mono; [apply (checkConditions_tracked o cell c p0 hist w Hw Hc)|].
    intros r1 tr1 w1 Hev1 [Hw1 H1].
    destruct r1 as [c1|e1]; [|split; [exact Hw1|discriminate]].
    specialize (H1 c1 eq_refl).
    destruct (allConditionsMet c1).
    + eapply runs_mono; [apply (Hreport o startTime true c1 p0 _ w1 Hw1 H1)|].
      intros r tr w' _ [Hw' Hout]. unfold tracked. flat. split; assumption.
    + run_step. run_step. destruct Hev1 as (_ & _ & Hnow1 & _).
      assert (page w' = replay client (hist ++ tr1 ++ [Sleep WAIT_CHECK_INTERVAL_MS]) p0)
        as Hw'.
      { rewrite app_assoc, replay_app, <- Hw1. assumption. }
      eapply runs_mono;
        [apply (IH o startTime timeout cell c1 p0
                  (hist ++ tr1 ++ [Sleep WAIT_CHECK_INTERVAL_MS]) w');
         [unfold WAIT_CHECK_INTERVAL_MS, TIMER_EARLY_MS in *; lia|exact Hw'|]|].
      * rewrite app_assoc. apply observed_more. exact H1.
      * intros r tr w2 _ [Hw2 Hout]. unfold tracked. flat. split; assumption.
  - apply Hreport; assumption.
Qed.

Lemma monitorNetwork_tracked o (p0 : P) hist w :
  page w = replay client hist p0 ->
  runs (monitorNetwork client o) w (tracked client p0 hist (fun _ _ => True)).
Proof.
  intros Hw. unfold monitorNetwork, tracked. run_step. run_step. run_step. run_step.
  destruct (networkIdle o).
  - run_step. run_step.
    assert (page w'0 = replay client (hist ++ [CallNetworkEnable]) p0) as Hw'.
    { rewrite replay_app, <- Hw, H1, H. reflexivity. }
    destruct (settled _) as [[]|e]; [run|]; rewrite ?app_nil_r.
    + split; [|exact I]. rewrite !app_assoc, !replay_app. simpl.
      rewrite replay_app in Hw'. congruence.
    + split; [exact Hw'|exact I].
  - run. rewrite !app_nil_r. split; [congruence|exact I].
Qed.

Lemma cleanup_tracked o (p0 : P) hist w :
  page w = replay client hist p0 ->
  runs (cleanup client o) w
       (fun r tr w' => page w' = replay client (hist ++ tr) p0 /\ r = Normal tt).
Proof.
  intros Hw. unfold cleanup. destruct (networkIdle o); run; rewrite ?app_nil_r.
  - split; [|destruct a; reflexivity]. rewrite replay_app, <- Hw. assumption.
  - split; [|reflexivity]. rewrite app_assoc, !replay_app, <- Hw.
    cbn [replay fold_left page_effect]. congruence.
  - split; [exact Hw|reflexivity].
Qed.

Lemma waitFor_tracked o w :
  runs (waitFor client RegExp_test o) w
       (fun r tr w' =>
          page w' = replay client tr (page w) /\
          forall out, r = Normal out ->
                      observed client RegExp_test o (page w) tr (conditions out)).
Proof.
  unfold waitFor, waitFor_fuel. run_step. run_step.
  run_step. run_step. run_step.
  eapply runs_mono; [apply (monitorNetwork_tracked o (page w) [] w eq_refl)|].
  intros r0 tr0 w0 Hev0 [Hw0 _]. simpl in Hw0.
  assert (now w <= now w0) as Hnow0 by apply Hev0.
  destruct r0 as [cell|e0].
  - rewrite poll_bound_S.
    eapply runs_mono;
      [apply (poll_tracked _ o (now w) (effective_timeout o) cell
                (initial_conditions o) (page w) tr0 w0);
       [apply poll_bound_enough; lia|exact Hw0|]|].
    + unfold observed, initial_conditions. simpl.
      destruct (truthy (element o)), (truthy (text o)), (truthy (url o));
        repeat split; discriminate.
    + intros r1 tr1 w1 _ [Hw1 Hout].
      destruct r1 as [out|e1].
      * eapply runs_mono; [apply (cleanup_tracked o (page w) _ w1 Hw1)|].
        intros r2 tr2 w2 _ [Hw2 ->]. simpl. flat. split; [exact Hw2|].
        intros out' E. rewrite app_assoc. apply observed_more. exact (Hout out' E).
      * run_step. eapply runs_mono; [apply (cleanup_tracked o (page w) _ w1 Hw1)|].
        intros r2 tr2 w2 _ [Hw2 ->]. simpl. rewrite app_nil_r. flat.
        split; [exact Hw2|discriminate].
  - run_step. eapply runs_mono; [apply (cleanup_tracked o (page w) _ w0 Hw0)|].
    intros r2 tr2 w2 _ [Hw2 ->]. simpl. rewrite app_nil_r.
    split; [exact Hw2|discriminate].
Qed.

End PagesShown.

Lemma met_flag flag : met_or_absent flag = true -> flag <> None -> flag = Some true.
Proof. destruct flag as [[|]|]; simpl; congruence. Qed.

(** X26. The page [waitFor] leaves is the one its driver calls produce, and
    a flag it returns as true stands for something a page has shown while
    those calls were made: for [element], a DOM query for the selector that
    found a node; for [text], a text probe that ran without raising and
    returned true; for [url], a URL the pattern matched. *)
Theorem waitFor_flags_are_observed {P} (client : Driver P)
    (RegExp_test : string -> string -> Completion bool) (o : WaitOptions)
    (w : World P) :
  exists r w',
    waitFor client RegExp_test o w = Some (r, w') /\
    page w' = replay client (drop (length (trace w)) (trace w')) (page w) /\
    forall out, r = Normal out ->
      (c_element (conditions out) = Some true ->
       element_seen client o (page w) (drop (length (trace w)) (trace w'))) /\
      (c_text (conditions out) = Some true ->
       text_seen client o (page w) (drop (length (trace w)) (trace w'))) /\
      (c_url (conditions out) = Some true ->
       url_matched client RegExp_test o (page w) (drop (length (trace w)) (trace w'))).
Proof.
  destruct (waitFor_tracked client RegExp_test o w)
    as (r & w' & tr & Hrun & Hev & Hpage & Hout).
  exists r, w'. split; [exact Hrun|].
  destruct Hev as (Htrace & _). rewrite Htrace, drop_app_length.
  split; [exact Hpage|exact Hout].
Qed.

(** X28. A [waitFor] that returns [success: true] has seen everything the
    request names while it ran: a node for the requested element, the
    requested text in a probe that ran without raising, a URL the requested
    pattern matched, and at least [networkIdle] ms since the call began. *)
Theorem waitFor_success_is_sound {P} (client : Driver P)
    (RegExp_test : string -> string -> Completion bool) (o : WaitOptions)
    (w : World P) :
  exists r w',
    waitFor client RegExp_test o w = Some (r, w') /\
    forall out, r = Normal out -> success out = true ->
      (truthy (element o) = true ->
       element_seen client o (page w) (drop (length (trace w)) (trace w'))) /\
      (truthy (text o) = true ->
       text_seen client o (page w) (drop (length (trace w)) (trace w'))) /\
      (truthy (url o) = true ->
       url_matched client RegExp_test o (page w) (drop (length (trace w)) (trace w'))) /\
      (forall idleFor, networkIdle o = Some idleFor -> idleFor <= timeElapsed out).
Proof.
  destruct (runs_conj _ _ _ _ (waitFor_runs client RegExp_test o w)
              (waitFor_tracked client RegExp_test o w))
    as (r & w' & tr & Hrun & Hev & (_ & _ & Hout) & _ & Hseen).
  exists r, w'. split; [exact Hrun|].
  destruct Hev as (Htrace & _). rewrite Htrace, drop_app_length.
  intros out -> Hsuccess.
  destruct (Hout out eq_refl) as ((She & Sht & Shu & Shn) & Hmet & _).
  specialize (Hmet Hsuccess). unfold allConditionsMet in Hmet. simpl in Hmet.
  apply andb_prop in Hmet as [Me Hmet]. apply andb_prop in Hmet as [Mt Hmet].
  apply andb_prop in Hmet as [Mu Hmet]. apply andb_prop in Hmet as [Mn _].
  destruct (Hseen out eq_refl) as (Oe & Ot & Ou).
  split; [|split; [|split]].
  - intros H. apply Oe, met_flag; [exact Me|]. intros E. apply She in E. congruence.
  - intros H. apply Ot, met_flag; [exact Mt|]. intros E. apply Sht in E. congruence.
  - intros H. apply Ou, met_flag; [exact Mu|]. intros E. apply Shu in E. congruence.
  - intros idleFor Hn.
    apply (waitFor_earned client RegExp_test o idleFor w Hn _ _ Hrun out eq_refl).
    apply met_flag; [exact Mn|]. intros E. apply Shn in E. congruence.
Qed.
